(** * micro-app: app lifecycle (src/create_app.ts) and router glue
      (src/sandbox/router/index.ts)

    A shallow embedding of the two modules.  The class [CreateApp] becomes a
    record of its fields; its methods become computations in a small monad
    that threads the receiver, the process-wide [appInstanceMap], the
    exceptions a method can raise and the calls it makes to collaborators
    that live outside the two files (sandbox, DOM helpers, event dispatch,
    script execution).  The router functions are written over the helpers of
    [./core], [./location] and [./history], which are taken as parameters.

    A method runs to its end before anything else happens to the instance:
    the page is single-threaded, and the collaborators are taken not to
    raise and not to call back into the instance while they run, with the
    one exception of [execScripts], whose completion callback is part of
    [mount].  What happens later (a second resource channel completing, a
    script batch finishing, a promise settling) is a further call on the
    state the earlier ones left. *)

From Stdlib Require Import ZArith Lia Ascii.
From stdpp Require Import base strings list gmap.

Local Open Scope Z_scope.

(** ** JavaScript values that the code inspects *)

Module Js.

Definition Elem := nat.
Definition Func := nat.
Definition PromiseId := nat.

(** A field or argument typed [HTMLElement | ShadowRoot | null], which at
    run time may also hold [undefined] (an omitted optional argument). *)
Inductive Ref : Type :=
| Null
| Undefined
| Node (e : Elem).

(** [a ?? b] *)
Definition coalesce (a b : Ref) : Ref :=
  match a with
  | Node _ => a
  | Null | Undefined => b
  end.

(** Truthiness of an object reference: [x ? .. : ..] *)
Definition truthy (a : Ref) : bool :=
  match a with
  | Node _ => true
  | Null | Undefined => false
  end.

Inductive Error : Type :=
| TypeError
| Raised (tag : nat).

(** Values returned by a UMD hook or stored under a library export; only
    their being a function or a promise is ever inspected. *)
Inductive Val : Type :=
| VUndefined
| VFunc (f : Func)
| VPromise (p : PromiseId)
| VOther.

Definition isFunction (v : Val) : bool :=
  match v with VFunc _ => true | _ => false end.

Definition isPromise (v : Val) : bool :=
  match v with VPromise _ => true | _ => false end.

(** What calling a sub-application function does. *)
Inductive CallResult : Type :=
| Returns (v : Val)
| Throws (e : Error).

(** [typeof global[key] === 'object' ? global[key] : {}] looks at a
    property of the (proxied) window: either its [typeof] is not
    ['object'], or it is [null], whose [typeof] is ['object'] too, or it
    is an object, whose [mount] and [unmount] properties are read. *)
Inductive GlobalVal : Type :=
| GNotObject
| GNull
| GObject (mount unmount : Val).

(** The empty object [{}]: both properties read as [undefined]. *)
Definition empty_object : GlobalVal := GObject VUndefined VUndefined.

Definition Window := string -> GlobalVal.

(** [getAttribute] returns a string or [null]; [s || d] falls back to [d]
    on [null] and on the empty string. *)
Definition or_default (s : option string) (d : string) : string :=
  match s with
  | Some EmptyString | None => d
  | Some s' => s'
  end.

(** A [Map<string, V>]: entries in insertion order, keys unique. *)
Abbreviation Map V := (list (string * V)).

Fixpoint map_get {V} (k : string) (m : Map V) : option V :=
  match m with
  | [] => None
  | (k', v) :: m' => if decide (k' = k) then Some v else map_get k m'
  end.

Definition map_delete {V} (k : string) (m : Map V) : Map V :=
  filter (λ kv, kv.1 ≠ k) m.

Fixpoint map_set {V} (k : string) (v : V) (m : Map V) : Map V :=
  match m with
  | [] => [(k, v)]
  | (k', v') :: m' =>
      if decide (k' = k) then (k, v) :: m' else (k', v') :: map_set k v m'
  end.

Definition map_keys {V} (m : Map V) : list string := m.*1.

(** *** The monad of method bodies: state, exceptions and a call trace *)

Inductive completion (A : Type) : Type :=
| Normal (a : A)
| Abrupt (e : Error).
Arguments Normal {A} a.
Arguments Abrupt {A} e.

Definition M (S E A : Type) : Type := S -> completion A * S * list E.

Section monad.
Context {S E : Type}.

Definition ret {A} (a : A) : M S E A := fun s => (Normal a, s, []).

Definition bind {A B} (m : M S E A) (f : A -> M S E B) : M S E B :=
  fun s =>
    match m s with
    | (Normal a, s1, t1) =>
        let '(r, s2, t2) := f a s1 in (r, s2, t1 ++ t2)
    | (Abrupt e, s1, t1) => (Abrupt e, s1, t1)
    end.

Definition get : M S E S := fun s => (Normal s, s, []).
Definition modify (f : S -> S) : M S E unit := fun s => (Normal tt, f s, []).
Definition emit (e : E) : M S E unit := fun s => (Normal tt, s, [e]).
Definition throw {A} (e : Error) : M S E A := fun s => (Abrupt e, s, []).
Definition when (b : bool) (m : M S E unit) : M S E unit :=
  if b then m else ret tt.
End monad.

Definition result {S E A} (o : completion A * S * list E) : completion A := o.1.1.
Definition final {S E A} (o : completion A * S * list E) : S := o.1.2.
Definition trace {S E A} (o : completion A * S * list E) : list E := o.2.

End Js.

Global Instance M_ret {S E} : MRet (Js.M S E) := @Js.ret S E.
Global Instance M_bind {S E} : MBind (Js.M S E) := fun A B f m => Js.bind m f.

Global Instance Ref_eq_dec : EqDecision Js.Ref.
Proof. solve_decision. Defined.
Global Instance Error_eq_dec : EqDecision Js.Error.
Proof. solve_decision. Defined.
Global Instance Val_eq_dec : EqDecision Js.Val.
Proof. solve_decision. Defined.

(** ** Constants of [./constants] *)

(** Modelled from the spec: [src/constants.ts] is absent; the spec lists the
    seven app states, pairwise distinct. *)
Module appStates.
Inductive t : Type :=
| NOT_LOADED
| LOADING_SOURCE_CODE
| LOAD_SOURCE_FINISHED
| LOAD_SOURCE_ERROR
| MOUNTING
| MOUNTED
| UNMOUNT.
End appStates.

(** Modelled from the spec: [src/constants.ts] is absent; the spec lists the
    host-facing lifecycle channels. *)
Module lifeCycles.
Inductive t : Type :=
| BEFOREMOUNT
| MOUNTED
| UNMOUNT
| ERROR
| AFTERHIDDEN
| AFTERSHOW.
End lifeCycles.

(** Modelled from the spec: [src/constants.ts] is absent; the spec names the
    two keep-alive sub-states. *)
Module keepAliveStates.
Inductive t : Type :=
| KEEP_ALIVE_SHOW
| KEEP_ALIVE_HIDDEN.
End keepAliveStates.

Global Instance appStates_eq_dec : EqDecision appStates.t.
Proof. solve_decision. Defined.
Global Instance lifeCycles_eq_dec : EqDecision lifeCycles.t.
Proof. solve_decision. Defined.
Global Instance keepAliveStates_eq_dec : EqDecision keepAliveStates.t.
Proof. solve_decision. Defined.

(** ** The app lifecycle: [src/create_app.ts] *)

Module Lifecycle.

(** [sourceType]: the two resource maps (only their keys matter here) and
    the root fragment, [undefined] until loading completes. *)
Record sourceType : Type := {
  links : list string;
  scripts : list string;
  html : Js.Ref;
}.

(** The sandbox object is a collaborator; the instance only remembers
    whether it holds one and what it was built from. *)
Record SandBox : Type := {
  sb_name : string;
  sb_url : string;
  sb_macro : bool;
}.

(** The fields of [class CreateApp], in declaration order. *)
Record App : Type := {
  state : appStates.t;
  keepAliveState : option keepAliveStates.t;
  keepAliveContainer : Js.Ref;
  loadSourceLevel : Z;
  umdHookMount : option Js.Func;
  umdHookUnmount : option Js.Func;
  libraryName : option string;
  umdMode : bool;
  isPrefetch : bool;
  name : string;
  url : string;
  ssrUrl : string;
  container : Js.Ref;
  inline : bool;
  scopecss : bool;
  useSandbox : bool;
  macro : bool;
  baseroute : string;
  source : sourceType;
  sandBox : option SandBox;
}.

(** Field assignments [this.f = v]. *)
Definition set_state (v : appStates.t) (a : App) : App :=
  {| state := v; keepAliveState := keepAliveState a;
     keepAliveContainer := keepAliveContainer a;
     loadSourceLevel := loadSourceLevel a; umdHookMount := umdHookMount a;
     umdHookUnmount := umdHookUnmount a; libraryName := libraryName a;
     umdMode := umdMode a; isPrefetch := isPrefetch a; name := name a;
     url := url a; ssrUrl := ssrUrl a; container := container a;
     inline := inline a; scopecss := scopecss a;
     useSandbox := useSandbox a; macro := macro a;
     baseroute := baseroute a; source := source a; sandBox := sandBox a |}.

Definition set_keepAliveState (v : option keepAliveStates.t) (a : App) : App :=
  {| state := state a; keepAliveState := v;
     keepAliveContainer := keepAliveContainer a;
     loadSourceLevel := loadSourceLevel a; umdHookMount := umdHookMount a;
     umdHookUnmount := umdHookUnmount a; libraryName := libraryName a;
     umdMode := umdMode a; isPrefetch := isPrefetch a; name := name a;
     url := url a; ssrUrl := ssrUrl a; container := container a;
     inline := inline a; scopecss := scopecss a;
     useSandbox := useSandbox a; macro := macro a;
     baseroute := baseroute a; source := source a; sandBox := sandBox a |}.

Definition set_keepAliveContainer (v : Js.Ref) (a : App) : App :=
  {| state := state a; keepAliveState := keepAliveState a;
     keepAliveContainer := v; loadSourceLevel := loadSourceLevel a;
     umdHookMount := umdHookMount a; umdHookUnmount := umdHookUnmount a;
     libraryName := libraryName a; umdMode := umdMode a;
     isPrefetch := isPrefetch a; name := name a; url := url a;
     ssrUrl := ssrUrl a; container := container a; inline := inline a;
     scopecss := scopecss a; useSandbox := useSandbox a; macro := macro a;
     baseroute := baseroute a; source := source a; sandBox := sandBox a |}.

Definition set_loadSourceLevel (v : Z) (a : App) : App :=
  {| state := state a; keepAliveState := keepAliveState a;
     keepAliveContainer := keepAliveContainer a; loadSourceLevel := v;
     umdHookMount := umdHookMount a; umdHookUnmount := umdHookUnmount a;
     libraryName := libraryName a; umdMode := umdMode a;
     isPrefetch := isPrefetch a; name := name a; url := url a;
     ssrUrl := ssrUrl a; container := container a; inline := inline a;
     scopecss := scopecss a; useSandbox := useSandbox a; macro := macro a;
     baseroute := baseroute a; source := source a; sandBox := sandBox a |}.

Definition set_umdHookMount (v : option Js.Func) (a : App) : App :=
  {| state := state a; keepAliveState := keepAliveState a;
     keepAliveContainer := keepAliveContainer a;
     loadSourceLevel := loadSourceLevel a; umdHookMount := v;
     umdHookUnmount := umdHookUnmount a; libraryName := libraryName a;
     umdMode := umdMode a; isPrefetch := isPrefetch a; name := name a;
     url := url a; ssrUrl := ssrUrl a; container := container a;
     inline := inline a; scopecss := scopecss a;
     useSandbox := useSandbox a; macro := macro a;
     baseroute := baseroute a; source := source a; sandBox := sandBox a |}.

Definition set_umdHookUnmount (v : option Js.Func) (a : App) : App :=
  {| state := state a; keepAliveState := keepAliveState a;
     keepAliveContainer := keepAliveContainer a;
     loadSourceLevel := loadSourceLevel a; umdHookMount := umdHookMount a;
     umdHookUnmount := v; libraryName := libraryName a;
     umdMode := umdMode a; isPrefetch := isPrefetch a; name := name a;
     url := url a; ssrUrl := ssrUrl a; container := container a;
     inline := inline a; scopecss := scopecss a;
     useSandbox := useSandbox a; macro := macro a;
     baseroute := baseroute a; source := source a; sandBox := sandBox a |}.

Definition set_libraryName (v : option string) (a : App) : App :=
  {| state := state a; keepAliveState := keepAliveState a;
     keepAliveContainer := keepAliveContainer a;
     loadSourceLevel := loadSourceLevel a; umdHookMount := umdHookMount a;
     umdHookUnmount := umdHookUnmount a; libraryName := v;
     umdMode := umdMode a; isPrefetch := isPrefetch a; name := name a;
     url := url a; ssrUrl := ssrUrl a; container := container a;
     inline := inline a; scopecss := scopecss a;
     useSandbox := useSandbox a; macro := macro a;
     baseroute := baseroute a; source := source a; sandBox := sandBox a |}.

Definition set_umdMode (v : bool) (a : App) : App :=
  {| state := state a; keepAliveState := keepAliveState a;
     keepAliveContainer := keepAliveContainer a;
     loadSourceLevel := loadSourceLevel a; umdHookMount := umdHookMount a;
     umdHookUnmount := umdHookUnmount a; libraryName := libraryName a;
     umdMode := v; isPrefetch := isPrefetch a; name := name a;
     url := url a; ssrUrl := ssrUrl a; container := container a;
     inline := inline a; scopecss := scopecss a;
     useSandbox := useSandbox a; macro := macro a;
     baseroute := baseroute a; source := source a; sandBox := sandBox a |}.

Definition set_isPrefetch (v : bool) (a : App) : App :=
  {| state := state a; keepAliveState := keepAliveState a;
     keepAliveContainer := keepAliveContainer a;
     loadSourceLevel := loadSourceLevel a; umdHookMount := umdHookMount a;
     umdHookUnmount := umdHookUnmount a; libraryName := libraryName a;
     umdMode := umdMode a; isPrefetch := v; name := name a; url := url a;
     ssrUrl := ssrUrl a; container := container a; inline := inline a;
     scopecss := scopecss a; useSandbox := useSandbox a; macro := macro a;
     baseroute := baseroute a; source := source a; sandBox := sandBox a |}.

Definition set_container (v : Js.Ref) (a : App) : App :=
  {| state := state a; keepAliveState := keepAliveState a;
     keepAliveContainer := keepAliveContainer a;
     loadSourceLevel := loadSourceLevel a; umdHookMount := umdHookMount a;
     umdHookUnmount := umdHookUnmount a; libraryName := libraryName a;
     umdMode := umdMode a; isPrefetch := isPrefetch a; name := name a;
     url := url a; ssrUrl := ssrUrl a; container := v; inline := inline a;
     scopecss := scopecss a; useSandbox := useSandbox a; macro := macro a;
     baseroute := baseroute a; source := source a; sandBox := sandBox a |}.

Definition set_inline (v : bool) (a : App) : App :=
  {| state := state a; keepAliveState := keepAliveState a;
     keepAliveContainer := keepAliveContainer a;
     loadSourceLevel := loadSourceLevel a; umdHookMount := umdHookMount a;
     umdHookUnmount := umdHookUnmount a; libraryName := libraryName a;
     umdMode := umdMode a; isPrefetch := isPrefetch a; name := name a;
     url := url a; ssrUrl := ssrUrl a; container := container a;
     inline := v; scopecss := scopecss a; useSandbox := useSandbox a;
     macro := macro a; baseroute := baseroute a; source := source a;
     sandBox := sandBox a |}.

Definition set_baseroute (v : string) (a : App) : App :=
  {| state := state a; keepAliveState := keepAliveState a;
     keepAliveContainer := keepAliveContainer a;
     loadSourceLevel := loadSourceLevel a; umdHookMount := umdHookMount a;
     umdHookUnmount := umdHookUnmount a; libraryName := libraryName a;
     umdMode := umdMode a; isPrefetch := isPrefetch a; name := name a;
     url := url a; ssrUrl := ssrUrl a; container := container a;
     inline := inline a; scopecss := scopecss a;
     useSandbox := useSandbox a; macro := macro a; baseroute := v;
     source := source a; sandBox := sandBox a |}.

Definition set_source (v : sourceType) (a : App) : App :=
  {| state := state a; keepAliveState := keepAliveState a;
     keepAliveContainer := keepAliveContainer a;
     loadSourceLevel := loadSourceLevel a; umdHookMount := umdHookMount a;
     umdHookUnmount := umdHookUnmount a; libraryName := libraryName a;
     umdMode := umdMode a; isPrefetch := isPrefetch a; name := name a;
     url := url a; ssrUrl := ssrUrl a; container := container a;
     inline := inline a; scopecss := scopecss a;
     useSandbox := useSandbox a; macro := macro a;
     baseroute := baseroute a; source := v; sandBox := sandBox a |}.

Definition set_html (v : Js.Ref) (a : App) : App :=
  set_source {| links := links (source a); scripts := scripts (source a); html := v |} a.

(** *** What a method can do to the outside *)

(** The methods of the class, for the call trace. *)
Inductive Method : Type :=
| m_loadSourceCode
| m_onLoad
| m_onLoadError
| m_mount
| m_handleMounted
| m_dispatchMountedEvent
| m_unmount
| m_handleUnmounted
| m_actionsForUnmount
| m_actionsForCompletelyDestory
| m_hiddenKeepAliveApp
| m_showKeepAliveApp
| m_onerror
| m_getUmdLibraryHooks.

(** The arrow functions handed to [.then] and [.catch]. *)
Inductive ThenCont : Type :=
| ThenDispatchMountedEvent
| ThenActionsForUnmount (destroy : bool).

Inductive CatchCont : Type :=
| CatchOnerror
| CatchActionsForUnmount (destroy : bool).

Inductive Effect : Type :=
| Call (m : Method)
| ExtractHtml (appName : string)
| NewSandBox (appName appUrl : string) (macro : bool)
| DispatchLifecyclesEvent (element : Js.Ref) (appName : string)
    (lifecycleName : lifeCycles.t) (error : option Js.Error)
| DispatchCustomEventToMicroApp (eventName appName : string)
    (appState : option string)
| CloneContainer (origin target : Js.Ref) (deep : bool)
| SandBoxStart (baseroute : string)
| SandBoxStop
| RecordUmdSnapshot
| RebuildUmdSnapshot
| ExecScripts (scriptList : list string)
| CallFunc (f : Js.Func)
| LogError (msg appName : string) (e : Js.Error)
| ThenCatch (p : Js.PromiseId) (onFulfilled : ThenCont) (onRejected : CatchCont)
| DeleteWindowProp (key : option string)
| ClearInnerHTML (e : Js.Elem)
| CreateElementDiv (e : Js.Elem).

Global Instance Method_eq_dec : EqDecision Method.
Proof. solve_decision. Defined.
Global Instance ThenCont_eq_dec : EqDecision ThenCont.
Proof. solve_decision. Defined.
Global Instance CatchCont_eq_dec : EqDecision CatchCont.
Proof. solve_decision. Defined.
Global Instance Effect_eq_dec : EqDecision Effect.
Proof. solve_decision. Defined.

(** What a method body sees: its receiver and the module-level
    [appInstanceMap], whose values are references to instances. *)
Record Sys : Type := {
  this : App;
  appInstanceMap : Js.Map nat;
}.

Definition M : Type -> Type := Js.M Sys Effect.

Definition self : M App := fun s => (Js.Normal (this s), s, []).

Definition assign (f : App -> App) : M unit :=
  Js.modify (fun s => {| this := f (this s); appInstanceMap := appInstanceMap s |}).

Definition emit (e : Effect) : M unit := Js.emit e.

(** *** What the outside does when asked *)

(** One invocation of the completion callback that [mount] hands to
    [execScripts]: the flag it is called with and what the page looks like
    at that moment. *)
Record CbInput : Type := {
  isFinished : bool;
  (** [getRootContainer(c).getAttribute('library')], for an element [c] *)
  libraryAttr : Js.Elem -> option string;
  (** [sandBox.proxyWindow], possibly nullish *)
  proxyWindow : option Js.Window;
  (** [globalEnv.rawWindow] *)
  rawWindow : Js.Window;
}.

Record Env : Type := {
  (** what a UMD hook does when called *)
  callFunc : Js.Func -> Js.CallResult;
  (** [element.childElementCount] *)
  childElementCount : Js.Elem -> nat;
  (** the element [document.createElement('div')] returns *)
  createElementDiv : Js.Elem;
  (** the callback invocations [execScripts] makes before it returns *)
  execScriptsSync : list CbInput;
}.

(** The variables [mount] shares with its completion callback. *)
Record MountClosure : Type := {
  hasDispatchMountedEvent : bool;
  umdHookMountResult : Js.Val;
}.

(** The two messages end in a line feed. *)
Definition mount_msg : string :=
  Eval cbv in
    String.append "an error occurred in the mount function "
      (String (Ascii.ascii_of_nat 10) EmptyString).
Definition unmount_msg : string :=
  Eval cbv in
    String.append "an error occurred in the unmount function "
      (String (Ascii.ascii_of_nat 10) EmptyString).

Section methods.
Context (env : Env).

(** [onerror (e)] *)
Definition onerror (e : Js.Error) : M unit :=
  emit (Call m_onerror);;
  a ← self;
  emit (DispatchLifecyclesEvent (container a) (name a) lifeCycles.ERROR (Some e)).

(** [getAppState ()] *)
Definition getAppState (a : App) : appStates.t := state a.

(** [getKeepAliveState ()] *)
Definition getKeepAliveState (a : App) : option keepAliveStates.t :=
  keepAliveState a.

(** [loadSourceCode ()] *)
Definition loadSourceCode : M unit :=
  emit (Call m_loadSourceCode);;
  assign (set_state appStates.LOADING_SOURCE_CODE);;
  a ← self;
  emit (ExtractHtml (name a)).

(** [dispatchMountedEvent ()] *)
Definition dispatchMountedEvent : M unit :=
  emit (Call m_dispatchMountedEvent);;
  a ← self;
  if bool_decide (appStates.UNMOUNT ≠ state a) then
    assign (set_state appStates.MOUNTED);;
    emit (DispatchLifecyclesEvent (container a) (name a) lifeCycles.MOUNTED None)
  else mret tt.

(** [handleMounted (umdHookMountResult)] *)
Definition handleMounted (umdHookMountResult : Js.Val) : M unit :=
  emit (Call m_handleMounted);;
  match umdHookMountResult with
  | Js.VPromise p => emit (ThenCatch p ThenDispatchMountedEvent CatchOnerror)
  | _ => dispatchMountedEvent
  end.

(** [getUmdLibraryHooks ()].  Reading the [library] attribute of the
    root of a container that is [null] raises, before [libraryName] is
    assigned; an export that is [null] is returned as it is. *)
Definition getUmdLibraryHooks (cb : CbInput) : M Js.GlobalVal :=
  emit (Call m_getUmdLibraryHooks);;
  a ← self;
  if bool_decide (appStates.UNMOUNT ≠ state a) then
    let global :=
      match sandBox a with
      | Some _ => default (rawWindow cb) (proxyWindow cb)
      | None => rawWindow cb
      end in
    match container a with
    | Js.Node e =>
        let lib := Js.or_default (libraryAttr cb e) ("micro-app-" +:+ name a) in
        assign (set_libraryName (Some lib));;
        match global lib with
        | Js.GNotObject => mret Js.empty_object
        | export => mret export
        end
    | _ => Js.throw Js.TypeError
    end
  else mret Js.empty_object.

(** The first statement of the arrow function
    [(isFinished: boolean) => { .. }] of [mount]: the probe for the UMD
    hooks.  Destructuring [{ mount, unmount }] from [null] raises.  The
    two variables the arrow function captures are passed in and out; they
    are only assigned after the points at which the probe can raise. *)
Definition detectUmd (cb : CbInput) (c : MountClosure) : M MountClosure :=
  a ← self;
  if negb (umdMode a) then
    hooks ← getUmdLibraryHooks cb;
    match hooks with
    | Js.GNull => Js.throw Js.TypeError
    | Js.GObject (Js.VFunc mount) (Js.VFunc unmount) =>
        assign (set_umdHookMount (Some mount));;
        assign (set_umdHookUnmount (Some unmount));;
        assign (set_umdMode true);;
        Js.when (bool_decide (is_Some (sandBox a))) (emit RecordUmdSnapshot);;
        emit (CallFunc mount);;
        match callFunc env mount with
        | Js.Returns v =>
            mret {| hasDispatchMountedEvent := hasDispatchMountedEvent c;
                    umdHookMountResult := v |}
        | Js.Throws e =>
            emit (LogError mount_msg (name a) e);; mret c
        end
    | _ => mret c
    end
  else mret c.

(** The arrow function as a whole: the probe, then the one-shot
    [handleMounted]. *)
Definition execScriptsCallback (cb : CbInput) (c : MountClosure)
  : M MountClosure :=
  c1 ← detectUmd cb c;
  a1 ← self;
  if negb (hasDispatchMountedEvent c1) && (isFinished cb || umdMode a1) then
    handleMounted (umdHookMountResult c1);;
    mret {| hasDispatchMountedEvent := true;
            umdHookMountResult := umdHookMountResult c1 |}
  else mret c1.

(** Modelled from the spec: [src/source/scripts.ts] is absent;
    [execScripts] runs the scripts and invokes the completion callback
    after each batch, the last time with [isFinished] telling whether all
    of them ran.  Here it is the list of those invocations; what an
    invocation raises ends the run and reaches the caller. *)
Fixpoint execScripts (runs : list CbInput) (c : MountClosure)
  : M MountClosure :=
  match runs with
  | [] => mret c
  | cb :: runs' => c' ← execScriptsCallback cb c; execScripts runs' c'
  end.

(** [mount (container?, inline?, baseroute?)]; the result is the
    closure of the completion callback when [execScripts] was started,
    for the invocations that arrive after [mount] has returned. *)
Definition mount (container' : option Js.Elem) (inline' : option bool)
    (baseroute' : option string) : M (option MountClosure) :=
  emit (Call m_mount);;
  a0 ← self;
  match inline' with
  | Some b => Js.when (bool_decide (b ≠ inline a0)) (assign (set_inline b))
  | None => mret tt
  end;;
  assign (set_container
            (Js.coalesce (container a0) (from_option Js.Node Js.Undefined container')));;
  assign (set_baseroute (default (baseroute a0) baseroute'));;
  a ← self;
  if bool_decide (loadSourceLevel a ≠ 2) then
    assign (set_state appStates.LOADING_SOURCE_CODE);;
    mret None
  else
    emit (DispatchLifecyclesEvent (container a) (name a) lifeCycles.BEFOREMOUNT None);;
    assign (set_state appStates.MOUNTING);;
    emit (CloneContainer (html (source a)) (container a) (negb (umdMode a)));;
    Js.when (bool_decide (is_Some (sandBox a))) (emit (SandBoxStart (baseroute a)));;
    if negb (umdMode a) then
      emit (ExecScripts (scripts (source a)));;
      c ← execScripts (execScriptsSync env)
             {| hasDispatchMountedEvent := false;
                umdHookMountResult := Js.VUndefined |};
      mret (Some c)
    else
      Js.when (bool_decide (is_Some (sandBox a))) (emit RebuildUmdSnapshot);;
      r ← match umdHookMount a with
          | Some f =>
              emit (CallFunc f);;
              match callFunc env f with
              | Js.Returns v => mret v
              | Js.Throws e =>
                  emit (LogError mount_msg (name a) e);; mret Js.VUndefined
              end
          | None =>
              emit (LogError mount_msg (name a) Js.TypeError);;
              mret Js.VUndefined
          end;
      handleMounted r;;
      mret None.

(** [onLoad (html)] *)
Definition onLoad (html' : Js.Elem) : M (option MountClosure) :=
  emit (Call m_onLoad);;
  assign (fun a => set_loadSourceLevel (loadSourceLevel a + 1) a);;
  a ← self;
  if bool_decide (loadSourceLevel a = 2) then
    assign (set_html (Js.Node html'));;
    if isPrefetch a || bool_decide (appStates.UNMOUNT = state a) then mret None
    else
      assign (set_state appStates.LOAD_SOURCE_FINISHED);;
      mount None None None
  else mret None.

(** [onLoadError (e)] *)
Definition onLoadError (e : Js.Error) : M unit :=
  emit (Call m_onLoadError);;
  assign (set_loadSourceLevel (-1));;
  a ← self;
  if bool_decide (appStates.UNMOUNT ≠ state a) then
    onerror e;;
    assign (set_state appStates.LOAD_SOURCE_ERROR)
  else mret tt.

(** [actionsForCompletelyDestory ()] *)
Definition actionsForCompletelyDestory : M unit :=
  emit (Call m_actionsForCompletelyDestory);;
  a ← self;
  Js.when (negb (useSandbox a) && umdMode a)
    (emit (DeleteWindowProp (libraryName a)));;
  Js.modify (fun s =>
    {| this := this s;
       appInstanceMap := Js.map_delete (name a) (appInstanceMap s) |}).

(** [actionsForUnmount (destroy)]; reading [childElementCount] or
    writing [innerHTML] on a container that is [null] raises. *)
Definition actionsForUnmount (destroy : bool) : M unit :=
  emit (Call m_actionsForUnmount);;
  a ← self;
  emit (DispatchLifecyclesEvent (container a) (name a) lifeCycles.UNMOUNT None);;
  Js.when (bool_decide (is_Some (sandBox a))) (emit SandBoxStop);;
  (if destroy then actionsForCompletelyDestory
   else if umdMode a then
     match container a with
     | Js.Node e =>
         Js.when (bool_decide (childElementCount env e ≠ 0%nat))
           (emit (CloneContainer (container a) (html (source a)) false))
     | _ => Js.throw Js.TypeError
     end
   else mret tt);;
  a1 ← self;
  match container a1 with
  | Js.Node e => emit (ClearInnerHTML e)
  | _ => Js.throw Js.TypeError
  end;;
  assign (set_container Js.Null).

(** [handleUnmounted (destroy, umdHookUnmountResult)] *)
Definition handleUnmounted (destroy : bool) (umdHookUnmountResult : Js.Val)
  : M unit :=
  emit (Call m_handleUnmounted);;
  match umdHookUnmountResult with
  | Js.VPromise p =>
      emit (ThenCatch p (ThenActionsForUnmount destroy) (CatchActionsForUnmount destroy))
  | _ => actionsForUnmount destroy
  end.

(** [unmount (destroy)] *)
Definition unmount (destroy : bool) : M unit :=
  emit (Call m_unmount);;
  a ← self;
  let destroy :=
    if bool_decide (state a = appStates.LOAD_SOURCE_ERROR) then true
    else destroy in
  assign (set_state appStates.UNMOUNT);;
  assign (set_keepAliveState None);;
  r ← match umdHookUnmount a with
      | Some f =>
          emit (CallFunc f);;
          match callFunc env f with
          | Js.Returns v => mret v
          | Js.Throws e =>
              emit (LogError unmount_msg (name a) e);; mret Js.VUndefined
          end
      | None => mret Js.VUndefined
      end;
  emit (DispatchCustomEventToMicroApp "unmount" (name a) None);;
  handleUnmounted destroy r.

(** [hiddenKeepAliveApp ()] *)
Definition hiddenKeepAliveApp : M unit :=
  emit (Call m_hiddenKeepAliveApp);;
  assign (set_keepAliveState (Some keepAliveStates.KEEP_ALIVE_HIDDEN));;
  a ← self;
  emit (DispatchLifecyclesEvent (container a) (name a) lifeCycles.AFTERHIDDEN None);;
  emit (DispatchCustomEventToMicroApp "appstate-change" (name a) (Some "afterhidden"));;
  Js.when (negb (Js.truthy (keepAliveContainer a)))
    (emit (CreateElementDiv (createElementDiv env));;
     assign (set_keepAliveContainer (Js.Node (createElementDiv env))));;
  a1 ← self;
  emit (CloneContainer (container a1) (keepAliveContainer a1) false);;
  assign (set_container (keepAliveContainer a1)).

(** [showKeepAliveApp (container)] *)
Definition showKeepAliveApp (container' : Js.Elem) : M unit :=
  emit (Call m_showKeepAliveApp);;
  assign (set_keepAliveState (Some keepAliveStates.KEEP_ALIVE_SHOW));;
  a ← self;
  emit (CloneContainer (keepAliveContainer a) (Js.Node container') false);;
  assign (set_container (Js.Node container'));;
  emit (DispatchLifecyclesEvent (Js.Node container') (name a) lifeCycles.AFTERSHOW None);;
  emit (DispatchCustomEventToMicroApp "appstate-change" (name a) (Some "aftershow")).

(** Running the arrow functions handed to [.then] and to [.catch]. *)
Definition runThen (k : ThenCont) : M unit :=
  match k with
  | ThenDispatchMountedEvent => dispatchMountedEvent
  | ThenActionsForUnmount destroy => actionsForUnmount destroy
  end.

Definition runCatch (k : CatchCont) (reason : Js.Error) : M unit :=
  match k with
  | CatchOnerror => onerror reason
  | CatchActionsForUnmount destroy => actionsForUnmount destroy
  end.

(** How [p.then(f).catch(g)] continues once [p] settles: [g] runs when
    [p] rejects and also when [f] raises; what [g] raises is lost. *)
Inductive Settled : Type :=
| Fulfilled
| Rejected (reason : Js.Error).

Definition try_catch (m : M unit) (handler : Js.Error -> M unit) : M unit :=
  fun s =>
    match m s with
    | (Js.Normal _, s1, t1) => (Js.Normal tt, s1, t1)
    | (Js.Abrupt e, s1, t1) =>
        let '(r, s2, t2) := handler e s1 in (r, s2, t1 ++ t2)
    end.

Definition settle (o : Settled) (onFulfilled : ThenCont)
    (onRejected : CatchCont) : M unit :=
  match o with
  | Fulfilled => try_catch (runThen onFulfilled) (runCatch onRejected)
  | Rejected reason => runCatch onRejected reason
  end.

End methods.

(** [CreateAppParam] *)
Record CreateAppParam : Type := {
  p_name : string;
  p_url : string;
  p_ssrUrl : option string;
  p_scopecss : bool;
  p_useSandbox : bool;
  p_macro : option bool;
  p_inline : option bool;
  p_baseroute : option string;
  p_container : option Js.Elem;
}.

(** The object as the field initialisers and the assignments of the
    constructor leave it, before [loadSourceCode] is called. *)
Definition fresh (p : CreateAppParam) : App :=
  {| state := appStates.NOT_LOADED;
     keepAliveState := None;
     keepAliveContainer := Js.Null;
     loadSourceLevel := 0;
     umdHookMount := None;
     umdHookUnmount := None;
     libraryName := None;
     umdMode := false;
     isPrefetch := false;
     name := p_name p;
     url := p_url p;
     ssrUrl := default "" (p_ssrUrl p);
     container := from_option Js.Node Js.Null (p_container p);
     inline := default false (p_inline p);
     scopecss := p_useSandbox p && p_scopecss p;
     useSandbox := p_useSandbox p;
     macro := default false (p_macro p);
     baseroute := default "" (p_baseroute p);
     source := {| links := []; scripts := []; html := Js.Undefined |};
     sandBox := None |}.

Definition set_sandBox (v : option SandBox) (a : App) : App :=
  {| state := state a; keepAliveState := keepAliveState a;
     keepAliveContainer := keepAliveContainer a;
     loadSourceLevel := loadSourceLevel a; umdHookMount := umdHookMount a;
     umdHookUnmount := umdHookUnmount a; libraryName := libraryName a;
     umdMode := umdMode a; isPrefetch := isPrefetch a; name := name a;
     url := url a; ssrUrl := ssrUrl a; container := container a;
     inline := inline a; scopecss := scopecss a;
     useSandbox := useSandbox a; macro := macro a;
     baseroute := baseroute a; source := source a; sandBox := v |}.

(** [constructor (param)] *)
Definition constructor (p : CreateAppParam) : M unit :=
  assign (fun _ => fresh p);;
  loadSourceCode;;
  a ← self;
  Js.when (useSandbox a)
    (emit (NewSandBox (p_name p) (p_url p) (macro a));;
     assign (set_sandBox
               (Some {| sb_name := p_name p; sb_url := p_url p; sb_macro := macro a |}))).

(** [new CreateApp(param)]: the new object and what building it did. *)
Definition new_CreateApp (p : CreateAppParam) : App * list Effect :=
  let o := constructor p {| this := fresh p; appInstanceMap := [] |} in
  (this (Js.final o), Js.trace o).

(** *** The registry and the instances it refers to *)

Record World : Type := {
  objects : gmap nat App;
  instances : Js.Map nat;
}.

(** Calling a method on the instance stored at [r]. *)
Definition invoke {A} (r : nat) (m : M A) (w : World)
  : option (Js.completion A * World * list Effect) :=
  a ← objects w !! r;
  let o := m {| this := a; appInstanceMap := instances w |} in
  Some (Js.result o,
        {| objects := <[r := this (Js.final o)]> (objects w);
           instances := appInstanceMap (Js.final o) |},
        Js.trace o).

(** [getActiveApps ()]: [forEach] over the entries, pushing the key. *)
Definition getActiveApps (w : World) : list string :=
  foldl (fun activeApps entry =>
           match objects w !! entry.2 with
           | Some app =>
               if bool_decide (appStates.UNMOUNT ≠ getAppState app)
                  && negb (isPrefetch app)
               then activeApps ++ [entry.1]
               else activeApps
           | None => activeApps
           end)
        [] (instances w).

(** [getAllApps ()] *)
Definition getAllApps (w : World) : list string := Js.map_keys (instances w).

(** *** Reading a run *)

Definition calls (m : Method) (t : list Effect) : nat :=
  length (filter (λ e, e = Call m) t).

Definition is_dispatch (l : lifeCycles.t) (e : Effect) : bool :=
  match e with
  | DispatchLifecyclesEvent _ _ l' _ => bool_decide (l' = l)
  | _ => false
  end.

Definition dispatches (l : lifeCycles.t) (t : list Effect) : nat :=
  length (filter (λ e, is_dispatch l e = true) t).

Definition is_execScripts (e : Effect) : bool :=
  match e with
  | ExecScripts _ => true
  | _ => false
  end.

Definition with_this (a : App) (s : Sys) : Sys :=
  {| this := a; appInstanceMap := appInstanceMap s |}.

(** *** Vocabulary for the statements *)

(** What the completion callback of [mount] can do to the outside. *)
Definition callback_effect (e : Effect) : Prop :=
  match e with
  | Call m_getUmdLibraryHooks | Call m_handleMounted | Call m_dispatchMountedEvent
  | RecordUmdSnapshot | CallFunc _ | LogError _ _ _
  | ThenCatch _ ThenDispatchMountedEvent CatchOnerror
  | DispatchLifecyclesEvent _ _ lifeCycles.MOUNTED None => True
  | _ => False
  end.

(** What the completion callback leaves as it found it. *)
Record callback_frame (s s' : Sys) : Prop := {
  frame_container : container (this s') = container (this s);
  frame_inline : inline (this s') = inline (this s);
  frame_baseroute : baseroute (this s') = baseroute (this s);
  frame_level : loadSourceLevel (this s') = loadSourceLevel (this s);
  frame_name : name (this s') = name (this s);
  frame_source : source (this s') = source (this s);
  frame_sandBox : sandBox (this s') = sandBox (this s);
  frame_map : appInstanceMap s' = appInstanceMap s;
  frame_unmount :
    state (this s) = appStates.UNMOUNT -> state (this s') = appStates.UNMOUNT;
}.

(** The instance once [mount] has adopted its arguments: the first three
    statements of [mount]. *)
Definition adopt (container' : option Js.Elem) (inline' : option bool)
    (baseroute' : option string) (a : App) : App :=
  set_baseroute (default (baseroute a) baseroute')
    (set_container
       (Js.coalesce (container a) (from_option Js.Node Js.Undefined container'))
       (match inline' with
        | Some b => if bool_decide (b ≠ inline a) then set_inline b a else a
        | None => a
        end)).

(** The instance when [mount], past the load gate, reaches its two
    branches. *)
Definition mounting (c : option Js.Elem) (i : option bool) (b : option string)
    (a : App) : App :=
  set_state appStates.MOUNTING (adopt c i b a).

(** What both branches of [mount] do first, past the load gate. *)
Definition mount_prelude (a : App) : list Effect :=
  [Call m_mount;
   DispatchLifecyclesEvent (container a) (name a) lifeCycles.BEFOREMOUNT None;
   CloneContainer (html (source a)) (container a) (negb (umdMode a))]
  ++ (if bool_decide (is_Some (sandBox a)) then [SandBoxStart (baseroute a)] else []).

(** [try { r = f() } catch (e) { logError(msg, name, e) }] *)
Definition try_call (env : Env) (msg appName : string) (f : Js.Func)
  : Js.Val * list Effect :=
  match callFunc env f with
  | Js.Returns v => (v, [CallFunc f])
  | Js.Throws e => (Js.VUndefined, [CallFunc f; LogError msg appName e])
  end.

(** The export the probe of the callback looks at, when the instance holds
    a container to read the library name from. *)
Definition umd_export (cb : CbInput) (a : App) : option Js.GlobalVal :=
  let global :=
    match sandBox a with
    | Some _ => default (rawWindow cb) (proxyWindow cb)
    | None => rawWindow cb
    end in
  match container a with
  | Js.Node e =>
      Some (global (Js.or_default (libraryAttr cb e) ("micro-app-" +:+ name a)))
  | _ => None
  end.

(** The callback probes: the instance is neither in UMD mode nor
    unmounted. *)
Definition probes (a : App) : bool :=
  negb (umdMode a) && bool_decide (appStates.UNMOUNT ≠ state a).

(** The probe finds both hooks: UMD mode is detected by this callback. *)
Definition detects (cb : CbInput) (a : App) : bool :=
  probes a
  && match umd_export cb a with
     | Some (Js.GObject (Js.VFunc _) (Js.VFunc _)) => true
     | _ => false
     end.

(** The probe raises: there is no container to read the library name
    from, or the export is [null]. *)
Definition probe_raises (cb : CbInput) (a : App) : bool :=
  probes a
  && match umd_export cb a with
     | None | Some Js.GNull => true
     | _ => false
     end.

(** The instance when [unmount] calls its hook: the state and the
    keep-alive state are already set. *)
Definition unmounting (a : App) : App :=
  set_keepAliveState None (set_state appStates.UNMOUNT a).

(** The [destroy] flag after the first statement of [unmount]. *)
Definition forced (destroy : bool) (a : App) : bool :=
  if bool_decide (state a = appStates.LOAD_SOURCE_ERROR) then true else destroy.

(** The instance once [onLoad] has counted a channel and stored the
    fragment. *)
Definition loaded (html' : Js.Elem) (a : App) : App :=
  set_html (Js.Node html') (set_loadSourceLevel (loadSourceLevel a + 1) a).

(** UMD mode is only ever entered together with the two hooks. *)
Definition hooks_cached (a : App) : Prop :=
  umdMode a = true -> is_Some (umdHookMount a) ∧ is_Some (umdHookUnmount a).

(** Everything that can happen to an instance: a call of one of its
    public methods, an invocation of the completion callback of one of
    its mounts, or the settling of a promise one of its hooks returned. *)
Inductive Event : Type :=
| EvOnLoad (env : Env) (html' : Js.Elem)
| EvOnLoadError (e : Js.Error)
| EvMount (env : Env) (container' : option Js.Elem) (inline' : option bool)
    (baseroute' : option string)
| EvUnmount (env : Env) (destroy : bool)
| EvHidden (env : Env)
| EvShow (container' : Js.Elem)
| EvCallback (env : Env) (cb : CbInput) (c : MountClosure)
| EvSettled (env : Env) (out : Settled) (onFulfilled : ThenCont)
    (onRejected : CatchCont).

(** The instance after an event, and what the event did. *)
Definition occur (s : Sys) (ev : Event) : Sys * list Effect :=
  match ev with
  | EvOnLoad env h => let o := onLoad env h s in (Js.final o, Js.trace o)
  | EvOnLoadError e => let o := onLoadError e s in (Js.final o, Js.trace o)
  | EvMount env c i b => let o := mount env c i b s in (Js.final o, Js.trace o)
  | EvUnmount env d => let o := unmount env d s in (Js.final o, Js.trace o)
  | EvHidden env => let o := hiddenKeepAliveApp env s in (Js.final o, Js.trace o)
  | EvShow c => let o := showKeepAliveApp c s in (Js.final o, Js.trace o)
  | EvCallback env cb c =>
      let o := execScriptsCallback env cb c s in (Js.final o, Js.trace o)
  | EvSettled env out kf kr =>
      let o := settle env out kf kr s in (Js.final o, Js.trace o)
  end.

(** The instance after a history of events, and all they did. *)
Fixpoint play (s : Sys) (history : list Event) : Sys * list Effect :=
  match history with
  | [] => (s, [])
  | ev :: history' =>
      let '(s1, t1) := occur s ev in
      let '(s2, t2) := play s1 history' in
      (s2, t1 ++ t2)
  end.

(** The events that are completions of something started earlier: a
    resource channel, a script batch, a promise. *)
Definition late_completion (ev : Event) : Prop :=
  match ev with
  | EvOnLoad _ _ | EvOnLoadError _ | EvCallback _ _ _ | EvSettled _ _ _ _ => True
  | EvMount _ _ _ _ | EvUnmount _ _ | EvHidden _ | EvShow _ => False
  end.


(** *** A concrete scenario: the app of the spec's examples *)

Definition app1_param : CreateAppParam :=
  {| p_name := "app1"; p_url := "http://a.test/index.html"; p_ssrUrl := None;
     p_scopecss := true; p_useSandbox := true; p_macro := None;
     p_inline := None; p_baseroute := None; p_container := Some 7%nat |}.

Definition no_exports : Js.Window := fun _ => Js.GNotObject.

(** A window on which the library of app1 exports both hooks. *)
Definition umd_exports : Js.Window :=
  fun key =>
    if bool_decide (key = "micro-app-app1")
    then Js.GObject (Js.VFunc 1%nat) (Js.VFunc 2%nat)
    else Js.GNotObject.

Definition batch (finished : bool) (w : Js.Window) : CbInput :=
  {| isFinished := finished; libraryAttr := fun _ => None;
     proxyWindow := Some w; rawWindow := no_exports |}.

(** Hooks return nothing of interest; one script batch, the last. *)
Definition plain_env : Env :=
  {| callFunc := fun _ => Js.Returns Js.VUndefined;
     childElementCount := fun _ => 0%nat;
     createElementDiv := 99%nat;
     execScriptsSync := [batch true no_exports] |}.

(** The unmount hook (function 2) raises, the mount hook returns. *)
Definition throwing_env : Env :=
  {| callFunc := fun f => if bool_decide (f = 2%nat)
                          then Js.Throws (Js.Raised 0) else Js.Returns Js.VUndefined;
     childElementCount := fun _ => 1%nat;
     createElementDiv := 99%nat;
     execScriptsSync := [batch false umd_exports; batch true umd_exports] |}.

(** The unmount hook (function 2) returns a promise. *)
Definition deferring_env : Env :=
  {| callFunc := fun f => if bool_decide (f = 2%nat)
                          then Js.Returns (Js.VPromise 3%nat) else Js.Returns Js.VUndefined;
     childElementCount := fun _ => 1%nat;
     createElementDiv := 99%nat;
     execScriptsSync := [batch false umd_exports; batch true umd_exports] |}.



Definition app1 : Sys :=
  {| this := (new_CreateApp app1_param).1; appInstanceMap := [("app1", 0%nat)] |}.

Definition prefetched (s : Sys) : Sys := with_this (set_isPrefetch true (this s)) s.

(** app1 after both channels have completed, in a given environment. *)
Definition app1_mounted (env : Env) : Sys :=
  Js.final (onLoad env 6%nat (Js.final (onLoad env 5%nat app1))).

(** app1 after its load has failed. *)
Definition app1_failed : Sys := Js.final (onLoadError (Js.Raised 1) app1).

(** app1 with one channel completed. *)
Definition app1_half_loaded : Sys := Js.final (onLoad plain_env 5%nat app1).

(** app1 with both channels completed, before anything is mounted. *)
Definition app1_loaded : Sys :=
  with_this (loaded 6%nat (this app1_half_loaded)) app1_half_loaded.

(** app1, found to be a UMD library by its first mount, after a third
    channel has reported and it has been unmounted without [destroy]. *)
Definition app1_overcounted : Sys :=
  Js.final (unmount plain_env false
              (Js.final (onLoad plain_env 9%nat (app1_mounted throwing_env)))).

(** An app like app1, built without sandbox. *)
Definition app3_param : CreateAppParam :=
  {| p_name := "app3"; p_url := "http://c.test/"; p_ssrUrl := None;
     p_scopecss := false; p_useSandbox := false; p_macro := None;
     p_inline := None; p_baseroute := None; p_container := Some 7%nat |}.

(** One script batch, the last, on a page whose window has both hooks
    under the library name of app3. *)
Definition raw_umd_env : Env :=
  {| callFunc := fun _ => Js.Returns Js.VUndefined;
     childElementCount := fun _ => 0%nat;
     createElementDiv := 99%nat;
     execScriptsSync :=
       [{| isFinished := true; libraryAttr := fun _ => None; proxyWindow := None;
           rawWindow := fun key =>
             if bool_decide (key = "micro-app-app3")
             then Js.GObject (Js.VFunc 1%nat) (Js.VFunc 2%nat)
             else Js.GNotObject |}] |}.

(** app3, found to be a UMD library by its first mount, unmounted without
    [destroy]. *)
Definition app3_unmounted : Sys :=
  let app3 := {| this := (new_CreateApp app3_param).1;
                 appInstanceMap := [("app3", 2%nat)] |} in
  Js.final (unmount plain_env false
              (Js.final (onLoad raw_umd_env 6%nat
                           (Js.final (onLoad raw_umd_env 5%nat app3))))).

Definition fresh_closure : MountClosure :=
  {| hasDispatchMountedEvent := false; umdHookMountResult := Js.VUndefined |}.

(** An entry of the registry counts as active. *)
Definition is_active (w : World) (entry : string * nat) : bool :=
  match objects w !! entry.2 with
  | Some app => bool_decide (state app ≠ appStates.UNMOUNT) && negb (isPrefetch app)
  | None => false
  end.

(** A page with two instances: app1, prefetched, and a second app that
    has been unmounted but kept. *)
Definition app2 : App :=
  set_state appStates.UNMOUNT
    (new_CreateApp
       {| p_name := "app2"; p_url := "http://b.test/"; p_ssrUrl := None;
          p_scopecss := false; p_useSandbox := false; p_macro := None;
          p_inline := None; p_baseroute := None; p_container := None |}).1.

Definition page : World :=
  {| objects := {[ 0%nat := this (prefetched app1); 1%nat := app2 ]};
     instances := [("app1", 0%nat); ("app2", 1%nat)] |}.

(** *** Vocabulary for the invariants of an instance *)

(** The fields that only the constructor assigns. *)
Record same_identity (a a' : App) : Prop := {
  id_name : name a' = name a;
  id_url : url a' = url a;
  id_ssrUrl : ssrUrl a' = ssrUrl a;
  id_scopecss : scopecss a' = scopecss a;
  id_useSandbox : useSandbox a' = useSandbox a;
  id_macro : macro a' = macro a;
  id_isPrefetch : isPrefetch a' = isPrefetch a;
  id_sandBox : sandBox a' = sandBox a;
}.

(** What UMD mode consists of: the flag, the two cached hooks and the name
    of the library export they were found under. *)
Record umd_kept (a a' : App) : Prop := {
  kept_umdMode : umdMode a' = umdMode a;
  kept_umdHookMount : umdHookMount a' = umdHookMount a;
  kept_umdHookUnmount : umdHookUnmount a' = umdHookUnmount a;
  kept_libraryName : libraryName a' = libraryName a;
}.

(** UMD mode is only ever entered after the library name is recorded. *)
Definition library_named (a : App) : Prop :=
  umdMode a = true -> is_Some (libraryName a).

Definition is_createElementDiv (e : Effect) : bool :=
  match e with
  | CreateElementDiv _ => true
  | _ => false
  end.

(** How many times [document.createElement('div')] was called. *)
Definition creations (t : list Effect) : nat :=
  length (filter (λ e, is_createElementDiv e = true) t).

(** [delete window[key]] as [actionsForCompletelyDestory] does it: on an
    instance without sandbox, in UMD mode, under its library name. *)
Definition delete_ok (a : App) (e : Effect) : Prop :=
  match e with
  | DeleteWindowProp key =>
      useSandbox a = false ∧ umdMode a = true ∧ key = libraryName a
  | _ => True
  end.

(** Effects that run the scripts of the app or look for its hooks. *)
Definition no_script_run (e : Effect) : Prop :=
  match e with
  | ExecScripts _ | Call m_getUmdLibraryHooks | RecordUmdSnapshot => False
  | _ => True
  end.

(** What holds between the instance before and after any piece of the
    code of the class, with what that piece did. *)
Record evolves (s s' : Sys) (t : list Effect) : Prop := {
  ev_identity : same_identity (this s) (this s');
  ev_registry :
    appInstanceMap s' = appInstanceMap s
    ∨ appInstanceMap s' = Js.map_delete (name (this s)) (appInstanceMap s);
  ev_keepAlive :
    (keepAliveContainer (this s') = keepAliveContainer (this s)
     ∧ creations t = 0%nat)
    ∨ (Js.truthy (keepAliveContainer (this s)) = false
       ∧ Js.truthy (keepAliveContainer (this s')) = true
       ∧ creations t = 1%nat);
  ev_umd : umdMode (this s) = true -> umd_kept (this s) (this s');
  ev_library : library_named (this s) -> library_named (this s');
  ev_delete : Forall (delete_ok (this s')) t;
  ev_scripts : umdMode (this s) = true -> Forall no_script_run t;
}.

(** Effects that none of the invariants is about. *)
Definition plain_effect (e : Effect) : Prop :=
  match e with
  | DeleteWindowProp _ | CreateElementDiv _ | ExecScripts _
  | Call m_getUmdLibraryHooks | RecordUmdSnapshot => False
  | _ => True
  end.

(** The events that are a resource channel completing successfully. *)
Definition is_onLoad (ev : Event) : Prop :=
  match ev with
  | EvOnLoad _ _ => True
  | _ => False
  end.

(** [mount] is reached by a run of [onLoad] calls: the counter passes
    through 2 on an instance that is neither a prefetch nor unmounted. *)
Definition reaches_mount (a : App) (n : nat) : bool :=
  bool_decide (loadSourceLevel a < 2 <= loadSourceLevel a + Z.of_nat n)
  && negb (isPrefetch a) && bool_decide (state a ≠ appStates.UNMOUNT).

(** app1 after a mount that found it to be a UMD library, unmounted
    without [destroy]. *)
Definition app1_umd_unmounted : Sys :=
  Js.final (unmount plain_env false (app1_mounted throwing_env)).

(** The mount hook (function 1) returns a promise. *)
Definition mount_deferring_env : Env :=
  {| callFunc := fun f => if bool_decide (f = 1%nat)
                          then Js.Returns (Js.VPromise 4%nat) else Js.Returns Js.VUndefined;
     childElementCount := fun _ => 1%nat;
     createElementDiv := 99%nat;
     execScriptsSync := [] |}.

(** The mount hook (function 1) raises. *)
Definition mount_throwing_env : Env :=
  {| callFunc := fun f => if bool_decide (f = 1%nat)
                          then Js.Throws (Js.Raised 2) else Js.Returns Js.VUndefined;
     childElementCount := fun _ => 1%nat;
     createElementDiv := 99%nat;
     execScriptsSync := [] |}.

(** The unmount hook of the instance, called in this environment, returns
    a promise. *)
Definition defers (env : Env) (a : App) : bool :=
  match umdHookUnmount a with
  | Some f =>
      match callFunc env f with
      | Js.Returns (Js.VPromise _) => true
      | _ => false
      end
  | None => false
  end.

Definition is_clearInnerHTML (e : Effect) : bool :=
  match e with
  | ClearInnerHTML _ => true
  | _ => false
  end.

Definition is_cloneContainer (e : Effect) : bool :=
  match e with
  | CloneContainer _ _ _ => true
  | _ => false
  end.

(** What [actionsForUnmount] does before it looks at [destroy]. *)
Definition teardown_prelude (a : App) : list Effect :=
  [Call m_actionsForUnmount;
   DispatchLifecyclesEvent (container a) (name a) lifeCycles.UNMOUNT None]
  ++ (if bool_decide (is_Some (sandBox a)) then [SandBoxStop] else []).

(** What [actionsForCompletelyDestory] does to the outside. *)
Definition destroy_effects (a : App) : list Effect :=
  Call m_actionsForCompletelyDestory
  :: (if negb (useSandbox a) && umdMode a then [DeleteWindowProp (libraryName a)] else []).

End Lifecycle.

(** ** The router glue: [src/sandbox/router/index.ts] *)

Module Router.

(** What [createURL (url)] is destructured into. *)
Record URL : Type := {
  pathname : string;
  search : string;
  hash : string;
}.

(** The result of [setMicroPathToURL]. *)
Record SetMicroPathResult (FullPath SearchHash : Type) : Type := {
  fullPath : FullPath;
  searchHash : SearchHash;
}.
Arguments fullPath {FullPath SearchHash} _.
Arguments searchHash {FullPath SearchHash} _.

(** [if (microPath)]: [null] and the empty string are falsy. *)
Definition truthy (microPath : option string) : option string :=
  match microPath with
  | Some EmptyString | None => None
  | Some p => Some p
  end.

Section glue.
(** The shared browser (its location and its history), the value of
    [history.state], the virtual location object of one app, and the
    two values [setMicroPathToURL] hands back. *)
Context {Browser HistoryState MicroState MicroLocation MicroHistory
         FullPath SearchHash : Type}.

(** The functions imported from [./core], [./location], [./history] and
    [../../libs/utils], none of which is in the two files.  Their types
    say what the spec says of them: the helpers of [./core] compute
    from the shared browser URL and state without changing them,
    [updateLocation] writes a path into the virtual location of the
    app, [updateBrowserURL] replaces the current history entry. *)
Record Imports : Type := {
  (** [globalEnv.rawWindow.history.state] *)
  history_state : Browser -> HistoryState;
  createURL : string -> URL;
  getMicroPathFromURL : string -> Browser -> option string;
  setMicroPathToURL :
    string -> MicroLocation -> Browser -> SetMicroPathResult FullPath SearchHash;
  removeMicroPathFromURL : string -> Browser -> FullPath;
  removeMicroState : string -> HistoryState -> string -> HistoryState;
  (** the third argument, the state of the app, may be [null] *)
  setMicroState :
    string -> HistoryState -> option MicroState -> string -> SearchHash -> HistoryState;
  updateLocation : string -> string -> string -> MicroLocation -> MicroLocation;
  updateBrowserURL : HistoryState -> FullPath -> Browser -> Browser;
  createMicroLocation : string -> string -> MicroLocation;
  createMicroHistory : string -> string -> MicroLocation -> MicroHistory;
}.

Context (im : Imports).

(** [MicroRouter] *)
Record MicroRouter : Type := {
  microLocation : MicroLocation;
  microHistory : MicroHistory;
}.

(** [createMicroRouter (appName, url)] *)
Definition createMicroRouter (appName url : string) : MicroRouter :=
  let microLocation := createMicroLocation im appName url in
  {| microLocation := microLocation;
     microHistory := createMicroHistory im appName url microLocation |}.

(** [updateBrowserURLWithLocation (appName, url, microLocation)] *)
Definition updateBrowserURLWithLocation (appName url : string)
    (microLocation : MicroLocation) (b : Browser) : Browser :=
  let setMicroPathResult := setMicroPathToURL im appName microLocation b in
  updateBrowserURL im
    (setMicroState im appName (history_state im b) None url
       (searchHash setMicroPathResult))
    (fullPath setMicroPathResult)
    b.

(** [initRouteStateWithURL (appName, url, microLocation)]: the virtual
    location and the browser afterwards. *)
Definition initRouteStateWithURL (appName url : string)
    (microLocation : MicroLocation) (b : Browser) : MicroLocation * Browser :=
  match truthy (getMicroPathFromURL im appName b) with
  | Some microPath => (updateLocation im appName microPath url microLocation, b)
  | None => (microLocation, updateBrowserURLWithLocation appName url microLocation b)
  end.

(** [removeStateAndPathFromBrowser (appName, url)] *)
Definition removeStateAndPathFromBrowser (appName url : string) (b : Browser)
  : Browser :=
  updateBrowserURL im
    (removeMicroState im appName (history_state im b) url)
    (removeMicroPathFromURL im appName b)
    b.

(** [clearRouteStateFromURL (appName, url, microLocation, keepRouteState)] *)
Definition clearRouteStateFromURL (appName url : string)
    (microLocation : MicroLocation) (keepRouteState : bool) (b : Browser)
  : MicroLocation * Browser :=
  let microLocation' :=
    if negb keepRouteState then
      let u := createURL im url in
      updateLocation im appName (pathname u +:+ search u +:+ hash u) url microLocation
    else microLocation in
  (microLocation', removeStateAndPathFromBrowser appName url b).
End glue.

Arguments Imports : clear implicits.
Arguments MicroRouter : clear implicits.

End Router.

(** ** A model of the absent router helpers *)

Module RouterModel.

(** Modelled from the spec: the virtual location of an app, "pathname /
    search / hash as seen by the sub-app"; [./location] is absent. *)
Definition MicroLocation : Type := Router.URL.

(** Modelled from the spec: "history.state is a mapping from app name to
    that app's private state payload, nested inside the existing state
    object so that non-micro-app state set by the host page is preserved
    untouched"; [./core] is absent.  The payload kept here is the state
    the app passed, or the path it was given when it passed none. *)
Record HistoryState : Type := {
  hostState : nat;
  microAppState : Js.Map string;
}.

(** Modelled from the spec: "the browser URL carries, for each active app,
    an encoded segment keyed by that app's name"; the URL is kept in
    parsed form, the host page's own part and the segments. *)
Record FullPath : Type := {
  hostPath : string;
  microPaths : Js.Map string;
}.

(** Modelled from the spec: "a single shared URL and a single shared
    [history.state] object". *)
Record Browser : Type := {
  location : FullPath;
  state : HistoryState;
}.

(** The prefix of [s] before the first character satisfying [stop], and
    the rest from that character on. *)
Fixpoint break (stop : Ascii.ascii -> bool) (s : string) : string * string :=
  match s with
  | EmptyString => (EmptyString, EmptyString)
  | String c s' =>
      if stop c then (EmptyString, s)
      else let '(pre, rest) := break stop s' in (String c pre, rest)
  end.

Definition is_question_or_hash (c : Ascii.ascii) : bool :=
  Ascii.eqb c "?"%char || Ascii.eqb c "#"%char.

Definition is_hash (c : Ascii.ascii) : bool := Ascii.eqb c "#"%char.

Definition is_slash (c : Ascii.ascii) : bool := Ascii.eqb c "/"%char.

(** Modelled from the spec: a path "pathname+search+hash" read back into
    its three parts: the search starts at the first [?] before any [#],
    the hash at the first [#]. *)
Definition parsePath (path : string) : Router.URL :=
  let '(p, rest) := break is_question_or_hash path in
  let '(s, h) := break is_hash rest in
  {| Router.pathname := p; Router.search := s; Router.hash := h |}.

(** What follows the first [//] of a URL. *)
Fixpoint afterScheme (s : string) : string :=
  match s with
  | String "/"%char (String "/"%char rest) => rest
  | String _ s' => afterScheme s'
  | EmptyString => EmptyString
  end.

(** The origin of a URL ends where its path, query or fragment starts. *)
Definition is_path_start (c : Ascii.ascii) : bool :=
  is_slash c || is_question_or_hash c.

(** Modelled from the spec: [createURL] of [../../libs/utils] is absent;
    of the URL it builds only pathname, search and hash are used, "the
    pathname/search/hash of the original entry URL".  As in a URL object,
    the pathname of a URL without path is [/], and a query or fragment
    that is empty reads as the empty string. *)
Definition createURL (url : string) : Router.URL :=
  let u := parsePath (break is_path_start (afterScheme url)).2 in
  {| Router.pathname :=
       match Router.pathname u with
       | EmptyString => "/"
       | p => p
       end;
     Router.search :=
       match Router.search u with
       | String _ EmptyString => EmptyString
       | q => q
       end;
     Router.hash :=
       match Router.hash u with
       | String _ EmptyString => EmptyString
       | h => h
       end |}.

(** No character of [s] satisfies [stop]. *)
Fixpoint avoids (stop : Ascii.ascii -> bool) (s : string) : bool :=
  match s with
  | EmptyString => true
  | String c s' => negb (stop c) && avoids stop s'
  end.

(** [s] is empty or starts with a character satisfying [stop]. *)
Definition stops (stop : Ascii.ascii -> bool) (s : string) : bool :=
  match s with
  | EmptyString => true
  | String c _ => stop c
  end.

(** The three parts are such that putting them together and reading the
    result back gives them again. *)
Definition well_formed (u : Router.URL) : bool :=
  avoids is_question_or_hash (Router.pathname u)
  && avoids is_hash (Router.search u)
  && match Router.search u with
     | EmptyString => true
     | String c _ => Ascii.eqb c "?"%char
     end
  && stops is_hash (Router.hash u).

(** Modelled from the spec: the segment of an app is "the app's current
    pathname+search+hash". *)
Definition encode (l : MicroLocation) : string :=
  Router.pathname l +:+ Router.search l +:+ Router.hash l.

(** Modelled from the spec: the helpers of [./core], [./location] and
    [./history], on the parsed URL and state. *)
Definition imports
  : Router.Imports Browser HistoryState string MicroLocation unit FullPath string :=
  {| Router.history_state := state;
     Router.createURL := createURL;
     Router.getMicroPathFromURL := fun appName b =>
       Js.map_get appName (microPaths (location b));
     Router.setMicroPathToURL := fun appName l b =>
       {| Router.fullPath :=
            {| hostPath := hostPath (location b);
               microPaths := Js.map_set appName (encode l) (microPaths (location b)) |};
          Router.searchHash := Router.search l +:+ Router.hash l |};
     Router.removeMicroPathFromURL := fun appName b =>
       {| hostPath := hostPath (location b);
          microPaths := Js.map_delete appName (microPaths (location b)) |};
     Router.removeMicroState := fun appName st _ =>
       {| hostState := hostState st;
          microAppState := Js.map_delete appName (microAppState st) |};
     Router.setMicroState := fun appName st microState url searchHash =>
       {| hostState := hostState st;
          microAppState :=
            Js.map_set appName (default (url +:+ searchHash) microState)
              (microAppState st) |};
     Router.updateLocation := fun _ path _ _ => parsePath path;
     Router.updateBrowserURL := fun st fp _ => {| location := fp; state := st |};
     Router.createMicroLocation := fun _ url => createURL url;
     Router.createMicroHistory := fun _ _ _ => tt |}.

(** The spec's scenario: the host page is at [/home], app1 is at
    [/detail?id=5] and another app at [/list#top]. *)
Definition shared : Browser :=
  {| location :=
       {| hostPath := "/home";
          microPaths := [("app1", "/detail?id=5"); ("app2", "/list#top")] |};
     state :=
       {| hostState := 4%nat;
          microAppState := [("app1", "p1"); ("app2", "p2")] |} |}.

(** The same page before app1 has written anything to it. *)
Definition unvisited : Browser :=
  {| location := {| hostPath := "/home"; microPaths := [("app2", "/list#top")] |};
     state := {| hostState := 4%nat; microAppState := [("app2", "p2")] |} |}.

(** The same page with a segment for app1 that is empty. *)
Definition vacant : Browser :=
  {| location :=
       {| hostPath := "/home"; microPaths := [("app1", ""); ("app2", "/list#top")] |};
     state := {| hostState := 4%nat; microAppState := [("app2", "p2")] |} |}.

Definition somewhere : MicroLocation :=
  {| Router.pathname := "/cart"; Router.search := "?n=2"; Router.hash := "#pay" |}.

End RouterModel.

(** * Facts about the lifecycle *)

Import Lifecycle.

Ltac unfold_m :=
  unfold mbind, mret, M_bind, M_ret, Js.bind, Js.ret, Js.when, emit, Js.emit,
    assign, Js.modify, self, Js.throw in *.

Lemma bind_run {A B} (m : M A) (f : A -> M B) s a s1 t1 :
  m s = (Js.Normal a, s1, t1) ->
  (m ≫= f) s = (Js.result (f a s1), Js.final (f a s1), t1 ++ Js.trace (f a s1)).
Proof.
  intros E. unfold mbind, M_bind, Js.bind. rewrite E.
  by destruct (f a s1) as [[? ?] ?].
Qed.

Lemma calls_app m t1 t2 : calls m (t1 ++ t2) = (calls m t1 + calls m t2)%nat.
Proof. unfold calls. by rewrite filter_app, length_app. Qed.

Lemma dispatches_app l t1 t2 :
  dispatches l (t1 ++ t2) = (dispatches l t1 + dispatches l t2)%nat.
Proof. unfold dispatches. by rewrite filter_app, length_app. Qed.

Lemma callback_effects_calls m t :
  m ≠ m_getUmdLibraryHooks -> m ≠ m_handleMounted -> m ≠ m_dispatchMountedEvent ->
  Forall callback_effect t -> calls m t = 0%nat.
Proof.
  intros H1 H2 H3. induction 1 as [|e t He _ IH]; [done|].
  unfold calls in *. rewrite filter_cons. case_decide; [|done].
  subst e. destruct m; cbn in He; done.
Qed.

Lemma callback_effects_dispatches l t :
  l ≠ lifeCycles.MOUNTED -> Forall callback_effect t -> dispatches l t = 0%nat.
Proof.
  intros Hl. induction 1 as [|e t He _ IH]; [done|].
  unfold dispatches in *. rewrite filter_cons. case_decide as Hd; [|done].
  destruct e as [ | | | el an lc er | | | | | | | | | | | | | ]; cbn in Hd; try done.
  case_bool_decide; [subst lc|done].
  destruct l, er; cbn in He; done.
Qed.

Lemma callback_effects_no_execScripts t :
  Forall callback_effect t -> Forall (λ e, is_execScripts e = false) t.
Proof.
  intros H. eapply Forall_impl; [exact H|]. intros [] He; cbn in *; done.
Qed.

Lemma callback_frame_refl s : callback_frame s s.
Proof. by constructor. Qed.

Lemma callback_frame_trans s1 s2 s3 :
  callback_frame s1 s2 -> callback_frame s2 s3 -> callback_frame s1 s3.
Proof. intros [] []; constructor; try congruence. auto. Qed.

(** **** [handleMounted] and [dispatchMountedEvent] *)

Lemma dispatchMountedEvent_run s :
  dispatchMountedEvent s =
    if bool_decide (appStates.UNMOUNT ≠ state (this s)) then
      (Js.Normal tt, with_this (set_state appStates.MOUNTED (this s)) s,
       [Call m_dispatchMountedEvent;
        DispatchLifecyclesEvent (container (this s)) (name (this s)) lifeCycles.MOUNTED None])
    else (Js.Normal tt, s, [Call m_dispatchMountedEvent]).
Proof.
  destruct s as [a m]. unfold dispatchMountedEvent. unfold_m. cbn.
  case_bool_decide; reflexivity.
Qed.

Lemma handleMounted_run v s :
  handleMounted v s =
    match v with
    | Js.VPromise p =>
        (Js.Normal tt, s,
         [Call m_handleMounted; ThenCatch p ThenDispatchMountedEvent CatchOnerror])
    | _ =>
        if bool_decide (appStates.UNMOUNT ≠ state (this s)) then
          (Js.Normal tt, with_this (set_state appStates.MOUNTED (this s)) s,
           [Call m_handleMounted; Call m_dispatchMountedEvent;
            DispatchLifecyclesEvent (container (this s)) (name (this s))
              lifeCycles.MOUNTED None])
        else (Js.Normal tt, s, [Call m_handleMounted; Call m_dispatchMountedEvent])
    end.
Proof.
  unfold handleMounted. unfold_m.
  destruct v; cbn; try reflexivity; rewrite dispatchMountedEvent_run;
    case_bool_decide; reflexivity.
Qed.

Lemma handleMounted_sound v s :
  ∃ s' t, handleMounted v s = (Js.Normal tt, s', t)
    ∧ callback_frame s s' ∧ Forall callback_effect t
    ∧ calls m_handleMounted t = 1%nat
    ∧ umdMode (this s') = umdMode (this s)
    ∧ (state (this s) = appStates.UNMOUNT ->
         s' = s ∧ dispatches lifeCycles.MOUNTED t = 0%nat).
Proof.
  rewrite handleMounted_run.
  destruct v; try case_bool_decide;
    (eexists _, _; split; [reflexivity|]);
    (split_and!;
       [ constructor; cbn; try done; intros; congruence
       | repeat constructor | done | done
       | intros Hu; try done; congruence ]).
Qed.

(** **** The completion callback *)

Lemma bind_raise {A B} (m : M A) (f : A -> M B) s e s1 t1 :
  m s = (Js.Abrupt e, s1, t1) -> (m ≫= f) s = (Js.Abrupt e, s1, t1).
Proof. intros E. unfold mbind, M_bind, Js.bind. by rewrite E. Qed.

Lemma detectUmd_run env cb c s :
  ∃ r s' t, detectUmd env cb c s = (r, s', t)
    ∧ (if probe_raises cb (this s) then r = Js.Abrupt Js.TypeError
       else ∃ c', r = Js.Normal c'
                  ∧ hasDispatchMountedEvent c' = hasDispatchMountedEvent c)
    ∧ umdMode (this s') = umdMode (this s) || detects cb (this s)
    ∧ state (this s') = state (this s)
    ∧ callback_frame s s'
    ∧ Forall callback_effect t
    ∧ calls m_handleMounted t = 0%nat
    ∧ dispatches lifeCycles.MOUNTED t = 0%nat.
Proof.
  destruct s as [a m]. destruct a, c as [flag res].
  unfold detectUmd, getUmdLibraryHooks, detects, probe_raises, probes, umd_export.
  unfold_m. cbn.
  destruct umdMode0; cbn.
  { eexists _, _, _. split; [reflexivity|].
    split_and!; try done. by eexists. }
  destruct (bool_decide (appStates.UNMOUNT ≠ state0)) eqn:Hs; cbn.
  2: { eexists _, _, _. split; [reflexivity|].
       split_and!; try done; [by eexists|repeat constructor]. }
  destruct container0 as [| |el]; cbn.
  1,2: eexists _, _, _; (split; [reflexivity|]);
       split_and!; try done; repeat constructor.
  match goal with
  | |- context [match ?g ?k with Js.GNotObject => _ | Js.GNull => _ | Js.GObject _ _ => _ end] =>
      destruct (g k) as [| |[|fm| |] u]; cbn
  end.
  all: try (eexists _, _, _; split; [reflexivity|];
            split_and!; try done; try (by eexists); repeat constructor).
  destruct u as [|fu| |]; cbn.
  all: try (eexists _, _, _; split; [reflexivity|];
            split_and!; try done; try (by eexists); repeat constructor).
  destruct (bool_decide (is_Some sandBox0)), (callFunc env fm) as [v|e]; cbn;
    eexists _, _, _; (split; [reflexivity|]);
    split_and!; try done; try (by eexists); repeat constructor.
Qed.

Lemma execScriptsCallback_run env cb c s :
  ∃ r s' t, execScriptsCallback env cb c s = (r, s', t)
    ∧ let raises := probe_raises cb (this s) in
      let fires := negb raises && negb (hasDispatchMountedEvent c)
                   && (isFinished cb || umdMode (this s')) in
      (if raises then r = Js.Abrupt Js.TypeError
       else ∃ c', r = Js.Normal c'
                  ∧ hasDispatchMountedEvent c' = hasDispatchMountedEvent c || fires)
      ∧ umdMode (this s') = umdMode (this s) || detects cb (this s)
      ∧ calls m_handleMounted t = (if fires then 1 else 0)%nat
      ∧ (state (this s) = appStates.UNMOUNT ->
           state (this s') = appStates.UNMOUNT
           ∧ dispatches lifeCycles.MOUNTED t = 0%nat)
      ∧ callback_frame s s'
      ∧ Forall callback_effect t.
Proof.
  destruct (detectUmd_run env cb c s)
    as (r1 & s1 & t1 & E1 & Hr & Hu & Hst & Fr & Ef & Hc & Hd).
  cbv zeta. unfold execScriptsCallback.
  destruct (probe_raises cb (this s)).
  { subst r1. rewrite (bind_raise _ _ _ _ _ _ E1).
    eexists _, _, _. split; [reflexivity|]. cbn [negb andb].
    split_and!; try done. intros Hs. split; [congruence|done]. }
  destruct Hr as (c1 & -> & Hf). rewrite (bind_run _ _ _ _ _ _ E1).
  unfold_m. cbn [fst snd Js.result Js.final Js.trace negb andb]. rewrite Hf.
  destruct (negb (hasDispatchMountedEvent c) && (isFinished cb || umdMode (this s1))) eqn:Fi.
  - destruct (handleMounted_sound (umdHookMountResult c1) s1)
      as (s2 & t2 & E2 & Fr2 & Ef2 & Hc2 & Hu2 & Hst2).
    rewrite E2. cbn.
    eexists _, _, _. split; [reflexivity|]. rewrite Hu2, Fi.
    split_and!.
    + eexists. split; [reflexivity|]. cbn. by rewrite orb_true_r.
    + done.
    + rewrite app_nil_r, calls_app. lia.
    + intros Hs. rewrite <- Hst in Hs. destruct (Hst2 Hs) as [-> Hd2].
      split; [done|]. rewrite app_nil_r, dispatches_app. lia.
    + eapply callback_frame_trans; eauto.
    + rewrite app_nil_r. by apply Forall_app.
  - cbn. eexists _, _, _. split; [reflexivity|]. rewrite Fi.
    split_and!.
    + eexists. split; [reflexivity|]. by rewrite orb_false_r.
    + done.
    + by rewrite app_nil_r.
    + intros Hs. split; [congruence|]. by rewrite app_nil_r.
    + done.
    + by rewrite app_nil_r.
Qed.

(** A callback whose probe does not raise returns normally. *)
Lemma execScriptsCallback_returns env cb c s :
  probe_raises cb (this s) = false ->
  ∃ c' s' t, execScriptsCallback env cb c s = (Js.Normal c', s', t).
Proof.
  intros N. destruct (execScriptsCallback_run env cb c s) as (r & s' & t & E & H & _).
  cbv zeta in H. rewrite N in H. destruct H as (c' & -> & _). eauto.
Qed.

Lemma execScripts_sound env runs : ∀ c s,
  let o := execScripts env runs c s in
  callback_frame s (Js.final o) ∧ Forall callback_effect (Js.trace o).
Proof.
  induction runs as [|cb runs IH]; intros c s; cbv zeta; cbn [execScripts].
  - split; [apply callback_frame_refl | constructor].
  - destruct (execScriptsCallback_run env cb c s)
      as (r1 & s1 & t1 & E1 & _ & _ & _ & _ & F1 & T1).
    destruct r1 as [c1|e].
    + destruct (IH c1 s1) as (F2 & T2).
      rewrite (bind_run _ _ _ _ _ _ E1). unfold Js.final, Js.trace in *.
      cbn [fst snd]. split; [eapply callback_frame_trans; eauto|].
      apply Forall_app; auto.
    + rewrite (bind_raise _ _ _ _ _ _ E1). done.
Qed.

(** **** [mount] *)

Lemma mount_not_loaded env c i b s :
  loadSourceLevel (this s) ≠ 2 ->
  mount env c i b s =
    (Js.Normal None,
     with_this (set_state appStates.LOADING_SOURCE_CODE (adopt c i b (this s))) s,
     [Call m_mount]).
Proof.
  intros H. destruct s as [a m]. unfold mount, adopt. unfold_m. cbn in *.
  destruct i as [x|]; cbn; [case_bool_decide; cbn|];
    rewrite bool_decide_true by done; reflexivity.
Qed.

Lemma mount_scripts env c i b s :
  loadSourceLevel (this s) = 2 -> umdMode (this s) = false ->
  let a := mounting c i b (this s) in
  let o := execScripts env (execScriptsSync env)
             {| hasDispatchMountedEvent := false; umdHookMountResult := Js.VUndefined |}
             (with_this a s) in
  mount env c i b s =
    (match Js.result o with
     | Js.Normal x => Js.Normal (Some x)
     | Js.Abrupt e => Js.Abrupt e
     end,
     Js.final o,
     mount_prelude a ++ ExecScripts (scripts (source a)) :: Js.trace o).
Proof.
  intros H U. destruct s as [a m]. cbn in *.
  unfold mount, mounting, adopt, mount_prelude, with_this. unfold_m. cbn in *.
  destruct i as [x|]; cbn; [case_bool_decide; cbn|];
    rewrite bool_decide_false by (cbn; lia); cbn; rewrite U; cbn;
    case_bool_decide; cbn;
    match goal with |- context [execScripts ?e ?r ?c ?s] =>
      destruct (execScripts e r c s) as [[[x'|er] s'] t']; cbn end;
    rewrite ?app_nil_r; reflexivity.
Qed.

Lemma mount_umd env c i b s :
  loadSourceLevel (this s) = 2 -> umdMode (this s) = true ->
  let a := mounting c i b (this s) in
  let r := match umdHookMount a with
           | Some f => try_call env mount_msg (name a) f
           | None => (Js.VUndefined, [LogError mount_msg (name a) Js.TypeError])
           end in
  let o := handleMounted r.1 (with_this a s) in
  mount env c i b s =
    (Js.Normal None,
     Js.final o,
     mount_prelude a
       ++ (if bool_decide (is_Some (sandBox a)) then [RebuildUmdSnapshot] else [])
       ++ r.2 ++ Js.trace o).
Proof.
  intros H U. destruct s as [a m]. cbn in *.
  unfold mount, mounting, adopt, mount_prelude, with_this, try_call.
  unfold_m. cbn in *.
  destruct i as [x|]; cbn; [case_bool_decide; cbn|];
    rewrite bool_decide_false by (cbn; lia); cbn; rewrite U; cbn;
    case_bool_decide; cbn;
    (destruct (umdHookMount a) as [f|]; cbn; [destruct (callFunc env f) as [v|e]; cbn|]);
    match goal with |- context [handleMounted ?v ?s] =>
      destruct (handleMounted_sound v s) as (s' & t' & E & _); rewrite E; cbn end;
    rewrite ?app_nil_r; reflexivity.
Qed.

Lemma mount_prelude_counts a :
  calls m_mount (mount_prelude a) = 1%nat
  ∧ dispatches lifeCycles.BEFOREMOUNT (mount_prelude a) = 1%nat.
Proof. unfold mount_prelude. case_bool_decide; cbn; done. Qed.

Lemma mounting_fields c i b a :
  loadSourceLevel (mounting c i b a) = loadSourceLevel a
  ∧ container (mounting c i b a) = container (adopt c i b a)
  ∧ inline (mounting c i b a) = inline (adopt c i b a)
  ∧ baseroute (mounting c i b a) = baseroute (adopt c i b a)
  ∧ source (mounting c i b a) = source a
  ∧ name (mounting c i b a) = name a.
Proof. destruct i as [x|]; cbn; [case_bool_decide|]; done. Qed.

(** What a mount that goes past the load gate always does, in either
    branch. *)
Lemma mount_loaded env c i b s :
  loadSourceLevel (this s) = 2 ->
  let o := mount env c i b s in
  calls m_mount (Js.trace o) = 1%nat
  ∧ dispatches lifeCycles.BEFOREMOUNT (Js.trace o) = 1%nat
  ∧ loadSourceLevel (this (Js.final o)) = 2
  ∧ container (this (Js.final o)) = container (adopt c i b (this s))
  ∧ inline (this (Js.final o)) = inline (adopt c i b (this s))
  ∧ baseroute (this (Js.final o)) = baseroute (adopt c i b (this s))
  ∧ source (this (Js.final o)) = source (this s).
Proof.
  intros H.
  destruct (mounting_fields c i b (this s)) as (Ml & Mc & Mi & Mb & Ms & _).
  destruct (mount_prelude_counts (mounting c i b (this s))) as [Hp1 Hp2].
  destruct (umdMode (this s)) eqn:U; cbv zeta.
  - rewrite (mount_umd env c i b s H U).
    set (a := mounting c i b (this s)) in *.
    match goal with |- context [handleMounted ?v ?s] =>
      destruct (handleMounted_sound v s) as (s' & t' & E & F & T & _); rewrite E end.
    unfold Js.trace, Js.final. cbn [fst snd].
    rewrite !calls_app, !dispatches_app, Hp1, Hp2.
    rewrite (callback_effects_calls m_mount t'),
      (callback_effects_dispatches lifeCycles.BEFOREMOUNT t') by done.
    destruct F as [-> -> -> -> _ -> _ _ _]. cbn [this with_this].
    rewrite <- Mc, <- Mi, <- Mb, <- Ms. clearbody a.
    unfold try_call.
    destruct (umdHookMount a) as [f|]; cbn [fst snd];
      [destruct (callFunc env f) as [v|e]; cbn [fst snd]|];
      case_bool_decide; cbn; repeat split; congruence.
  - rewrite (mount_scripts env c i b s H U).
    set (a := mounting c i b (this s)) in *.
    match goal with |- context [execScripts ?e ?r ?c ?s] =>
      destruct (execScripts_sound e r c s) as (F & T);
      destruct (execScripts e r c s) as [[r' s'] t'] end.
    unfold Js.trace, Js.final in *. cbn [fst snd] in *.
    rewrite calls_app, dispatches_app, Hp1, Hp2.
    change (ExecScripts (scripts (source a)) :: t')
      with ([ExecScripts (scripts (source a))] ++ t').
    rewrite calls_app, dispatches_app.
    rewrite (callback_effects_calls m_mount t'),
      (callback_effects_dispatches lifeCycles.BEFOREMOUNT t') by done.
    destruct F as [-> -> -> -> _ -> _ _ _]. cbn [this with_this].
    rewrite <- Mc, <- Mi, <- Mb, <- Ms. clearbody a.
    cbn. repeat split; congruence.
Qed.

(** **** [unmount] *)

Lemma handleUnmounted_run env d v s :
  handleUnmounted env d v s =
    match v with
    | Js.VPromise p =>
        (Js.Normal tt, s,
         [Call m_handleUnmounted;
          ThenCatch p (ThenActionsForUnmount d) (CatchActionsForUnmount d)])
    | _ =>
        let o := actionsForUnmount env d s in
        (Js.result o, Js.final o, Call m_handleUnmounted :: Js.trace o)
    end.
Proof.
  unfold handleUnmounted. unfold_m.
  destruct v; cbn; try reflexivity;
    destruct (actionsForUnmount env d s) as [[[] ?] ?]; reflexivity.
Qed.

Lemma unmount_run env destroy s :
  let a := this s in
  let r := match umdHookUnmount a with
           | Some f => try_call env unmount_msg (name a) f
           | None => (Js.VUndefined, [])
           end in
  let o := handleUnmounted env (forced destroy a) r.1 (with_this (unmounting a) s) in
  unmount env destroy s =
    (Js.result o, Js.final o,
     [Call m_unmount] ++ r.2
       ++ [DispatchCustomEventToMicroApp "unmount" (name a) None] ++ Js.trace o).
Proof.
  destruct s as [a m]. cbn [this].
  unfold unmount, try_call, forced, unmounting, with_this. unfold_m. cbn.
  destruct (umdHookUnmount a) as [f|]; cbn;
    [destruct (callFunc env f) as [v|e]; cbn|];
    match goal with |- context [handleUnmounted ?e ?d ?v ?s] =>
      destruct (handleUnmounted e d v s) as [[[] ?] ?] end; reflexivity.
Qed.

(** What the final teardown leaves behind, also when it raises. *)
Lemma actionsForUnmount_run env d s :
  let o := actionsForUnmount env d s in
  state (this (Js.final o)) = state (this s)
  ∧ loadSourceLevel (this (Js.final o)) = loadSourceLevel (this s)
  ∧ isPrefetch (this (Js.final o)) = isPrefetch (this s)
  ∧ name (this (Js.final o)) = name (this s)
  ∧ calls m_actionsForUnmount (Js.trace o) = 1%nat
  ∧ dispatches lifeCycles.UNMOUNT (Js.trace o) = 1%nat
  ∧ dispatches lifeCycles.MOUNTED (Js.trace o) = 0%nat
  ∧ calls m_mount (Js.trace o) = 0%nat
  ∧ (d = true ->
       calls m_actionsForCompletelyDestory (Js.trace o) = 1%nat
       ∧ appInstanceMap (Js.final o) = Js.map_delete (name (this s)) (appInstanceMap s))
  ∧ (d = false -> appInstanceMap (Js.final o) = appInstanceMap s)
  ∧ (∀ e, container (this s) = Js.Node e ->
       Js.result o = Js.Normal tt ∧ container (this (Js.final o)) = Js.Null).
Proof.
  destruct s as [a m]. destruct a. cbn [this].
  unfold actionsForUnmount, actionsForCompletelyDestory. unfold_m. cbn.
  destruct d, umdMode0, useSandbox0, sandBox0, container0; cbn;
    repeat case_bool_decide; cbn; split_and!; try done; intros; simplify_eq;
    try done; exfalso; eauto using is_Some_None.
Qed.

(** ** C1 *)


Lemma onLoad_run env html' s :
  let a := this s in
  onLoad env html' s =
    if bool_decide (loadSourceLevel a + 1 = 2) then
      if isPrefetch a || bool_decide (appStates.UNMOUNT = state a)
      then (Js.Normal None, with_this (loaded html' a) s, [Call m_onLoad])
      else
        let o := mount env None None None
                   (with_this (set_state appStates.LOAD_SOURCE_FINISHED (loaded html' a)) s) in
        (Js.result o, Js.final o, Call m_onLoad :: Js.trace o)
    else (Js.Normal None,
          with_this (set_loadSourceLevel (loadSourceLevel a + 1) a) s,
          [Call m_onLoad]).
Proof.
  destruct s as [a m]. cbv zeta. cbn [this].
  unfold onLoad, loaded, with_this. unfold_m. cbn.
  case_bool_decide; cbn; [|done].
  destruct (isPrefetch a || bool_decide (appStates.UNMOUNT = state a)); cbn; [done|].
  match goal with |- context [mount ?e ?c ?i ?b ?s] =>
    destruct (mount e c i b s) as [[[] ?] ?] end; done.
Qed.

(** C1, as amended.  [onLoad] counts one channel per call.  It calls [mount]
    (once, and that mount goes past the load gate) exactly when the counter
    reaches 2 on an instance that is neither prefetch-only nor already
    [UNMOUNT]; it then has stored the fragment and set
    [LOAD_SOURCE_FINISHED] before the call.  In every other case it makes no
    call at all, and when the counter reaches 2 under the guard it still
    stores the fragment.  A [mount] invoked while the counter is not 2
    adopts its arguments, sets [LOADING_SOURCE_CODE] and does nothing
    else.  On a newly built instance the first [onLoad] calls no [mount]
    and the second calls it once. *)
Theorem onLoad_mount_gate env s html' :
  let a := this s in
  let o := onLoad env html' s in
  let proceeds :=
    bool_decide (loadSourceLevel a + 1 = 2)
    && negb (isPrefetch a || bool_decide (appStates.UNMOUNT = state a)) in
  loadSourceLevel (this (Js.final o)) = loadSourceLevel a + 1
  ∧ calls m_mount (Js.trace o) = (if proceeds then 1 else 0)%nat
  ∧ dispatches lifeCycles.BEFOREMOUNT (Js.trace o) = (if proceeds then 1 else 0)%nat
  ∧ (loadSourceLevel a + 1 = 2 -> html (source (this (Js.final o))) = Js.Node html')
  ∧ (proceeds = true ->
       let s1 := with_this (set_state appStates.LOAD_SOURCE_FINISHED (loaded html' a)) s in
       Js.final o = Js.final (mount env None None None s1)
       ∧ Js.trace o = Call m_onLoad :: Js.trace (mount env None None None s1))
  ∧ (proceeds = false ->
       Js.trace o = [Call m_onLoad] ∧ state (this (Js.final o)) = state a)
  ∧ (∀ c i b, loadSourceLevel a ≠ 2 ->
       mount env c i b s =
         (Js.Normal None,
          with_this (set_state appStates.LOADING_SOURCE_CODE (adopt c i b a)) s,
          [Call m_mount]))
  ∧ (∀ p m env1 env2 h1 h2,
       let s0 := {| this := (new_CreateApp p).1; appInstanceMap := m |} in
       let o1 := onLoad env1 h1 s0 in
       let o2 := onLoad env2 h2 (Js.final o1) in
       calls m_mount (Js.trace o1) = 0%nat ∧ calls m_mount (Js.trace o2) = 1%nat).
Proof.
  cbv zeta.
  assert (F : ∀ p m env1 env2 h1 h2,
       let s0 := {| this := (new_CreateApp p).1; appInstanceMap := m |} in
       let o1 := onLoad env1 h1 s0 in
       let o2 := onLoad env2 h2 (Js.final o1) in
       calls m_mount (Js.trace o1) = 0%nat ∧ calls m_mount (Js.trace o2) = 1%nat).
  { intros p m env1 env2 h1 h2. cbv zeta.
    set (s0 := {| this := (new_CreateApp p).1; appInstanceMap := m |}).
    assert (I : loadSourceLevel (this s0) = 0 ∧ isPrefetch (this s0) = false
                ∧ state (this s0) = appStates.LOADING_SOURCE_CODE).
    { unfold s0, new_CreateApp, constructor, loadSourceCode. unfold_m. cbn.
      destruct (p_useSandbox p); cbn; done. }
    destruct I as (I1 & I2 & I3). clearbody s0.
    rewrite (onLoad_run env1 h1 s0). cbv zeta. rewrite I1.
    rewrite (bool_decide_false (0 + 1 = 2)) by done.
    split; [reflexivity|]. unfold Js.final at 1. cbn [fst snd].
    set (s1 := with_this (set_loadSourceLevel (0 + 1) (this s0)) s0).
    rewrite (onLoad_run env2 h2 s1). cbv zeta.
    change (loadSourceLevel (this s1)) with (0 + 1).
    change (isPrefetch (this s1)) with (isPrefetch (this s0)).
    change (state (this s1)) with (state (this s0)).
    rewrite I2, I3, (bool_decide_true (0 + 1 + 1 = 2)) by done.
    rewrite (bool_decide_false (appStates.UNMOUNT = appStates.LOADING_SOURCE_CODE)) by done.
    cbn [orb].
    match goal with |- context [mount ?e ?c ?i ?b ?s] =>
      destruct (mount_loaded e c i b s) as (Hc & _); [done|];
      destruct (mount e c i b s) as [[r sf] tf] end.
    unfold Js.trace in *. cbn [fst snd] in *.
    change (Call m_onLoad :: tf) with ([Call m_onLoad] ++ tf).
    rewrite calls_app, Hc. done. }
  assert (N : ∀ c i b, loadSourceLevel (this s) ≠ 2 ->
       mount env c i b s =
         (Js.Normal None,
          with_this (set_state appStates.LOADING_SOURCE_CODE (adopt c i b (this s))) s,
          [Call m_mount])).
  { intros c i b L'. by apply mount_not_loaded. }
  pose proof (onLoad_run env html' s) as E. cbv zeta in E.
  destruct (decide (loadSourceLevel (this s) + 1 = 2)) as [L|L].
  - rewrite (bool_decide_true _ L) in *.
    destruct (isPrefetch (this s) || bool_decide (appStates.UNMOUNT = state (this s))).
    + rewrite E.
      split_and!; [reflexivity|reflexivity|reflexivity|intros _; reflexivity
                  |discriminate|intros _; split; reflexivity|exact N|exact F].
    + set (s1 := with_this (set_state appStates.LOAD_SOURCE_FINISHED
                              (loaded html' (this s))) s) in *.
      assert (L1 : loadSourceLevel (this s1) = 2) by exact L.
      pose proof (mount_loaded env None None None s1 L1) as M. cbv zeta in M.
      destruct (mount env None None None s1) as [[r sf] tf].
      rewrite E. clear E. unfold Js.trace, Js.final in *. cbn [fst snd] in *.
      destruct M as (Hc & Hd & Hl & _ & _ & _ & Hs).
      change (Call m_onLoad :: tf) with ([Call m_onLoad] ++ tf).
      rewrite calls_app, dispatches_app, Hc, Hd, Hl, Hs.
      split_and!; [lia|reflexivity|reflexivity|intros _; reflexivity
                  |intros _; split; reflexivity|discriminate|exact N|exact F].
  - rewrite (bool_decide_false _ L) in *. rewrite E.
    split_and!; [reflexivity|reflexivity|reflexivity|intros L'; done|discriminate
                |intros _; split; reflexivity|exact N|exact F].
Qed.

(** C1 as stated fails on a prefetch-only instance: its second [onLoad]
    brings the counter to 2, [mount] is not called and the state is not
    [LOAD_SOURCE_FINISHED].  And a [mount] called with arguments before the
    resources are loaded does more than set the state: it takes over
    [inline] and [baseroute]. *)
Lemma onLoad_mount_gate_prefetch_counterexample :
  let s1 := Js.final (onLoad plain_env 5%nat (prefetched app1)) in
  let o := onLoad plain_env 6%nat s1 in
  let early := Js.final (mount plain_env (Some 8%nat) (Some true) (Some "/b") app1) in
  (loadSourceLevel (this (Js.final o)) = 2
   ∧ calls m_mount (Js.trace o) = 0%nat
   ∧ state (this (Js.final o)) = appStates.LOADING_SOURCE_CODE)
  ∧ (loadSourceLevel (this app1) = 0
     ∧ (inline (this app1), baseroute (this app1)) = (false, "")
     ∧ (inline (this early), baseroute (this early)) = (true, "/b")).
Proof. vm_compute. done. Qed.

Lemma onLoad_mount_gate_witness :
  let s1 := Js.final (onLoad plain_env 5%nat app1) in
  calls m_mount (Js.trace (onLoad plain_env 5%nat app1)) = 0%nat
  ∧ calls m_mount (Js.trace (onLoad plain_env 6%nat s1)) = 1%nat
  ∧ html (source (this (Js.final (onLoad plain_env 6%nat s1)))) = Js.Node 6%nat
  ∧ state (this (Js.final (onLoad plain_env 6%nat s1))) = appStates.MOUNTED
  ∧ state (this (Js.final (mount plain_env None None None app1)))
    = appStates.LOADING_SOURCE_CODE.
Proof.
  cbv zeta.
  destruct (onLoad_mount_gate plain_env app1 5%nat) as (_ & C1 & _ & _ & _ & _ & M1 & _).
  destruct (onLoad_mount_gate plain_env (Js.final (onLoad plain_env 5%nat app1)) 6%nat)
    as (_ & C2 & _ & H2 & P2 & _ & _).
  split; [exact C1|]. split; [exact C2|]. split; [apply H2; reflexivity|].
  split; [destruct (P2 eq_refl) as [-> _]; reflexivity|].
  rewrite (M1 None None None); [reflexivity|]. vm_compute. discriminate.
Defined.

(** ** C9 *)

(** C9.  When the container field already holds an element, [mount] leaves
    it as it is whatever container is passed; [inline] and [baseroute] take
    the value of the argument when one is passed and keep theirs
    otherwise. *)
Theorem mount_keeps_container env s e c i b :
  container (this s) = Js.Node e ->
  let s' := Js.final (mount env c i b s) in
  container (this s') = Js.Node e
  ∧ inline (this s') = default (inline (this s)) i
  ∧ baseroute (this s') = default (baseroute (this s)) b.
Proof.
  intros C. cbv zeta.
  assert (A : container (adopt c i b (this s)) = Js.Node e
              ∧ inline (adopt c i b (this s)) = default (inline (this s)) i
              ∧ baseroute (adopt c i b (this s)) = default (baseroute (this s)) b).
  { unfold adopt. destruct i as [x|]; cbn; [case_bool_decide as N; cbn|];
      rewrite C; cbn; split_and!; done. }
  destruct A as (A1 & A2 & A3).
  destruct (decide (loadSourceLevel (this s) = 2)) as [L|L].
  - destruct (mount_loaded env c i b s L) as (_ & _ & _ & -> & -> & -> & _). done.
  - rewrite (mount_not_loaded env c i b s L). done.
Qed.

Lemma mount_keeps_container_witness :
  let s' := Js.final (mount plain_env (Some 8%nat) (Some true) (Some "/base") app1) in
  container (this s') = Js.Node 7%nat
  ∧ inline (this s') = true
  ∧ baseroute (this s') = "/base".
Proof. apply (mount_keeps_container plain_env app1 7%nat). reflexivity. Defined.

(** ** C3 *)

Lemma mount_prelude_no_scripts a :
  Forall (λ e, is_execScripts e = false) (mount_prelude a)
  ∧ calls m_getUmdLibraryHooks (mount_prelude a) = 0%nat.
Proof.
  unfold mount_prelude. case_bool_decide; cbn; split; try done;
    repeat constructor.
Qed.

Lemma handleMounted_no_probe v s :
  calls m_getUmdLibraryHooks (Js.trace (handleMounted v s)) = 0%nat.
Proof.
  rewrite handleMounted_run. destruct v; try case_bool_decide; done.
Qed.

Lemma cached_hook_call_no_scripts env a :
  let r := match umdHookMount a with
           | Some f => try_call env mount_msg (name a) f
           | None => (Js.VUndefined, [LogError mount_msg (name a) Js.TypeError])
           end in
  Forall (λ e, is_execScripts e = false) r.2
  ∧ calls m_getUmdLibraryHooks r.2 = 0%nat
  ∧ calls m_handleMounted r.2 = 0%nat.
Proof.
  unfold try_call.
  destruct (umdHookMount a) as [f|]; [destruct (callFunc env f)|]; cbn;
    split_and!; try done; repeat constructor.
Qed.

Lemma rebuild_no_scripts (b : bool) :
  let t := if b then [RebuildUmdSnapshot] else [] in
  Forall (λ e, is_execScripts e = false) t
  ∧ calls m_getUmdLibraryHooks t = 0%nat
  ∧ calls m_handleMounted t = 0%nat.
Proof. destruct b; cbn; split_and!; try done; repeat constructor. Qed.

(** What [handleMounted] does with the result of the mount hook on an
    instance that is not unmounted. *)
Lemma handleMounted_notifies v s :
  state (this s) ≠ appStates.UNMOUNT ->
  let o := handleMounted v s in
  match v with
  | Js.VPromise p =>
      Js.final o = s
      ∧ Js.trace o = [Call m_handleMounted; ThenCatch p ThenDispatchMountedEvent CatchOnerror]
  | _ =>
      Js.final o = with_this (set_state appStates.MOUNTED (this s)) s
      ∧ Js.trace o =
          [Call m_handleMounted; Call m_dispatchMountedEvent;
           DispatchLifecyclesEvent (container (this s)) (name (this s))
             lifeCycles.MOUNTED None]
  end.
Proof.
  intros U. cbv zeta. rewrite handleMounted_run.
  destruct v; try (rewrite bool_decide_true by auto); done.
Qed.

(** C3, as amended.  With [umdMode] already true, a [mount] neither calls
    [execScripts] nor probes for the hooks again.  When the load counter is
    2 it does, in this order and after the steps common to both branches:
    rebuild the sandbox snapshot (when there is a sandbox), call the
    cached [umdHookMount], logging what it raises, and hand the result to
    [handleMounted], once; [handleMounted] sets [MOUNTED] and dispatches
    the mounted event, or, when the hook returned a promise, registers
    that on it.  On an instance that entered UMD mode the way the code
    enters it, the cached hook is there and is called.  When the load
    counter is not 2, the [mount] does none of this, in UMD mode or not: it
    adopts its arguments, sets [LOADING_SOURCE_CODE] and returns.  With
    [umdMode] false and the counter at 2, [execScripts] is called. *)
Theorem mount_umd_branch env s c i b :
  let o := mount env c i b s in
  let a := mounting c i b (this s) in
  (umdMode (this s) = true ->
     Forall (λ e, is_execScripts e = false) (Js.trace o)
     ∧ calls m_getUmdLibraryHooks (Js.trace o) = 0%nat)
  ∧ (umdMode (this s) = true -> loadSourceLevel (this s) = 2 ->
       let r := match umdHookMount a with
                | Some f => try_call env mount_msg (name a) f
                | None => (Js.VUndefined, [LogError mount_msg (name a) Js.TypeError])
                end in
       Js.trace o =
         mount_prelude a
           ++ (if bool_decide (is_Some (sandBox a)) then [RebuildUmdSnapshot] else [])
           ++ r.2 ++ Js.trace (handleMounted r.1 (with_this a s))
       ∧ calls m_handleMounted (Js.trace o) = 1%nat
       ∧ (hooks_cached (this s) ->
            ∃ f, umdHookMount (this s) = Some f ∧ CallFunc f ∈ Js.trace o)
       ∧ Js.result o = Js.Normal None
       ∧ match r.1 with
         | Js.VPromise p =>
             Js.final o = with_this a s
             ∧ Js.trace (handleMounted r.1 (with_this a s))
               = [Call m_handleMounted;
                  ThenCatch p ThenDispatchMountedEvent CatchOnerror]
         | _ =>
             Js.final o = with_this (set_state appStates.MOUNTED a) s
             ∧ Js.trace (handleMounted r.1 (with_this a s))
               = [Call m_handleMounted; Call m_dispatchMountedEvent;
                  DispatchLifecyclesEvent (container a) (name a) lifeCycles.MOUNTED None]
         end)
  ∧ (loadSourceLevel (this s) ≠ 2 ->
       o = (Js.Normal None,
            with_this (set_state appStates.LOADING_SOURCE_CODE (adopt c i b (this s))) s,
            [Call m_mount]))
  ∧ (umdMode (this s) = false -> loadSourceLevel (this s) = 2 ->
       ExecScripts (scripts (source a)) ∈ Js.trace o).
Proof.
  cbv zeta. split_and!.
  - intros U. destruct (decide (loadSourceLevel (this s) = 2)) as [L|L].
    + rewrite (mount_umd env c i b s L U).
      set (a := mounting c i b (this s)).
      destruct (mount_prelude_no_scripts a) as [P1 P2].
      destruct (cached_hook_call_no_scripts env a) as (R1 & R2 & _).
      destruct (rebuild_no_scripts (bool_decide (is_Some (sandBox a)))) as (B1 & B2 & _).
      cbv zeta in R1, R2, B1, B2.
      match goal with |- context [handleMounted ?v ?s] =>
        pose proof (handleMounted_no_probe v s) as H2;
        destruct (handleMounted_sound v s) as (s' & t' & E & _ & T & _);
        rewrite E in * end.
      unfold Js.trace, Js.final in *. cbn [fst snd] in *.
      rewrite !calls_app, P2, R2, B2, H2.
      split; [|done].
      rewrite !Forall_app. split_and!; try done.
      by apply callback_effects_no_execScripts.
    + rewrite (mount_not_loaded env c i b s L). split; [repeat constructor | done].
  - intros U L. rewrite (mount_umd env c i b s L U).
    set (a := mounting c i b (this s)).
    destruct (mount_prelude_counts a) as [_ _].
    destruct (cached_hook_call_no_scripts env a) as (_ & _ & R3).
    destruct (rebuild_no_scripts (bool_decide (is_Some (sandBox a)))) as (_ & _ & B3).
    cbv zeta in R3, B3.
    match goal with |- context [handleMounted ?v ?s0] =>
      pose proof (handleMounted_notifies v s0) as N;
      destruct (handleMounted_sound v s0) as (s' & t' & E & _ & T & Hc & _);
      rewrite E in * end.
    unfold Js.trace, Js.final, Js.result in *. cbn [fst snd] in *.
    split; [done|]. split; [|split; [|split; [done|]]].
    + rewrite !calls_app, R3, B3, Hc.
      assert (P : calls m_handleMounted (mount_prelude a) = 0%nat).
      { unfold mount_prelude. case_bool_decide; done. }
      rewrite P. done.
    + intros W. destruct (W U) as [[f Hf] _]. exists f. split; [done|].
      assert (Ha : umdHookMount a = Some f).
      { subst a. destruct i as [x|]; cbn;
          [destruct (bool_decide (x ≠ inline (this s))); cbn|]; done. }
      rewrite Ha. unfold try_call.
      destruct (callFunc env f); cbn [fst snd]; set_solver.
    + apply N. done.
  - intros L. by apply mount_not_loaded.
  - intros U L. rewrite (mount_scripts env c i b s L U).
    unfold Js.trace. cbn [snd]. set_solver.
Qed.

(** C3 as stated fails on an instance in UMD mode whose load counter is not
    2.  app1 was found to be a UMD library, a third channel has
    reported (the counter is 3) and it was unmounted without [destroy]: a
    [mount] then rebuilds no snapshot, calls no hook and handles no
    mounted notification, it only sets [LOADING_SOURCE_CODE].  And app3, in
    UMD mode with the counter at 2 but built without sandbox, has no
    snapshot to rebuild: its [mount] calls the cached hook directly. *)
Lemma mount_umd_branch_counterexample :
  let o := mount plain_env (Some 8%nat) None None app1_overcounted in
  let o3 := mount plain_env (Some 8%nat) None None app3_unmounted in
  (umdMode (this app1_overcounted) = true
   ∧ umdHookMount (this app1_overcounted) = Some 1%nat
   ∧ loadSourceLevel (this app1_overcounted) = 3
   ∧ Js.trace o = [Call m_mount]
   ∧ state (this (Js.final o)) = appStates.LOADING_SOURCE_CODE)
  ∧ (umdMode (this app3_unmounted) = true
     ∧ loadSourceLevel (this app3_unmounted) = 2
     ∧ Js.trace o3 =
         [Call m_mount;
          DispatchLifecyclesEvent (Js.Node 8%nat) "app3" lifeCycles.BEFOREMOUNT None;
          CloneContainer (Js.Node 6%nat) (Js.Node 8%nat) false;
          CallFunc 1%nat;
          Call m_handleMounted; Call m_dispatchMountedEvent;
          DispatchLifecyclesEvent (Js.Node 8%nat) "app3" lifeCycles.MOUNTED None]).
Proof. vm_compute. done. Qed.

(** The cycle of the spec: app1 is mounted, found to be a UMD library
    (hook 1 cached), unmounted without [destroy] and mounted again on
    another container; the second mount calls hook 1 on the rebuilt
    snapshot and runs no script. *)
Lemma mount_umd_branch_witness :
  let s := Js.final (unmount plain_env false (app1_mounted throwing_env)) in
  let o := mount plain_env (Some 8%nat) None None s in
  umdMode (this s) = true
  ∧ Forall (λ e, is_execScripts e = false) (Js.trace o)
  ∧ calls m_handleMounted (Js.trace o) = 1%nat
  ∧ CallFunc 1%nat ∈ Js.trace o
  ∧ RebuildUmdSnapshot ∈ Js.trace o
  ∧ container (this (Js.final o)) = Js.Node 8%nat
  ∧ state (this (Js.final o)) = appStates.MOUNTED.
Proof.
  cbv zeta.
  set (s := Js.final (unmount plain_env false (app1_mounted throwing_env))).
  destruct (mount_umd_branch plain_env s (Some 8%nat) None None) as (H1 & H2 & _).
  assert (U : umdMode (this s) = true) by (vm_compute; reflexivity).
  assert (L : loadSourceLevel (this s) = 2) by (vm_compute; reflexivity).
  destruct (H1 U) as [F _]. destruct (H2 U L) as (T & C & _).
  split; [exact U|]. split; [exact F|]. split; [exact C|].
  rewrite T. split_and!; [refine (bool_decide_unpack _ _); vm_compute; exact I..| |].
  all: vm_compute; reflexivity.
Defined.

(** ** The registry map *)

Lemma map_get_delete {V} k (m : Js.Map V) : Js.map_get k (Js.map_delete k m) = None.
Proof.
  unfold Js.map_delete. induction m as [|[k' v] m IH]; [done|].
  rewrite filter_cons. cbn. case_decide as N; cbn; [|done].
  case_decide; [done|exact IH].
Qed.

Lemma map_get_delete_ne {V} k k' (m : Js.Map V) :
  k ≠ k' -> Js.map_get k' (Js.map_delete k m) = Js.map_get k' m.
Proof.
  intros N. unfold Js.map_delete. induction m as [|[k0 v] m IH]; [done|].
  rewrite filter_cons. cbn. repeat (case_decide; cbn; simplify_eq); done.
Qed.

Lemma map_get_keys {V} k (m : Js.Map V) :
  k ∈ Js.map_keys m <-> is_Some (Js.map_get k m).
Proof.
  unfold Js.map_keys. induction m as [|[k' v] m IH]; cbn.
  - split; [by intros ?%elem_of_nil | by intros [? ?]].
  - rewrite elem_of_cons, IH. case_decide; [subst|]; split; eauto.
    intros [?|?]; [congruence|done].
Qed.

(** ** The final teardown, run by a settled promise *)

Lemma settle_unmount_run env out d s :
  let o := settle env out (ThenActionsForUnmount d) (CatchActionsForUnmount d) s in
  state (this (Js.final o)) = state (this s)
  ∧ loadSourceLevel (this (Js.final o)) = loadSourceLevel (this s)
  ∧ (1 <= calls m_actionsForUnmount (Js.trace o))%nat
  ∧ dispatches lifeCycles.MOUNTED (Js.trace o) = 0%nat
  ∧ calls m_mount (Js.trace o) = 0%nat
  ∧ (d = true ->
       (1 <= calls m_actionsForCompletelyDestory (Js.trace o))%nat
       ∧ Js.map_get (name (this s)) (appInstanceMap (Js.final o)) = None).
Proof.
  cbv zeta. destruct out as [|reason]; cbn [settle runThen runCatch].
  - unfold try_catch.
    pose proof (actionsForUnmount_run env d s) as H1. cbv zeta in H1.
    destruct (actionsForUnmount env d s) as [[[[]|e] s1] t1].
    + unfold Js.trace, Js.final in *. cbn [fst snd] in *.
      destruct H1 as (-> & -> & _ & _ & -> & _ & -> & -> & Hd & _).
      split_and!; try done.
      intros D. destruct (Hd D) as [-> ->]. split; [done|apply map_get_delete].
    + cbn [runCatch].
      pose proof (actionsForUnmount_run env d s1) as H2. cbv zeta in H2.
      destruct (actionsForUnmount env d s1) as [[r2 s2] t2].
      unfold Js.trace, Js.final in *. cbn [fst snd] in *.
      destruct H1 as (E1 & E2 & _ & E3 & C1 & _ & M1 & N1 & Hd1 & _).
      destruct H2 as (-> & -> & _ & _ & C2 & _ & M2 & N2 & Hd2 & _).
      rewrite !calls_app, dispatches_app, C1, C2, M1, M2, N1, N2.
      split_and!; try done; try lia.
      intros D. destruct (Hd1 D) as [D1 D1']. destruct (Hd2 D) as [D2 ->].
      split; [lia|]. rewrite E3. apply map_get_delete.
  - pose proof (actionsForUnmount_run env d s) as H1. cbv zeta in H1.
    destruct (actionsForUnmount env d s) as [[r1 s1] t1].
    unfold Js.trace, Js.final in *. cbn [fst snd] in *.
    destruct H1 as (-> & -> & _ & _ & -> & _ & -> & -> & Hd & _).
    split_and!; try done.
    intros D. destruct (Hd D) as [-> ->]. split; [done|apply map_get_delete].
Qed.

(** ** C7 *)

(** C7.  A failing UMD unmount hook does not keep the teardown from running.
    When the hook raises, [unmount] logs the exception and goes on exactly
    as it does without a hook: [actionsForUnmount] runs in the same call.
    When the hook returns a promise, [unmount] registers one and the same
    teardown, [actionsForUnmount] with the flag [unmount] computed, for
    fulfilment and for rejection, and whichever way the promise settles that
    teardown runs.  In every case [unmount] either has run
    [actionsForUnmount] once or has registered it on the promise. *)
Theorem unmount_hook_failure_reaches_teardown env s destroy :
  let a := this s in
  let d := forced destroy a in
  let s1 := with_this (unmounting a) s in
  let o := unmount env destroy s in
  (∀ f e, umdHookUnmount a = Some f -> callFunc env f = Js.Throws e ->
     let o' := actionsForUnmount env d s1 in
     Js.trace o =
       [Call m_unmount; CallFunc f; LogError unmount_msg (name a) e;
        DispatchCustomEventToMicroApp "unmount" (name a) None;
        Call m_handleUnmounted] ++ Js.trace o'
     ∧ Js.final o = Js.final o' ∧ Js.result o = Js.result o'
     ∧ calls m_actionsForUnmount (Js.trace o) = 1%nat)
  ∧ (∀ f p, umdHookUnmount a = Some f -> callFunc env f = Js.Returns (Js.VPromise p) ->
       o = (Js.Normal tt, s1,
            [Call m_unmount; CallFunc f;
             DispatchCustomEventToMicroApp "unmount" (name a) None;
             Call m_handleUnmounted;
             ThenCatch p (ThenActionsForUnmount d) (CatchActionsForUnmount d)])
       ∧ runThen env (ThenActionsForUnmount d) = actionsForUnmount env d
       ∧ (∀ reason, runCatch env (CatchActionsForUnmount d) reason = actionsForUnmount env d)
       ∧ ∀ env' out,
           (1 <= calls m_actionsForUnmount
                   (Js.trace (settle env' out (ThenActionsForUnmount d)
                                (CatchActionsForUnmount d) s1)))%nat)
  ∧ (calls m_actionsForUnmount (Js.trace o) = 1%nat
     ∨ ∃ p, ThenCatch p (ThenActionsForUnmount d) (CatchActionsForUnmount d) ∈ Js.trace o).
Proof.
  cbv zeta. rewrite unmount_run. cbv zeta.
  set (d := forced destroy (this s)). set (s1 := with_this (unmounting (this s)) s).
  split_and!.
  - intros f e Hf Hc. rewrite Hf. unfold try_call. rewrite Hc. cbn [fst snd].
    rewrite handleUnmounted_run. cbv zeta.
    pose proof (actionsForUnmount_run env d s1) as H1. cbv zeta in H1.
    destruct (actionsForUnmount env d s1) as [[r2 s2] t2].
    unfold Js.trace, Js.final, Js.result in *. cbn [fst snd] in *.
    destruct H1 as (_ & _ & _ & _ & C & _).
    split_and!; done.
  - intros f p Hf Hc. rewrite Hf. unfold try_call. rewrite Hc. cbn [fst snd].
    rewrite handleUnmounted_run.
    split_and!; try done.
    intros env' out. apply settle_unmount_run.
  - assert (T : ∀ t0 v, Js.isPromise v = false ->
        calls m_actionsForUnmount t0 = 0%nat ->
        calls m_actionsForUnmount
          (Js.trace
             (Js.result (handleUnmounted env d v s1), Js.final (handleUnmounted env d v s1),
              [Call m_unmount] ++ t0
                ++ [DispatchCustomEventToMicroApp "unmount" (name (this s)) None]
                ++ Js.trace (handleUnmounted env d v s1))) = 1%nat).
    { intros t0 v Hv Ht. rewrite handleUnmounted_run.
      pose proof (actionsForUnmount_run env d s1) as H1. cbv zeta in H1.
      destruct (actionsForUnmount env d s1) as [[r2 s2] t2].
      unfold Js.trace, Js.final, Js.result in *.
      destruct H1 as (_ & _ & _ & _ & C & _). cbn [fst snd] in C.
      destruct v; try done; cbn [fst snd];
        change (Call m_handleUnmounted :: t2) with ([Call m_handleUnmounted] ++ t2);
        rewrite !calls_app, C, Ht; done. }
    destruct (umdHookUnmount (this s)) as [f|]; cbn [fst snd];
      [unfold try_call; destruct (callFunc env f) as [v|e]; cbn [fst snd]|].
    + destruct (Js.isPromise v) eqn:Hv.
      * right. destruct v as [| |p|]; try done. exists p.
        rewrite handleUnmounted_run. unfold Js.trace. cbn [snd]. set_solver.
      * left. by apply T.
    + left. by apply T.
    + left. by apply T.
Qed.

(** app1, mounted in UMD mode, with an unmount hook that raises, and with
    one that returns a promise. *)
Lemma unmount_hook_failure_reaches_teardown_witness :
  let s := app1_mounted throwing_env in
  calls m_actionsForUnmount (Js.trace (unmount throwing_env false s)) = 1%nat
  ∧ Js.result (unmount throwing_env false s) = Js.Normal tt
  ∧ (∀ out, (1 <= calls m_actionsForUnmount
                    (Js.trace (settle plain_env out (ThenActionsForUnmount false)
                                 (CatchActionsForUnmount false)
                                 (Js.final (unmount deferring_env false s)))))%nat).
Proof.
  cbv zeta.
  destruct (unmount_hook_failure_reaches_teardown throwing_env
              (app1_mounted throwing_env) false) as (H1 & _ & _).
  destruct (unmount_hook_failure_reaches_teardown deferring_env
              (app1_mounted throwing_env) false) as (_ & H2 & _).
  specialize (H1 2%nat (Js.Raised 0) eq_refl eq_refl).
  specialize (H2 2%nat 3%nat eq_refl eq_refl).
  cbv zeta in H1. destruct H1 as (_ & _ & R & C).
  destruct H2 as (E & _ & _ & S).
  split; [exact C|]. split; [rewrite R; vm_compute; reflexivity|].
  intros out. rewrite E. exact (S plain_env out).
Defined.

(** ** C6 *)

(** What [unmount] leaves in the instance, whatever its hook does. *)
Lemma unmount_state env destroy s :
  let o := unmount env destroy s in
  state (this (Js.final o)) = appStates.UNMOUNT
  ∧ loadSourceLevel (this (Js.final o)) = loadSourceLevel (this s)
  ∧ dispatches lifeCycles.MOUNTED (Js.trace o) = 0%nat
  ∧ calls m_mount (Js.trace o) = 0%nat.
Proof.
  cbv zeta. rewrite unmount_run. cbv zeta. rewrite handleUnmounted_run.
  set (d := forced destroy (this s)). set (s1 := with_this (unmounting (this s)) s).
  pose proof (actionsForUnmount_run env d s1) as H1. cbv zeta in H1.
  destruct (actionsForUnmount env d s1) as [[r2 s2] t2].
  unfold Js.trace, Js.final, Js.result in *. cbn [fst snd] in H1.
  destruct H1 as (H1 & H2 & _ & _ & _ & _ & M & N & _).
  assert (R : ∀ l m, let t0 := match umdHookUnmount (this s) with
                     | Some f => try_call env unmount_msg (name (this s)) f
                     | None => (Js.VUndefined, [])
                     end.2 in
              dispatches l t0 = 0%nat ∧ calls m t0 = 0%nat).
  { intros l m. unfold try_call.
    destruct (umdHookUnmount (this s)) as [f|]; [destruct (callFunc env f)|]; done. }
  destruct (R lifeCycles.MOUNTED m_mount) as [R1 R2].
  match goal with |- context [match ?v with Js.VPromise _ => _ | _ => _ end] =>
    destruct v end; cbn [fst snd];
    rewrite ?H1, ?H2;
    change (Call m_handleUnmounted :: t2) with ([Call m_handleUnmounted] ++ t2);
    rewrite !dispatches_app, !calls_app, ?M, ?N, R1, R2; done.
Qed.

(** C6.  On an instance whose state is [LOAD_SOURCE_ERROR], [unmount] with
    any argument is [unmount(true)].  Either it has run the complete
    destruction in the call, and the registry has no entry under the name
    of the instance; or the unmount hook returned a promise, the teardown
    registered on it is the destroying one, and once the promise settles,
    either way, the registry has no entry under that name. *)
Theorem failed_app_is_destroyed env s destroy :
  state (this s) = appStates.LOAD_SOURCE_ERROR ->
  let o := unmount env destroy s in
  o = unmount env true s
  ∧ ((calls m_actionsForCompletelyDestory (Js.trace o) = 1%nat
      ∧ Js.map_get (name (this s)) (appInstanceMap (Js.final o)) = None)
     ∨ (∃ p, last (Js.trace o)
               = Some (ThenCatch p (ThenActionsForUnmount true) (CatchActionsForUnmount true))
             ∧ ∀ env' out,
                 let o' := settle env' out (ThenActionsForUnmount true)
                             (CatchActionsForUnmount true) (Js.final o) in
                 (1 <= calls m_actionsForCompletelyDestory (Js.trace o'))%nat
                 ∧ Js.map_get (name (this s)) (appInstanceMap (Js.final o')) = None)).
Proof.
  intros E. cbv zeta.
  assert (F : ∀ x, forced x (this s) = true).
  { intros x. unfold forced. by rewrite bool_decide_true. }
  rewrite !unmount_run. cbv zeta. rewrite !F. split; [reflexivity|].
  set (s1 := with_this (unmounting (this s)) s).
  rewrite handleUnmounted_run.
  match goal with |- context [match ?v with Js.VPromise _ => _ | _ => _ end] =>
    set (r := v) end.
  destruct (Js.isPromise r) eqn:Hr.
  - right. destruct r as [| |p|]; try done. exists p.
    unfold Js.trace, Js.final. cbn [fst snd]. split.
    + match goal with |- context [[Call m_handleUnmounted; ?x]] =>
        change [Call m_handleUnmounted; x] with ([Call m_handleUnmounted] ++ [x]) end.
      rewrite !app_assoc. apply last_snoc.
    + intros env' out. cbv zeta.
      destruct (settle_unmount_run env' out true s1) as (_ & _ & _ & _ & _ & D).
      exact (D eq_refl).
  - left.
    pose proof (actionsForUnmount_run env true s1) as H1. cbv zeta in H1.
    destruct (actionsForUnmount env true s1) as [[r2 s2] t2].
    unfold Js.trace, Js.final, Js.result in *. cbn [fst snd] in H1.
    destruct H1 as (_ & _ & _ & _ & _ & _ & _ & _ & D & _).
    destruct (D eq_refl) as [C M].
    assert (R : calls m_actionsForCompletelyDestory
                  match umdHookUnmount (this s) with
                  | Some f => try_call env unmount_msg (name (this s)) f
                  | None => (Js.VUndefined, [])
                  end.2 = 0%nat).
    { unfold try_call.
      destruct (umdHookUnmount (this s)) as [f|]; [destruct (callFunc env f)|]; done. }
    destruct r; try done; cbn [fst snd];
      change (Call m_handleUnmounted :: t2) with ([Call m_handleUnmounted] ++ t2);
      rewrite !calls_app, C, R, M; (split; [done|apply map_get_delete]).
Qed.

Lemma failed_app_is_destroyed_witness :
  let o := unmount plain_env false app1_failed in
  o = unmount plain_env true app1_failed
  ∧ calls m_actionsForCompletelyDestory (Js.trace o) = 1%nat
  ∧ Js.map_get "app1" (appInstanceMap (Js.final o)) = None.
Proof.
  cbv zeta.
  destruct (failed_app_is_destroyed plain_env app1_failed false eq_refl) as [E [[C M]|[p [L _]]]].
  - split; [exact E|]. split; [exact C|exact M].
  - exfalso. vm_compute in L. discriminate L.
Defined.

(** ** C2 *)

(** In state [UNMOUNT] a settled promise, whatever was registered on it,
    leaves the state [UNMOUNT], calls no [mount] and dispatches no mounted
    event. *)
Lemma settle_quiet env out kf kr s :
  state (this s) = appStates.UNMOUNT ->
  let o := settle env out kf kr s in
  state (this (Js.final o)) = appStates.UNMOUNT
  ∧ calls m_mount (Js.trace o) = 0%nat
  ∧ dispatches lifeCycles.MOUNTED (Js.trace o) = 0%nat.
Proof.
  intros U. cbv zeta.
  assert (T : ∀ k s', state (this s') = appStates.UNMOUNT ->
                state (this (Js.final (runThen env k s'))) = appStates.UNMOUNT
                ∧ calls m_mount (Js.trace (runThen env k s')) = 0%nat
                ∧ dispatches lifeCycles.MOUNTED (Js.trace (runThen env k s')) = 0%nat).
  { intros [|d] s' U'; cbn [runThen].
    - rewrite dispatchMountedEvent_run, U'. done.
    - destruct (actionsForUnmount_run env d s') as (-> & _ & _ & _ & _ & _ & -> & -> & _).
      done. }
  assert (C : ∀ k e s', state (this s') = appStates.UNMOUNT ->
                state (this (Js.final (runCatch env k e s'))) = appStates.UNMOUNT
                ∧ calls m_mount (Js.trace (runCatch env k e s')) = 0%nat
                ∧ dispatches lifeCycles.MOUNTED (Js.trace (runCatch env k e s')) = 0%nat).
  { intros [|d] e s' U'; cbn [runCatch].
    - destruct s' as [a m]. unfold onerror. unfold_m. cbn. done.
    - destruct (actionsForUnmount_run env d s') as (-> & _ & _ & _ & _ & _ & -> & -> & _).
      done. }
  destruct out as [|reason]; cbn [settle]; [|by apply C].
  unfold try_catch. pose proof (T kf s U) as T1.
  destruct (runThen env kf s) as [[[[]|e] s1] t1]; [done|].
  unfold Js.final, Js.trace in T1. cbn [fst snd] in T1. destruct T1 as (U1 & M1 & D1).
  pose proof (C kr e s1 U1) as C1.
  destruct (runCatch env kr e s1) as [[r2 s2] t2].
  unfold Js.final, Js.trace in *. cbn [fst snd] in *. destruct C1 as (U2 & M2 & D2).
  rewrite calls_app, dispatches_app, M1, M2, D1, D2. done.
Qed.

(** In state [UNMOUNT] a late completion leaves the state [UNMOUNT], calls
    no [mount] and dispatches no mounted event. *)
Lemma late_completion_quiet s ev :
  state (this s) = appStates.UNMOUNT -> late_completion ev ->
  state (this (occur s ev).1) = appStates.UNMOUNT
  ∧ calls m_mount (occur s ev).2 = 0%nat
  ∧ dispatches lifeCycles.MOUNTED (occur s ev).2 = 0%nat.
Proof.
  intros U Lc. destruct ev as [env h|e|? ? ? ?|? ?|?|?|env cb c|env out kf kr];
    try done; cbn [occur fst snd].
  - pose proof (onLoad_run env h s) as E. cbv zeta in E.
    rewrite U, (bool_decide_true (appStates.UNMOUNT = appStates.UNMOUNT)) in E by done.
    rewrite orb_true_r in E. rewrite E.
    destruct (bool_decide (loadSourceLevel (this s) + 1 = 2)); done.
  - destruct s as [a m]. cbn in U. unfold onLoadError. unfold_m. cbn. rewrite U. done.
  - destruct (execScriptsCallback_run env cb c s)
      as (c2 & s2 & t2 & E2 & _ & _ & _ & H & _ & Ef).
    rewrite E2. destruct (H U) as [? ?]. split_and!; try done.
    by apply callback_effects_calls.
  - by apply settle_quiet.
Qed.

Lemma late_completions_quiet history : ∀ s,
  state (this s) = appStates.UNMOUNT -> Forall late_completion history ->
  state (this (play s history).1) = appStates.UNMOUNT
  ∧ calls m_mount (play s history).2 = 0%nat
  ∧ dispatches lifeCycles.MOUNTED (play s history).2 = 0%nat.
Proof.
  induction history as [|ev history IH]; intros s U F; [done|].
  apply Forall_cons in F as [Lc F]. cbn [play].
  destruct (late_completion_quiet s ev U Lc) as (U1 & M1 & D1).
  destruct (occur s ev) as [s1 t1]. cbn [fst snd] in *.
  destruct (IH s1 U1 F) as (U2 & M2 & D2).
  destruct (play s1 history) as [s2 t2]. cbn [fst snd] in *.
  rewrite calls_app, dispatches_app, M1, M2, D1, D2. done.
Qed.

(** C2.  After [unmount(true)] the state is [UNMOUNT] and the load counter
    is where it was.  An [onLoad] that arrives then makes no call, hence no
    [mount], whatever the counter; from a counter of 1 it brings it to 2 and
    stores the fragment, and the state stays [UNMOUNT].  More generally, in
    state [UNMOUNT] every late completion leaves the state [UNMOUNT] and
    dispatches no mounted event: [onLoad] only counts, [onLoadError] only
    sets the counter, [dispatchMountedEvent] and [handleMounted] change
    nothing, a completion callback of [execScripts] and the teardown run by
    a settled unmount promise keep the state.  So after [unmount(true)], as
    long as only completions of what was started before arrive (resource
    channels, script batches, promises), in any number and order, the state
    stays [UNMOUNT], [mount] is not called and no mounted event is
    dispatched. *)
Theorem late_completion_after_unmount env env' s html' :
  let s1 := Js.final (unmount env true s) in
  let o := onLoad env' html' s1 in
  state (this s1) = appStates.UNMOUNT
  ∧ loadSourceLevel (this s1) = loadSourceLevel (this s)
  ∧ Js.trace o = [Call m_onLoad]
  ∧ calls m_mount (Js.trace o) = 0%nat
  ∧ dispatches lifeCycles.MOUNTED (Js.trace o) = 0%nat
  ∧ state (this (Js.final o)) = appStates.UNMOUNT
  ∧ (loadSourceLevel (this s) = 1 ->
       loadSourceLevel (this (Js.final o)) = 2
       ∧ html (source (this (Js.final o))) = Js.Node html')
  ∧ (∀ env'' h s', state (this s') = appStates.UNMOUNT ->
       let o' := onLoad env'' h s' in
       Js.trace o' = [Call m_onLoad]
       ∧ state (this (Js.final o')) = appStates.UNMOUNT
       ∧ loadSourceLevel (this (Js.final o')) = loadSourceLevel (this s') + 1)
  ∧ (∀ e s', state (this s') = appStates.UNMOUNT ->
       onLoadError e s' =
         (Js.Normal tt, with_this (set_loadSourceLevel (-1) (this s')) s',
          [Call m_onLoadError]))
  ∧ (∀ s', state (this s') = appStates.UNMOUNT ->
       dispatchMountedEvent s' = (Js.Normal tt, s', [Call m_dispatchMountedEvent]))
  ∧ (∀ v s', state (this s') = appStates.UNMOUNT ->
       Js.final (handleMounted v s') = s'
       ∧ dispatches lifeCycles.MOUNTED (Js.trace (handleMounted v s')) = 0%nat)
  ∧ (∀ env'' cb c s', state (this s') = appStates.UNMOUNT ->
       let o' := execScriptsCallback env'' cb c s' in
       state (this (Js.final o')) = appStates.UNMOUNT
       ∧ dispatches lifeCycles.MOUNTED (Js.trace o') = 0%nat)
  ∧ (∀ env'' out d s', state (this s') = appStates.UNMOUNT ->
       let o' := settle env'' out (ThenActionsForUnmount d) (CatchActionsForUnmount d) s' in
       state (this (Js.final o')) = appStates.UNMOUNT
       ∧ dispatches lifeCycles.MOUNTED (Js.trace o') = 0%nat)
  ∧ (∀ history, Forall late_completion history ->
       state (this (play s1 history).1) = appStates.UNMOUNT
       ∧ calls m_mount (play s1 history).2 = 0%nat
       ∧ dispatches lifeCycles.MOUNTED (play s1 history).2 = 0%nat).
Proof.
  cbv zeta.
  assert (A : ∀ env'' h s', state (this s') = appStates.UNMOUNT ->
       Js.trace (onLoad env'' h s') = [Call m_onLoad]
       ∧ state (this (Js.final (onLoad env'' h s'))) = appStates.UNMOUNT
       ∧ loadSourceLevel (this (Js.final (onLoad env'' h s')))
         = loadSourceLevel (this s') + 1
       ∧ (loadSourceLevel (this s') = 1 ->
            html (source (this (Js.final (onLoad env'' h s')))) = Js.Node h)).
  { intros env'' h s' U.
    pose proof (onLoad_run env'' h s') as E. cbv zeta in E.
    rewrite U, (bool_decide_true (appStates.UNMOUNT = appStates.UNMOUNT)) in E by done.
    rewrite orb_true_r in E. rewrite E.
    destruct (decide (loadSourceLevel (this s') + 1 = 2)) as [L|L].
    - rewrite (bool_decide_true _ L). split_and!; done.
    - rewrite (bool_decide_false _ L). split_and!; try done. intros L1. lia. }
  destruct (unmount_state env true s) as (U & L & _ & _).
  set (s1 := Js.final (unmount env true s)) in *. clearbody s1.
  destruct (A env' html' s1 U) as (O1 & O2 & O3 & O4). rewrite O1.
  split_and!; try done.
  - intros L1. split; [lia|]. apply O4. lia.
  - intros env'' h s' Hs. cbv zeta. destruct (A env'' h s' Hs) as (? & ? & ? & _). done.
  - intros e s' Hs. unfold onLoadError. unfold_m. cbn. rewrite Hs. done.
  - intros s' Hs. rewrite dispatchMountedEvent_run, Hs. done.
  - intros v s' Hs.
    destruct (handleMounted_sound v s') as (s2 & t2 & E2 & _ & _ & _ & _ & H).
    rewrite E2. exact (H Hs).
  - intros env'' cb c s' Hs. cbv zeta.
    destruct (execScriptsCallback_run env'' cb c s')
      as (c2 & s2 & t2 & E2 & _ & _ & _ & H & _).
    rewrite E2. exact (H Hs).
  - intros env'' out d s' Hs. cbv zeta.
    destruct (settle_unmount_run env'' out d s') as (-> & _ & _ & -> & _).
    done.
  - intros history F. by apply late_completions_quiet.
Qed.

(** The spec's scenario: app1 is unmounted with [destroy] while one channel
    is still pending; the second [onLoad] then mounts nothing, dispatches no
    mounted event, and the registry no longer has app1. *)
Lemma late_completion_after_unmount_witness :
  let s1 := Js.final (unmount plain_env true app1_half_loaded) in
  let o := onLoad plain_env 6%nat s1 in
  loadSourceLevel (this app1_half_loaded) = 1
  ∧ state (this s1) = appStates.UNMOUNT
  ∧ loadSourceLevel (this (Js.final o)) = 2
  ∧ calls m_mount (Js.trace o) = 0%nat
  ∧ dispatches lifeCycles.MOUNTED (Js.trace o) = 0%nat
  ∧ state (this (Js.final o)) = appStates.UNMOUNT
  ∧ Js.map_get "app1" (appInstanceMap (Js.final o)) = None
  ∧ calls m_mount
      (play s1 [EvOnLoad plain_env 6%nat;
                EvCallback throwing_env (batch true umd_exports) fresh_closure;
                EvSettled plain_env Fulfilled ThenDispatchMountedEvent CatchOnerror]).2
    = 0%nat.
Proof.
  cbv zeta.
  destruct (late_completion_after_unmount plain_env plain_env app1_half_loaded 6%nat)
    as (U & _ & _ & C & D & S & L & _ & _ & _ & _ & _ & _ & H).
  split; [reflexivity|]. split; [exact U|]. split; [exact (proj1 (L eq_refl))|].
  split; [exact C|]. split; [exact D|]. split; [exact S|].
  split; [vm_compute; reflexivity|].
  apply H. repeat constructor.
Defined.

(** ** C8 *)








(** ** C10 *)

Lemma getActiveApps_filter w :
  getActiveApps w = (filter (λ e, is_active w e = true) (instances w)).*1.
Proof.
  unfold getActiveApps.
  assert (G : ∀ l acc,
    foldl (fun activeApps (entry : string * nat) =>
             match objects w !! entry.2 with
             | Some app =>
                 if bool_decide (appStates.UNMOUNT ≠ getAppState app)
                    && negb (isPrefetch app)
                 then activeApps ++ [entry.1]
                 else activeApps
             | None => activeApps
             end) acc l
    = acc ++ (filter (λ e, is_active w e = true) l).*1).
  { induction l as [|e l IH]; intros acc; [cbn; by rewrite app_nil_r|].
    cbn [foldl]. rewrite IH, filter_cons.
    assert (A : is_active w e =
                match objects w !! e.2 with
                | Some app => bool_decide (appStates.UNMOUNT ≠ getAppState app)
                              && negb (isPrefetch app)
                | None => false
                end).
    { unfold is_active, getAppState. destruct (objects w !! e.2); [|done].
      f_equal. apply bool_decide_ext. split; intros H ?; by apply H. }
    destruct (objects w !! e.2) as [app|];
      [destruct (bool_decide _ && _)|]; case_decide; try congruence;
      by rewrite <- ?app_assoc. }
  apply (G (instances w) []).
Qed.

Lemma elem_of_getActiveApps w n :
  n ∈ getActiveApps w <->
  ∃ r app, (n, r) ∈ instances w ∧ objects w !! r = Some app
           ∧ state app ≠ appStates.UNMOUNT ∧ isPrefetch app = false.
Proof.
  rewrite getActiveApps_filter, list_elem_of_fmap. split.
  - intros ([n' r] & -> & AI). apply list_elem_of_filter in AI as [A I].
    unfold is_active in A. cbn in *.
    destruct (objects w !! r) as [app|] eqn:O; [|done].
    apply andb_true_iff in A as [A1 A2].
    apply bool_decide_eq_true in A1. apply negb_true_iff in A2. eauto 10.
  - intros (r & app & I & O & S & P). exists (n, r). split; [done|].
    apply list_elem_of_filter. split; [|done].
    unfold is_active. cbn. rewrite O, P, bool_decide_true by done. done.
Qed.

(** C10.  [getActiveApps] returns, in registry order, the keys of the
    entries whose instance is not in state [UNMOUNT] and is not a prefetch;
    [getAllApps] returns the key of every entry, whatever its state.  An
    instance flagged as prefetch is not listed as active, and stays so after
    an [onLoad], which keeps the flag: so also after both channels have
    completed. *)
Theorem active_apps_listing w :
  getActiveApps w = (filter (λ e, is_active w e = true) (instances w)).*1
  ∧ (∀ n, n ∈ getActiveApps w <->
          ∃ r app, (n, r) ∈ instances w ∧ objects w !! r = Some app
                   ∧ state app ≠ appStates.UNMOUNT ∧ isPrefetch app = false)
  ∧ getAllApps w = (instances w).*1
  ∧ (∀ n, n ∈ getAllApps w <-> ∃ r, (n, r) ∈ instances w)
  ∧ (∀ env h r n app,
       objects w !! r = Some app -> isPrefetch app = true ->
       (∀ r', (n, r') ∈ instances w -> r' = r) ->
       (n ∉ getActiveApps w)
       ∧ ∃ res w' t app',
           invoke r (onLoad env h) w = Some (res, w', t)
           ∧ objects w' !! r = Some app'
           ∧ isPrefetch app' = true
           ∧ loadSourceLevel app' = loadSourceLevel app + 1
           ∧ instances w' = instances w
           ∧ (n ∉ getActiveApps w')).
Proof.
  split; [apply getActiveApps_filter|].
  split; [apply elem_of_getActiveApps|].
  split; [reflexivity|].
  split.
  { intros n. unfold getAllApps, Js.map_keys. rewrite list_elem_of_fmap. split.
    - intros ([n' r] & -> & I). eauto.
    - intros (r & I). by exists (n, r). }
  intros env h r n app O P Uq. split.
  { rewrite elem_of_getActiveApps. intros (r' & app' & I & O' & _ & P').
    rewrite (Uq r' I) in O'. congruence. }
  unfold invoke. rewrite O. cbn [mbind option_bind].
  set (s := {| this := app; appInstanceMap := instances w |}).
  pose proof (onLoad_run env h s) as E. cbv zeta in E.
  change (this s) with app in E. rewrite P in E. cbn [orb] in E.
  destruct (onLoad env h s) as [[res s'] t].
  eexists _, _, _, (this s'). split; [reflexivity|].
  unfold Js.final. cbn [fst snd objects instances].
  rewrite lookup_insert_eq.
  assert (F : isPrefetch (this s') = true
              ∧ loadSourceLevel (this s') = loadSourceLevel app + 1
              ∧ appInstanceMap s' = instances w).
  { destruct (bool_decide (loadSourceLevel app + 1 = 2)); simplify_eq; done. }
  destruct F as (F1 & F2 & F3).
  split_and!; try done.
  rewrite elem_of_getActiveApps. cbn [objects instances].
  intros (r' & app' & I & O' & _ & P').
  rewrite F3 in I. rewrite (Uq r' I), lookup_insert_eq in O'. congruence.
Qed.

(** app1 is registered as a prefetch and app2 is unmounted: neither is
    active, both are registered; app1 is still not active after its two
    channels have completed. *)
Lemma active_apps_listing_witness :
  getActiveApps page = []
  ∧ getAllApps page = ["app1"; "app2"]
  ∧ ∃ r1 w1 t1 r2 w2 t2,
      invoke 0%nat (onLoad plain_env 5%nat) page = Some (r1, w1, t1)
      ∧ invoke 0%nat (onLoad plain_env 6%nat) w1 = Some (r2, w2, t2)
      ∧ (loadSourceLevel <$> objects w2 !! 0%nat) = Some 2
      ∧ "app1" ∉ getActiveApps w2.
Proof.
  destruct (active_apps_listing page) as (_ & _ & A & _ & H).
  split; [vm_compute; reflexivity|]. split; [rewrite A; reflexivity|].
  assert (U : ∀ w, instances w = instances page ->
                ∀ r', ("app1", r') ∈ instances w -> r' = 0%nat).
  { intros w -> r' I. cbn in I.
    apply elem_of_cons in I as [I|I]; [by simplify_eq|].
    apply elem_of_cons in I as [I|I]; [by simplify_eq|].
    by apply elem_of_nil in I. }
  destruct (H plain_env 5%nat 0%nat "app1" (this (prefetched app1)) eq_refl eq_refl
              (U page eq_refl))
    as (_ & r1 & w1 & t1 & a1 & E1 & O1 & P1 & L1 & I1 & _).
  destruct (active_apps_listing w1) as (_ & _ & _ & _ & H1).
  destruct (H1 plain_env 6%nat 0%nat "app1" a1 O1 P1 (U w1 I1))
    as (_ & r2 & w2 & t2 & a2 & E2 & O2 & P2 & L2 & I2 & N2).
  exists r1, w1, t1, r2, w2, t2.
  split; [exact E1|]. split; [exact E2|]. split; [|exact N2].
  rewrite O2. cbn. f_equal. rewrite L2, L1. reflexivity.
Defined.

(** ** The cached hooks *)

(** A new instance is not in UMD mode, and no method takes an instance into
    UMD mode without caching the two hooks, nor drops them afterwards. *)

Lemma hooks_cached_new p : hooks_cached (new_CreateApp p).1.
Proof.
  unfold hooks_cached, new_CreateApp, constructor, loadSourceCode. unfold_m.
  cbn. destruct (p_useSandbox p); cbn; done.
Qed.

Lemma hooks_cached_same a a' :
  umdMode a' = umdMode a -> umdHookMount a' = umdHookMount a ->
  umdHookUnmount a' = umdHookUnmount a ->
  hooks_cached a -> hooks_cached a'.
Proof. unfold hooks_cached. by intros -> -> ->. Qed.

Lemma handleMounted_hooks v s :
  hooks_cached (this s) -> hooks_cached (this (Js.final (handleMounted v s))).
Proof.
  rewrite handleMounted_run. destruct v; try case_bool_decide; done.
Qed.

Lemma detectUmd_hooks env cb c s :
  hooks_cached (this s) -> hooks_cached (this (Js.final (detectUmd env cb c s))).
Proof.
  destruct s as [a m]. destruct a, c as [flag res].
  unfold hooks_cached, detectUmd, getUmdLibraryHooks. unfold_m. cbn.
  destruct umdMode0; cbn; [done|]. intros _.
  destruct (bool_decide (appStates.UNMOUNT ≠ state0)); cbn; [|done].
  destruct container0 as [| |el]; cbn; try done.
  match goal with
  | |- context [match ?g ?k with Js.GNotObject => _ | Js.GNull => _ | Js.GObject _ _ => _ end] =>
      destruct (g k) as [| |[|fm| |] u]; cbn; try done
  end.
  destruct u as [|fu| |]; cbn; try done.
  destruct (bool_decide (is_Some sandBox0)), (callFunc env fm); cbn; eauto.
Qed.

Lemma execScriptsCallback_hooks env cb c s :
  hooks_cached (this s) ->
  hooks_cached (this (Js.final (execScriptsCallback env cb c s))).
Proof.
  intros W. pose proof (detectUmd_hooks env cb c s W) as W1.
  destruct (detectUmd env cb c s) as [[[c1|e] s1] t1] eqn:E1.
  2: { unfold execScriptsCallback. by rewrite (bind_raise _ _ _ _ _ _ E1). }
  unfold execScriptsCallback. rewrite (bind_run _ _ _ _ _ _ E1).
  unfold Js.final in *. cbn [fst snd] in *. unfold_m.
  destruct (negb (hasDispatchMountedEvent c1) && (isFinished cb || umdMode (this s1))); [|done].
  pose proof (handleMounted_hooks (umdHookMountResult c1) s1 W1) as W2.
  destruct (handleMounted (umdHookMountResult c1) s1) as [[[] s2] t2]; done.
Qed.

Lemma execScripts_hooks env runs : ∀ c s,
  hooks_cached (this s) -> hooks_cached (this (Js.final (execScripts env runs c s))).
Proof.
  induction runs as [|cb runs IH]; intros c s W; [done|]. cbn [execScripts].
  pose proof (execScriptsCallback_hooks env cb c s W) as W1.
  destruct (execScriptsCallback env cb c s) as [[[c1|e] s1] t1] eqn:E1.
  - rewrite (bind_run _ _ _ _ _ _ E1).
    unfold Js.final in *. cbn [fst snd] in *. by apply IH.
  - by rewrite (bind_raise _ _ _ _ _ _ E1).
Qed.

Lemma mount_hooks env c i b s :
  hooks_cached (this s) -> hooks_cached (this (Js.final (mount env c i b s))).
Proof.
  intros W.
  assert (Wa : ∀ st, hooks_cached (set_state st (adopt c i b (this s)))).
  { intros st. eapply hooks_cached_same; [..|exact W];
      destruct i as [x|]; cbn; try case_bool_decide; done. }
  destruct (decide (loadSourceLevel (this s) = 2)) as [L|L].
  - destruct (umdMode (this s)) eqn:U.
    + rewrite (mount_umd env c i b s L U). unfold Js.final at 1. cbn [fst snd].
      apply handleMounted_hooks, Wa.
    + rewrite (mount_scripts env c i b s L U). unfold Js.final at 1. cbn [fst snd].
      apply execScripts_hooks, Wa.
  - rewrite (mount_not_loaded env c i b s L). apply Wa.
Qed.

Lemma onLoad_hooks env h s :
  hooks_cached (this s) -> hooks_cached (this (Js.final (onLoad env h s))).
Proof.
  intros W. rewrite onLoad_run. cbv zeta.
  destruct (bool_decide (loadSourceLevel (this s) + 1 = 2)); [|done].
  destruct (isPrefetch (this s) || _); [done|].
  unfold Js.final at 1. cbn [fst snd]. by apply mount_hooks.
Qed.

Lemma onLoadError_hooks e s :
  hooks_cached (this s) -> hooks_cached (this (Js.final (onLoadError e s))).
Proof.
  destruct s as [a m]. unfold onLoadError, onerror. unfold_m. cbn.
  case_bool_decide; done.
Qed.

Lemma actionsForUnmount_hooks env d s :
  hooks_cached (this s) -> hooks_cached (this (Js.final (actionsForUnmount env d s))).
Proof.
  destruct s as [a m]. destruct a.
  unfold hooks_cached, actionsForUnmount, actionsForCompletelyDestory. unfold_m. cbn.
  destruct d, umdMode0, useSandbox0, sandBox0, container0; cbn;
    repeat case_bool_decide; cbn; done.
Qed.

Lemma unmount_hooks env d s :
  hooks_cached (this s) -> hooks_cached (this (Js.final (unmount env d s))).
Proof.
  intros W. rewrite unmount_run. cbv zeta. rewrite handleUnmounted_run.
  assert (W1 : hooks_cached (this (with_this (unmounting (this s)) s))) by done.
  match goal with |- context [match ?v with Js.VPromise _ => _ | _ => _ end] =>
    destruct v end; try done;
    unfold Js.final at 1; cbn [fst snd]; by apply actionsForUnmount_hooks.
Qed.

Lemma hiddenKeepAliveApp_hooks env s :
  hooks_cached (this s) -> hooks_cached (this (Js.final (hiddenKeepAliveApp env s))).
Proof.
  destruct s as [a m]. destruct a.
  unfold hooks_cached, hiddenKeepAliveApp. unfold_m. cbn.
  destruct keepAliveContainer0; cbn; done.
Qed.

Lemma showKeepAliveApp_hooks c s :
  hooks_cached (this s) -> hooks_cached (this (Js.final (showKeepAliveApp c s))).
Proof.
  destruct s as [a m]. destruct a.
  unfold hooks_cached, showKeepAliveApp. unfold_m. cbn. done.
Qed.

Lemma settle_hooks env out kf kr s :
  hooks_cached (this s) -> hooks_cached (this (Js.final (settle env out kf kr s))).
Proof.
  intros W.
  assert (T : ∀ k s', hooks_cached (this s') ->
                hooks_cached (this (Js.final (runThen env k s')))).
  { intros [|d] s' W'; cbn [runThen]; [|by apply actionsForUnmount_hooks].
    rewrite dispatchMountedEvent_run. case_bool_decide; done. }
  assert (C : ∀ k e s', hooks_cached (this s') ->
                hooks_cached (this (Js.final (runCatch env k e s')))).
  { intros [|d] e s' W'; cbn [runCatch]; [done|by apply actionsForUnmount_hooks]. }
  destruct out as [|reason]; cbn [settle]; [|by apply C].
  unfold try_catch. pose proof (T kf s W) as W1.
  destruct (runThen env kf s) as [[[[]|e] s1] t1]; [done|].
  unfold Js.final in W1. cbn [fst snd] in W1.
  pose proof (C kr e s1 W1) as W2.
  destruct (runCatch env kr e s1) as [[r2 s2] t2]. done.
Qed.

(** Whatever happens to an instance after it is built, if it is in UMD mode
    it holds both hooks. *)
Lemma hooks_cached_after p m history :
  hooks_cached
    (this (play {| this := (new_CreateApp p).1; appInstanceMap := m |} history).1).
Proof.
  assert (G : ∀ s, hooks_cached (this s) -> hooks_cached (this (play s history).1)).
  { induction history as [|ev history IH]; intros s W; [done|].
    cbn [play].
    assert (W1 : hooks_cached (this (occur s ev).1)).
    { destruct ev; cbn [occur fst].
      - by apply onLoad_hooks.
      - by apply onLoadError_hooks.
      - by apply mount_hooks.
      - by apply unmount_hooks.
      - by apply hiddenKeepAliveApp_hooks.
      - by apply showKeepAliveApp_hooks.
      - by apply execScriptsCallback_hooks.
      - by apply settle_hooks. }
    destruct (occur s ev) as [s1 t1]. specialize (IH s1 W1).
    destruct (play s1 history) as [s2 t2]. done. }
  apply G, hooks_cached_new.
Qed.

(** * The router glue *)

(** ** The model of the helpers *)

Lemma map_get_set {V} k v (m : Js.Map V) : Js.map_get k (Js.map_set k v m) = Some v.
Proof.
  induction m as [|[k' v'] m IH]; cbn.
  - by rewrite decide_True.
  - case_decide as E; cbn; [by rewrite decide_True|by rewrite decide_False].
Qed.

Lemma map_get_set_ne {V} k k' v (m : Js.Map V) :
  k ≠ k' -> Js.map_get k' (Js.map_set k v m) = Js.map_get k' m.
Proof.
  intros N. induction m as [|[k0 v0] m IH]; cbn.
  - by rewrite decide_False.
  - case_decide as E; cbn.
    + subst k0. by rewrite !decide_False.
    + by rewrite IH.
Qed.

Lemma break_spec stop s :
  (RouterModel.break stop s).1 +:+ (RouterModel.break stop s).2 = s
  ∧ RouterModel.avoids stop (RouterModel.break stop s).1 = true
  ∧ RouterModel.stops stop (RouterModel.break stop s).2 = true.
Proof.
  induction s as [|c s (IH1 & IH2 & IH3)]; [done|]. cbn [RouterModel.break].
  destruct (stop c) eqn:Sc; [cbn; split_and!; done|].
  destruct (RouterModel.break stop s) as [pre rest]. cbn [fst snd] in *.
  split_and!; [|cbn; by rewrite Sc, IH2|done].
  rewrite <- IH1. reflexivity.
Qed.

Lemma break_avoids stop p r :
  RouterModel.avoids stop p = true -> RouterModel.stops stop r = true ->
  RouterModel.break stop (p +:+ r) = (p, r).
Proof.
  intros A S. induction p as [|c p IH].
  - destruct r as [|c r]; [done|]. change ("" +:+ String c r) with (String c r).
    cbn in *. by rewrite S.
  - cbn in A. apply andb_true_iff in A as [Nc A]. apply negb_true_iff in Nc.
    change (String c p +:+ r) with (String c (p +:+ r)).
    cbn [RouterModel.break]. by rewrite Nc, (IH A).
Qed.

(** The first character of the part before the stop is the first of the
    whole. *)
Lemma break_head stop c s c' s' :
  (RouterModel.break stop (String c s)).1 = String c' s' -> c' = c.
Proof.
  cbn [RouterModel.break]. destruct (stop c); [done|].
  destruct (RouterModel.break stop s). cbn. congruence.
Qed.

Lemma is_hash_stop c :
  RouterModel.is_hash c = true -> RouterModel.is_question_or_hash c = true.
Proof. unfold RouterModel.is_hash, RouterModel.is_question_or_hash. intros ->. apply orb_true_r. Qed.

(** Reading back the three parts put together gives them again. *)
Lemma parsePath_encode u :
  RouterModel.well_formed u = true -> RouterModel.parsePath (RouterModel.encode u) = u.
Proof.
  destruct u as [p q h]. unfold RouterModel.well_formed, RouterModel.encode,
    RouterModel.parsePath. cbn [Router.pathname Router.search Router.hash].
  intros W. apply andb_true_iff in W as [W H]. apply andb_true_iff in W as [W H0].
  apply andb_true_iff in W as [W H1].
  rewrite (break_avoids RouterModel.is_question_or_hash p (q +:+ h)); [|done|].
  - by rewrite (break_avoids RouterModel.is_hash q h).
  - destruct q as [|c q].
    + destruct h as [|c h]; [done|]. by apply is_hash_stop.
    + change (RouterModel.is_question_or_hash c = true).
      unfold RouterModel.is_question_or_hash. by rewrite H0.
Qed.

Lemma parsePath_well_formed path :
  RouterModel.well_formed (RouterModel.parsePath path) = true.
Proof.
  unfold RouterModel.parsePath.
  destruct (break_spec RouterModel.is_question_or_hash path) as (_ & A1 & S1).
  destruct (RouterModel.break RouterModel.is_question_or_hash path) as [p rest].
  destruct (break_spec RouterModel.is_hash rest) as (_ & A2 & S2).
  pose proof (break_head RouterModel.is_hash) as Hd.
  destruct (RouterModel.break RouterModel.is_hash rest) as [q h] eqn:B.
  cbn [fst snd] in *.
  unfold RouterModel.well_formed. cbn [Router.pathname Router.search Router.hash].
  rewrite A1, A2, S2. cbn [andb]. rewrite andb_true_r.
  destruct q as [|c q]; [done|].
  destruct rest as [|c0 rest]; [done|].
  assert (c = c0) as ->.
  { apply (Hd c0 rest c q). by rewrite B. }
  cbn in S1, A2. unfold RouterModel.is_question_or_hash in S1.
  apply andb_true_iff in A2 as [N _]. apply negb_true_iff in N.
  unfold RouterModel.is_hash in N. rewrite N, orb_false_r in S1. exact S1.
Qed.

Lemma createURL_well_formed url :
  RouterModel.well_formed (RouterModel.createURL url) = true.
Proof.
  unfold RouterModel.createURL.
  pose proof (parsePath_well_formed
                (RouterModel.break RouterModel.is_path_start
                   (RouterModel.afterScheme url)).2) as W.
  destruct (RouterModel.parsePath _) as [p q h].
  unfold RouterModel.well_formed in *.
  cbn [Router.pathname Router.search Router.hash] in *.
  repeat (apply andb_true_iff in W as [W ?]).
  destruct p as [|c p], q as [|c1 [|c2 q]], h as [|c3 [|c4 h]]; cbn in *;
    repeat match goal with
           | H : _ && _ = true |- _ => apply andb_true_iff in H as [? ?]
           end;
    repeat (apply andb_true_iff; split); done.
Qed.

(** ** C4 *)

(** C4.  With the helpers modelled from the spec:
    [clearRouteStateFromURL] with [keepRouteState] true hands back the
    virtual location it was given; with [keepRouteState] false it hands
    back the pathname, search and hash of the URL made from the base url
    of the app.  In both cases the browser is the one
    [removeStateAndPathFromBrowser] leaves: its URL has no segment for the
    app and its [history.state] no state of the app, while the segments
    and states of the other apps, the path of the host page and its own
    state are as they were. *)
Theorem clearRouteStateFromURL_keeps_or_resets appName url loc keep b :
  let r := Router.clearRouteStateFromURL RouterModel.imports appName url loc keep b in
  (keep = true -> r.1 = loc)
  ∧ (keep = false -> r.1 = RouterModel.createURL url)
  ∧ r.2 = Router.removeStateAndPathFromBrowser RouterModel.imports appName url b
  ∧ Router.getMicroPathFromURL RouterModel.imports appName r.2 = None
  ∧ Js.map_get appName (RouterModel.microAppState (RouterModel.state r.2)) = None
  ∧ (∀ other, appName ≠ other ->
       Router.getMicroPathFromURL RouterModel.imports other r.2
       = Router.getMicroPathFromURL RouterModel.imports other b
       ∧ Js.map_get other (RouterModel.microAppState (RouterModel.state r.2))
         = Js.map_get other (RouterModel.microAppState (RouterModel.state b)))
  ∧ RouterModel.hostPath (RouterModel.location r.2)
    = RouterModel.hostPath (RouterModel.location b)
  ∧ RouterModel.hostState (RouterModel.state r.2)
    = RouterModel.hostState (RouterModel.state b).
Proof.
  cbv zeta. unfold Router.clearRouteStateFromURL, Router.removeStateAndPathFromBrowser.
  cbn. split_and!; try done.
  - by intros ->.
  - intros ->. cbn.
    apply (parsePath_encode (RouterModel.createURL url)), createURL_well_formed.
  - apply map_get_delete.
  - apply map_get_delete.
  - intros other N. split; by apply map_get_delete_ne.
Qed.

Lemma clearRouteStateFromURL_keeps_or_resets_witness :
  let kept := Router.clearRouteStateFromURL RouterModel.imports "app1"
                "http://a.test/index.html?x=1#top" RouterModel.somewhere true
                RouterModel.shared in
  let reset := Router.clearRouteStateFromURL RouterModel.imports "app1"
                 "http://a.test/index.html?x=1#top" RouterModel.somewhere false
                 RouterModel.shared in
  kept.1 = RouterModel.somewhere
  ∧ reset.1 = {| Router.pathname := "/index.html"; Router.search := "?x=1";
                 Router.hash := "#top" |}
  ∧ kept.2 = reset.2
  ∧ RouterModel.microPaths (RouterModel.location kept.2) = [("app2", "/list#top")]
  ∧ RouterModel.microAppState (RouterModel.state kept.2) = [("app2", "p2")].
Proof.
  cbv zeta.
  destruct (clearRouteStateFromURL_keeps_or_resets "app1"
              "http://a.test/index.html?x=1#top" RouterModel.somewhere true
              RouterModel.shared) as (K & _ & B1 & _).
  destruct (clearRouteStateFromURL_keeps_or_resets "app1"
              "http://a.test/index.html?x=1#top" RouterModel.somewhere false
              RouterModel.shared) as (_ & R & B2 & _).
  split; [exact (K eq_refl)|]. split; [rewrite (R eq_refl); vm_compute; reflexivity|].
  split; [rewrite B1, B2; reflexivity|]. rewrite B1. split; vm_compute; reflexivity.
Defined.

(** ** C5 *)

(** C5, as amended.  With the helpers modelled from the spec: when the
    browser URL has a segment for the app that is not empty,
    [initRouteStateWithURL] hands back the virtual location read from that
    segment (its pathname, search and hash put together are the segment)
    and leaves the browser as it is.  When the URL has no segment for the
    app, or an empty one, the virtual location is handed back as it was
    given and the browser is the one [updateBrowserURLWithLocation]
    leaves: its URL has the pathname, search and hash of the virtual
    location as the segment of the app, its [history.state] has a state
    for the app, and the segments and states of the other apps, the path
    of the host page and its own state are as they were. *)
Theorem initRouteStateWithURL_imports_or_exports appName url loc b :
  let r := Router.initRouteStateWithURL RouterModel.imports appName url loc b in
  let segment := Router.getMicroPathFromURL RouterModel.imports appName b in
  (∀ p, segment = Some p -> p ≠ "" ->
     r.1 = RouterModel.parsePath p ∧ RouterModel.encode r.1 = p ∧ r.2 = b)
  ∧ (segment = None ∨ segment = Some "" ->
       r.1 = loc
       ∧ r.2 = Router.updateBrowserURLWithLocation RouterModel.imports appName url loc b
       ∧ Router.getMicroPathFromURL RouterModel.imports appName r.2
         = Some (RouterModel.encode loc)
       ∧ is_Some (Js.map_get appName (RouterModel.microAppState (RouterModel.state r.2)))
       ∧ (∀ other, appName ≠ other ->
            Router.getMicroPathFromURL RouterModel.imports other r.2
            = Router.getMicroPathFromURL RouterModel.imports other b
            ∧ Js.map_get other (RouterModel.microAppState (RouterModel.state r.2))
              = Js.map_get other (RouterModel.microAppState (RouterModel.state b)))
       ∧ RouterModel.hostPath (RouterModel.location r.2)
         = RouterModel.hostPath (RouterModel.location b)
       ∧ RouterModel.hostState (RouterModel.state r.2)
         = RouterModel.hostState (RouterModel.state b)).
Proof.
  cbv zeta. unfold Router.initRouteStateWithURL, Router.updateBrowserURLWithLocation.
  split.
  - intros p E N. rewrite E. destruct p as [|c p]; [done|]. cbn [Router.truthy fst snd].
    split; [reflexivity|]. split; [|reflexivity].
    cbn [Router.updateLocation RouterModel.imports].
    unfold RouterModel.encode, RouterModel.parsePath.
    pose proof (break_spec RouterModel.is_question_or_hash (String c p)) as (B1 & _).
    destruct (RouterModel.break RouterModel.is_question_or_hash (String c p)) as [p1 rest].
    pose proof (break_spec RouterModel.is_hash rest) as (B2 & _).
    destruct (RouterModel.break RouterModel.is_hash rest) as [q h].
    cbn [fst snd Router.pathname Router.search Router.hash] in *. by rewrite B2.
  - intros E.
    assert (T : Router.truthy (Router.getMicroPathFromURL RouterModel.imports appName b)
                = None) by (by destruct E as [-> | ->]).
    rewrite T. cbn. split_and!; try done.
    + apply map_get_set.
    + rewrite map_get_set. by eexists.
    + intros other N. split; by apply map_get_set_ne.
Qed.

(** C5 as stated fails on a browser URL whose segment for the app is
    empty: the URL has a segment for app1, and yet the virtual location is
    not read from it but written to the browser. *)
Lemma initRouteStateWithURL_imports_or_exports_counterexample :
  let r := Router.initRouteStateWithURL RouterModel.imports "app1"
             "http://a.test/index.html" RouterModel.somewhere RouterModel.vacant in
  Router.getMicroPathFromURL RouterModel.imports "app1" RouterModel.vacant = Some ""
  ∧ r.1 = RouterModel.somewhere
  ∧ r.1 ≠ RouterModel.parsePath ""
  ∧ r.2 ≠ RouterModel.vacant
  ∧ Router.getMicroPathFromURL RouterModel.imports "app1" r.2 = Some "/cart?n=2#pay".
Proof. vm_compute. split_and!; done. Qed.

(** The spec's scenario: the browser URL already has [/detail?id=5] for
    app1, which is read into its virtual location; on a URL without a
    segment for app1 its location is written to the browser instead. *)
Lemma initRouteStateWithURL_imports_or_exports_witness :
  let imported := Router.initRouteStateWithURL RouterModel.imports "app1"
                    "http://a.test/index.html" RouterModel.somewhere
                    RouterModel.shared in
  let exported := Router.initRouteStateWithURL RouterModel.imports "app1"
                    "http://a.test/index.html" RouterModel.somewhere
                    RouterModel.unvisited in
  Router.pathname imported.1 = "/detail"
  ∧ Router.search imported.1 = "?id=5"
  ∧ imported.2 = RouterModel.shared
  ∧ exported.1 = RouterModel.somewhere
  ∧ RouterModel.microPaths (RouterModel.location exported.2)
    = [("app2", "/list#top"); ("app1", "/cart?n=2#pay")].
Proof.
  cbv zeta.
  destruct (initRouteStateWithURL_imports_or_exports "app1"
              "http://a.test/index.html" RouterModel.somewhere RouterModel.shared)
    as (I & _).
  destruct (initRouteStateWithURL_imports_or_exports "app1"
              "http://a.test/index.html" RouterModel.somewhere RouterModel.unvisited)
    as (_ & E).
  destruct (I "/detail?id=5" eq_refl) as (I1 & _ & I2); [discriminate|].
  destruct (E (or_introl eq_refl)) as (E1 & E2 & _).
  rewrite I1, I2, E1, E2. split_and!; vm_compute; reflexivity.
Defined.

(** * Invariants of an instance *)

Ltac run_simpl :=
  repeat match goal with
  | |- context [Js.final (?a, ?b, ?c)] => change (Js.final (a, b, c)) with b
  | |- context [Js.trace (?a, ?b, ?c)] => change (Js.trace (a, b, c)) with c
  | |- context [Js.result (?a, ?b, ?c)] => change (Js.result (a, b, c)) with a
  end.

Lemma creations_app t1 t2 : creations (t1 ++ t2) = (creations t1 + creations t2)%nat.
Proof. unfold creations. by rewrite filter_app, length_app. Qed.

Lemma plain_effects_creations t : Forall plain_effect t -> creations t = 0%nat.
Proof.
  induction 1 as [|e t He _ IH]; [done|].
  unfold creations in *. rewrite filter_cons. case_decide as Hd; [|done].
  destruct e; cbn in *; done.
Qed.

Lemma plain_effects_delete a t : Forall plain_effect t -> Forall (delete_ok a) t.
Proof. intros H. eapply Forall_impl; [exact H|]. intros [] He; cbn in *; done. Qed.

Lemma plain_effects_no_script_run t : Forall plain_effect t -> Forall no_script_run t.
Proof.
  intros H. eapply Forall_impl; [exact H|]. intros [[]| | | | | | | | | | | | | | | | ] He;
    cbn in *; done.
Qed.

Lemma map_delete_idemp {V} k (m : Js.Map V) :
  Js.map_delete k (Js.map_delete k m) = Js.map_delete k m.
Proof.
  unfold Js.map_delete. induction m as [|[k' v] m IH]; [done|].
  rewrite filter_cons. case_decide as N; [|exact IH].
  rewrite filter_cons, decide_True by exact N. by rewrite IH.
Qed.

Lemma same_identity_refl a : same_identity a a.
Proof. by constructor. Qed.

Lemma same_identity_trans a1 a2 a3 :
  same_identity a1 a2 -> same_identity a2 a3 -> same_identity a1 a3.
Proof. intros [] []; constructor; congruence. Qed.

Lemma umd_kept_refl a : umd_kept a a.
Proof. by constructor. Qed.

Lemma evolves_refl s : evolves s s [].
Proof.
  constructor.
  - apply same_identity_refl.
  - by left.
  - by left.
  - intros _. apply umd_kept_refl.
  - done.
  - constructor.
  - intros _. constructor.
Qed.

Lemma evolves_trans s1 s2 s3 t1 t2 :
  evolves s1 s2 t1 -> evolves s2 s3 t2 -> evolves s1 s3 (t1 ++ t2).
Proof.
  intros [I1 R1 K1 U1 L1 D1 S1] [I2 R2 K2 U2 L2 D2 S2]. constructor.
  - eapply same_identity_trans; eauto.
  - destruct I1 as [N1 _ _ _ _ _ _ _]. rewrite N1 in R2.
    destruct R1 as [E1|E1], R2 as [E2|E2]; rewrite E2, E1; auto.
    right. apply map_delete_idemp.
  - rewrite creations_app.
    destruct K1 as [[E1 C1]|(A1 & B1 & C1)], K2 as [[E2 C2]|(A2 & B2 & C2)];
      rewrite C1, C2.
    + left. split; [congruence|done].
    + right. rewrite <- E1. done.
    + right. rewrite E2. done.
    + congruence.
  - intros U. destruct (U1 U) as [Ua Ub Uc Ud].
    destruct (U2 ltac:(congruence)) as [Ua' Ub' Uc' Ud'].
    constructor; congruence.
  - auto.
  - apply Forall_app. split; [|done].
    eapply Forall_impl; [exact D1|]. intros e He.
    destruct e; cbn in *; try done. destruct He as (H1 & H2 & H3).
    destruct I2 as [_ _ _ _ -> _ _ _]. destruct (U2 H2) as [-> _ _ ->]. done.
  - intros U. apply Forall_app. split; [auto|].
    apply S2. destruct (U1 U) as [-> _ _ _]. done.
Qed.

(** A piece of code that assigns none of the fields the invariants are
    about, and only has plain effects. *)
Lemma evolves_plain s s' t :
  same_identity (this s) (this s') ->
  umd_kept (this s) (this s') ->
  keepAliveContainer (this s') = keepAliveContainer (this s) ->
  appInstanceMap s' = appInstanceMap s ->
  Forall plain_effect t ->
  evolves s s' t.
Proof.
  intros I [Ua Ub Uc Ud] K R P. constructor; try done.
  - by left.
  - left. split; [done|]. by apply plain_effects_creations.
  - unfold library_named. rewrite Ua, Ud. done.
  - by apply plain_effects_delete.
  - intros _. by apply plain_effects_no_script_run.
Qed.

Ltac plain_run :=
  apply evolves_plain; cbn;
  [ constructor; reflexivity | constructor; reflexivity | reflexivity | reflexivity
  | repeat constructor ].

Lemma dispatchMountedEvent_evolves s :
  evolves s (Js.final (dispatchMountedEvent s)) (Js.trace (dispatchMountedEvent s)).
Proof.
  rewrite dispatchMountedEvent_run. case_bool_decide; plain_run.
Qed.

Lemma handleMounted_evolves v s :
  evolves s (Js.final (handleMounted v s)) (Js.trace (handleMounted v s)).
Proof.
  rewrite handleMounted_run. destruct v; try case_bool_decide; plain_run.
Qed.

Lemma onerror_evolves e s :
  evolves s (Js.final (onerror e s)) (Js.trace (onerror e s)).
Proof. destruct s as [a m]. unfold onerror. unfold_m. cbn. plain_run. Qed.

Ltac evolves_run :=
  constructor; cbn;
  [ constructor; reflexivity
  | first [left; reflexivity | right; reflexivity]
  | first [left; split; reflexivity | right; split_and!; reflexivity]
  | intros U; first [discriminate U | constructor; reflexivity]
  | unfold library_named; cbn; intros; eauto
  | repeat constructor; cbn; auto
  | intros U; first [discriminate U | repeat constructor] ].

Lemma detectUmd_evolves env cb c s :
  evolves s (Js.final (detectUmd env cb c s)) (Js.trace (detectUmd env cb c s)).
Proof.
  destruct s as [a m]. destruct a, c as [flag res].
  unfold detectUmd, getUmdLibraryHooks. unfold_m. cbn.
  destruct umdMode0; cbn; [plain_run|].
  destruct (bool_decide (appStates.UNMOUNT ≠ state0)); cbn; [|evolves_run].
  destruct container0 as [| |el]; cbn; [evolves_run..|].
  match goal with
  | |- context [match ?g ?k with Js.GNotObject => _ | Js.GNull => _ | Js.GObject _ _ => _ end] =>
      destruct (g k) as [| |[|fm| |] u]; cbn
  end.
  all: try evolves_run.
  destruct u as [|fu| |]; cbn.
  all: try evolves_run.
  destruct (bool_decide (is_Some sandBox0)), (callFunc env fm) as [v|e]; cbn;
    evolves_run.
Qed.

Lemma execScriptsCallback_evolves env cb c s :
  evolves s (Js.final (execScriptsCallback env cb c s))
    (Js.trace (execScriptsCallback env cb c s)).
Proof.
  pose proof (detectUmd_evolves env cb c s) as W1.
  destruct (detectUmd env cb c s) as [[[c1|e] s1] t1] eqn:E1.
  2: { unfold execScriptsCallback. by rewrite (bind_raise _ _ _ _ _ _ E1). }
  unfold execScriptsCallback. rewrite (bind_run _ _ _ _ _ _ E1).
  unfold Js.final, Js.trace in *. cbn [fst snd] in *. unfold_m.
  destruct (negb (hasDispatchMountedEvent c1) && (isFinished cb || umdMode (this s1))).
  - pose proof (handleMounted_evolves (umdHookMountResult c1) s1) as W2.
    destruct (handleMounted (umdHookMountResult c1) s1) as [[[] s2] t2];
      unfold Js.final, Js.trace in *; cbn [fst snd] in *.
    + rewrite app_nil_r. eapply evolves_trans; eauto.
    + eapply evolves_trans; eauto.
  - cbn. by rewrite app_nil_r.
Qed.

Lemma execScripts_evolves env runs : ∀ c s,
  evolves s (Js.final (execScripts env runs c s)) (Js.trace (execScripts env runs c s)).
Proof.
  induction runs as [|cb runs IH]; intros c s; [apply evolves_refl|].
  cbn [execScripts].
  pose proof (execScriptsCallback_evolves env cb c s) as W1.
  destruct (execScriptsCallback env cb c s) as [[[c1|e] s1] t1] eqn:E1.
  2: { by rewrite (bind_raise _ _ _ _ _ _ E1). }
  rewrite (bind_run _ _ _ _ _ _ E1).
  unfold Js.final, Js.trace in *. cbn [fst snd] in *.
  eapply evolves_trans; [exact W1|apply IH].
Qed.

Lemma adopt_identity c i b a st :
  same_identity a (set_state st (adopt c i b a))
  ∧ umd_kept a (set_state st (adopt c i b a))
  ∧ keepAliveContainer (set_state st (adopt c i b a)) = keepAliveContainer a.
Proof.
  unfold adopt. destruct i as [x|]; [destruct (bool_decide (x ≠ inline a))|]; cbn;
    split_and!; try reflexivity; constructor; reflexivity.
Qed.

Lemma mount_evolves env c i b s :
  evolves s (Js.final (mount env c i b s)) (Js.trace (mount env c i b s)).
Proof.
  assert (A : ∀ st t, Forall plain_effect t ->
            evolves s (with_this (set_state st (adopt c i b (this s))) s) t).
  { intros st t P. destruct (adopt_identity c i b (this s) st) as (I & U & K).
    by apply evolves_plain. }
  assert (Pp : ∀ a, Forall plain_effect (mount_prelude a)).
  { intros a. unfold mount_prelude. case_bool_decide; repeat constructor. }
  destruct (decide (loadSourceLevel (this s) = 2)) as [L|L].
  - destruct (umdMode (this s)) eqn:U.
    + rewrite (mount_umd env c i b s L U). unfold Js.final at 1, Js.trace at 1.
      cbn [fst snd]. rewrite !app_assoc.
      eapply evolves_trans; [apply A|apply handleMounted_evolves].
      rewrite !Forall_app. split_and!; [apply Pp|case_bool_decide; repeat constructor|].
      unfold try_call.
      destruct (umdHookMount _) as [f|]; [destruct (callFunc env f)|]; repeat constructor.
    + rewrite (mount_scripts env c i b s L U). unfold Js.final at 1, Js.trace at 1.
      cbn [fst snd].
      match goal with |- context [?p ++ ?e :: Js.trace ?o] =>
        change (p ++ e :: Js.trace o) with (p ++ [e] ++ Js.trace o) end.
      rewrite app_assoc.
      eapply evolves_trans; [|apply execScripts_evolves].
      destruct (adopt_identity c i b (this s) appStates.MOUNTING) as (I & [Ua Ub Uc Ud] & K).
      pose proof (Pp (mounting c i b (this s))) as P.
      constructor; cbn [this with_this appInstanceMap]; try done.
      * by left.
      * left. split; [done|]. rewrite creations_app.
        by rewrite (plain_effects_creations _ P).
      * unfold library_named. fold (mounting c i b (this s)). unfold mounting.
        rewrite Ua, Ud. done.
      * apply Forall_app. split; [by apply plain_effects_delete|repeat constructor].
      * congruence.
  - rewrite (mount_not_loaded env c i b s L). apply A. repeat constructor.
Qed.

Lemma onLoad_evolves env h s :
  evolves s (Js.final (onLoad env h s)) (Js.trace (onLoad env h s)).
Proof.
  rewrite onLoad_run. cbv zeta.
  destruct (bool_decide (loadSourceLevel (this s) + 1 = 2)); [|plain_run].
  destruct (isPrefetch (this s) || _); [plain_run|].
  unfold Js.final at 1, Js.trace at 1. cbn [fst snd].
  match goal with |- context [?e :: Js.trace ?o] =>
    change (e :: Js.trace o) with ([e] ++ Js.trace o) end.
  eapply evolves_trans; [|apply mount_evolves]. plain_run.
Qed.

Lemma onLoadError_evolves e s :
  evolves s (Js.final (onLoadError e s)) (Js.trace (onLoadError e s)).
Proof.
  destruct s as [a m]. unfold onLoadError, onerror. unfold_m. cbn.
  case_bool_decide; plain_run.
Qed.

Lemma actionsForUnmount_evolves env d s :
  evolves s (Js.final (actionsForUnmount env d s)) (Js.trace (actionsForUnmount env d s)).
Proof.
  destruct s as [a m]. destruct a.
  unfold actionsForUnmount, actionsForCompletelyDestory. unfold_m. cbn.
  destruct d, umdMode0, useSandbox0, sandBox0, container0; cbn;
    repeat case_bool_decide; cbn; evolves_run.
Qed.

Lemma unmount_evolves env d s :
  evolves s (Js.final (unmount env d s)) (Js.trace (unmount env d s)).
Proof.
  rewrite unmount_run. cbv zeta. rewrite handleUnmounted_run.
  set (s1 := with_this (unmounting (this s)) s).
  assert (W1 : ∀ t, Forall plain_effect t -> evolves s s1 t).
  { intros t P. apply evolves_plain; try done; constructor; reflexivity. }
  assert (P : Forall plain_effect
                match umdHookUnmount (this s) with
                | Some f => try_call env unmount_msg (name (this s)) f
                | None => (Js.VUndefined, [])
                end.2).
  { unfold try_call.
    destruct (umdHookUnmount (this s)) as [f|]; [destruct (callFunc env f)|];
      repeat constructor. }
  pose proof (actionsForUnmount_evolves env (forced d (this s)) s1) as W2.
  destruct (actionsForUnmount env (forced d (this s)) s1) as [[r2 s2] t2].
  match goal with |- context [match ?v with Js.VPromise _ => _ | _ => _ end] =>
    destruct v end; unfold Js.final, Js.trace, Js.result in *; cbn [fst snd] in *;
    first
      [ apply W1; rewrite !Forall_app; split_and!; try exact P; repeat constructor
      | change (Call m_handleUnmounted :: t2) with ([Call m_handleUnmounted] ++ t2);
        rewrite !app_assoc;
        (eapply evolves_trans; [apply W1|exact W2]);
        rewrite !Forall_app; split_and!; try exact P; repeat constructor ].
Qed.

Lemma hiddenKeepAliveApp_evolves env s :
  evolves s (Js.final (hiddenKeepAliveApp env s)) (Js.trace (hiddenKeepAliveApp env s)).
Proof.
  destruct s as [a m]. destruct a.
  unfold hiddenKeepAliveApp. unfold_m. cbn.
  destruct keepAliveContainer0; cbn; evolves_run.
Qed.

Lemma showKeepAliveApp_evolves c s :
  evolves s (Js.final (showKeepAliveApp c s)) (Js.trace (showKeepAliveApp c s)).
Proof. destruct s as [a m]. unfold showKeepAliveApp. unfold_m. cbn. plain_run. Qed.

Lemma settle_evolves env out kf kr s :
  evolves s (Js.final (settle env out kf kr s)) (Js.trace (settle env out kf kr s)).
Proof.
  assert (T : ∀ k s', evolves s' (Js.final (runThen env k s')) (Js.trace (runThen env k s'))).
  { intros [|d] s'; cbn [runThen];
      [apply dispatchMountedEvent_evolves|apply actionsForUnmount_evolves]. }
  assert (C : ∀ k e s',
            evolves s' (Js.final (runCatch env k e s')) (Js.trace (runCatch env k e s'))).
  { intros [|d] e s'; cbn [runCatch];
      [apply onerror_evolves|apply actionsForUnmount_evolves]. }
  destruct out as [|reason]; cbn [settle]; [|apply C].
  unfold try_catch. pose proof (T kf s) as W1.
  destruct (runThen env kf s) as [[[[]|e] s1] t1]; [done|].
  unfold Js.final, Js.trace in W1. cbn [fst snd] in W1.
  pose proof (C kr e s1) as W2.
  destruct (runCatch env kr e s1) as [[r2 s2] t2].
  unfold Js.final, Js.trace in *. cbn [fst snd] in *.
  eapply evolves_trans; eauto.
Qed.

Lemma occur_evolves s ev : evolves s (occur s ev).1 (occur s ev).2.
Proof.
  destruct ev; cbn [occur fst snd].
  - apply onLoad_evolves.
  - apply onLoadError_evolves.
  - apply mount_evolves.
  - apply unmount_evolves.
  - apply hiddenKeepAliveApp_evolves.
  - apply showKeepAliveApp_evolves.
  - apply execScriptsCallback_evolves.
  - apply settle_evolves.
Qed.

Lemma play_evolves history : ∀ s, evolves s (play s history).1 (play s history).2.
Proof.
  induction history as [|ev history IH]; intros s; [apply evolves_refl|].
  cbn [play]. pose proof (occur_evolves s ev) as W1.
  destruct (occur s ev) as [s1 t1]. specialize (IH s1).
  destruct (play s1 history) as [s2 t2]. cbn [fst snd] in *.
  eapply evolves_trans; eauto.
Qed.

(** ** What the constructor fixes *)

Lemma new_CreateApp_fields p :
  let a0 := (new_CreateApp p).1 in
  let box := {| sb_name := p_name p; sb_url := p_url p;
                sb_macro := default false (p_macro p) |} in
  name a0 = p_name p ∧ url a0 = p_url p
  ∧ ssrUrl a0 = default "" (p_ssrUrl p)
  ∧ useSandbox a0 = p_useSandbox p
  ∧ scopecss a0 = p_useSandbox p && p_scopecss p
  ∧ macro a0 = default false (p_macro p)
  ∧ sandBox a0 = (if p_useSandbox p then Some box else None)
  ∧ state a0 = appStates.LOADING_SOURCE_CODE
  ∧ (new_CreateApp p).2
    = [Call m_loadSourceCode; ExtractHtml (p_name p)]
      ++ (if p_useSandbox p
          then [NewSandBox (p_name p) (p_url p) (default false (p_macro p))]
          else []).
Proof.
  cbv zeta. unfold new_CreateApp, constructor, loadSourceCode. unfold_m.
  cbn. destruct (p_useSandbox p) eqn:E; cbn; rewrite ?E; split_and!; reflexivity.
Qed.

(** X1.  No method of the class, no completion callback and no settled
    promise assigns [name], [url], [ssrUrl], [scopecss], [useSandbox],
    [macro], [isPrefetch] or [sandBox]: after any history they are what
    they were.  The constructor sets them from its parameter, with
    [scopecss] only on together with [useSandbox], starts loading, and
    creates the sandbox, from the name, the url and [macro], exactly when
    [useSandbox] is set; so on every instance built by the constructor,
    whatever happened to it since, style scoping implies a sandbox and a
    sandbox is held exactly when [useSandbox] is set. *)
Theorem identity_is_fixed :
  (∀ s history, same_identity (this s) (this (play s history).1))
  ∧ (∀ p,
       let a0 := (new_CreateApp p).1 in
       let box := {| sb_name := p_name p; sb_url := p_url p;
                     sb_macro := default false (p_macro p) |} in
       name a0 = p_name p ∧ url a0 = p_url p
       ∧ ssrUrl a0 = default "" (p_ssrUrl p)
       ∧ useSandbox a0 = p_useSandbox p
       ∧ scopecss a0 = p_useSandbox p && p_scopecss p
       ∧ macro a0 = default false (p_macro p)
       ∧ sandBox a0 = (if p_useSandbox p then Some box else None)
       ∧ state a0 = appStates.LOADING_SOURCE_CODE
       ∧ (new_CreateApp p).2
         = [Call m_loadSourceCode; ExtractHtml (p_name p)]
           ++ (if p_useSandbox p
               then [NewSandBox (p_name p) (p_url p) (default false (p_macro p))]
               else []))
  ∧ (∀ p m history,
       let a := this (play {| this := (new_CreateApp p).1; appInstanceMap := m |}
                        history).1 in
       (scopecss a = true -> useSandbox a = true)
       ∧ (is_Some (sandBox a) <-> useSandbox a = true)).
Proof.
  pose proof new_CreateApp_fields as C.
  split; [intros s history; apply play_evolves|]. split; [exact C|].
  intros p m history. cbv zeta.
  destruct (play_evolves history {| this := (new_CreateApp p).1; appInstanceMap := m |})
    as [[_ _ _ Hc Hu _ _ Hb] _ _ _ _ _ _].
  cbn [this] in *. rewrite Hc, Hu, Hb.
  destruct (C p) as (_ & _ & _ & -> & -> & _ & -> & _).
  destruct (p_useSandbox p); cbn; (split; [done|]); split; try done;
    first [intros _; by eexists|by intros [? ?]].
Qed.

Lemma identity_is_fixed_witness :
  let a := this (play app1 [EvOnLoad plain_env 5%nat; EvOnLoad throwing_env 6%nat;
                            EvUnmount plain_env true]).1 in
  scopecss a = true ∧ useSandbox a = true ∧ is_Some (sandBox a).
Proof.
  cbv zeta. destruct identity_is_fixed as (_ & _ & H).
  destruct (H app1_param [("app1", 0%nat)]
              [EvOnLoad plain_env 5%nat; EvOnLoad throwing_env 6%nat;
               EvUnmount plain_env true]) as [H1 H2].
  assert (S : scopecss (this (play app1 [EvOnLoad plain_env 5%nat;
                                         EvOnLoad throwing_env 6%nat;
                                         EvUnmount plain_env true]).1) = true)
    by (vm_compute; reflexivity).
  split; [exact S|]. split; [exact (H1 S)|]. apply H2. exact (H1 S).
Defined.

(** ** The registry *)

Lemma map_keys_delete {V} k k' (m : Js.Map V) :
  k' ∈ Js.map_keys (Js.map_delete k m) -> k' ∈ Js.map_keys m.
Proof.
  unfold Js.map_keys, Js.map_delete. rewrite !list_elem_of_fmap.
  intros (e & -> & I). apply list_elem_of_filter in I as [_ I]. eauto.
Qed.

(** X2.  Whatever happens to an instance, [appInstanceMap] afterwards is
    the map as it was, or the map without the entry under the name of the
    instance: nothing is ever added, and the entries of the other apps are
    never touched. *)
Theorem registry_only_loses_own_entry s history :
  let s' := (play s history).1 in
  (appInstanceMap s' = appInstanceMap s
   ∨ appInstanceMap s' = Js.map_delete (name (this s)) (appInstanceMap s))
  ∧ (∀ k, k ≠ name (this s) ->
       Js.map_get k (appInstanceMap s') = Js.map_get k (appInstanceMap s))
  ∧ (∀ k, k ∈ Js.map_keys (appInstanceMap s') -> k ∈ Js.map_keys (appInstanceMap s)).
Proof.
  cbv zeta. destruct (play_evolves history s) as [_ R _ _ _ _ _].
  split; [exact R|]. split.
  - intros k N. destruct R as [-> | ->]; [done|]. by apply map_get_delete_ne.
  - intros k. destruct R as [-> | ->]; [done|]. apply map_keys_delete.
Qed.

Lemma registry_only_loses_own_entry_witness :
  let s := {| this := this (app1_mounted plain_env);
              appInstanceMap := [("app1", 0%nat); ("app2", 1%nat)] |} in
  Js.map_get "app2" (appInstanceMap (play s [EvUnmount plain_env true]).1) = Some 1%nat.
Proof.
  cbv zeta.
  destruct (registry_only_loses_own_entry
              {| this := this (app1_mounted plain_env);
                 appInstanceMap := [("app1", 0%nat); ("app2", 1%nat)] |}
              [EvUnmount plain_env true]) as (_ & H & _).
  rewrite H; [reflexivity|]. vm_compute. discriminate.
Defined.

(** ** Keep-alive *)

Lemma hiddenKeepAliveApp_run env s :
  let a := this s in
  let k := match keepAliveContainer a with
           | Js.Node k => k
           | _ => createElementDiv env
           end in
  hiddenKeepAliveApp env s =
    (Js.Normal tt,
     with_this (set_container (Js.Node k)
                  (set_keepAliveContainer (Js.Node k)
                     (set_keepAliveState (Some keepAliveStates.KEEP_ALIVE_HIDDEN) a))) s,
     [Call m_hiddenKeepAliveApp;
      DispatchLifecyclesEvent (container a) (name a) lifeCycles.AFTERHIDDEN None;
      DispatchCustomEventToMicroApp "appstate-change" (name a) (Some "afterhidden")]
     ++ (if Js.truthy (keepAliveContainer a) then [] else [CreateElementDiv k])
     ++ [CloneContainer (container a) (Js.Node k) false]).
Proof.
  destruct s as [a m]. destruct a. cbv zeta. cbn [this].
  unfold hiddenKeepAliveApp. unfold_m. cbn.
  destruct keepAliveContainer0; reflexivity.
Qed.

Lemma showKeepAliveApp_run c s :
  let a := this s in
  showKeepAliveApp c s =
    (Js.Normal tt,
     with_this (set_container (Js.Node c)
                  (set_keepAliveState (Some keepAliveStates.KEEP_ALIVE_SHOW) a)) s,
     [Call m_showKeepAliveApp;
      CloneContainer (keepAliveContainer a) (Js.Node c) false;
      DispatchLifecyclesEvent (Js.Node c) (name a) lifeCycles.AFTERSHOW None;
      DispatchCustomEventToMicroApp "appstate-change" (name a) (Some "aftershow")]).
Proof. destruct s as [a m]. reflexivity. Qed.

(** X3.  The off-screen element a keep-alive app is moved to when hidden is
    created at most once in the life of an instance: over any history,
    [document.createElement] is called at most once, and not at all when
    the instance already holds such an element, which it then keeps.
    After [hiddenKeepAliveApp] the instance holds one, the one it had or a
    new one, and its container is that element. *)
Theorem keepAliveContainer_created_once s history :
  let s' := (play s history).1 in
  let t := (play s history).2 in
  (creations t <= 1)%nat
  ∧ (∀ k, keepAliveContainer (this s) = Js.Node k ->
       creations t = 0%nat ∧ keepAliveContainer (this s') = Js.Node k)
  ∧ (creations t = 1%nat ->
       Js.truthy (keepAliveContainer (this s)) = false
       ∧ ∃ k, keepAliveContainer (this s') = Js.Node k)
  ∧ (∀ env,
       let o := hiddenKeepAliveApp env s in
       ∃ k, keepAliveContainer (this (Js.final o)) = Js.Node k
            ∧ container (this (Js.final o)) = Js.Node k
            ∧ (keepAliveContainer (this s) = Js.Node k
               ∨ Js.truthy (keepAliveContainer (this s)) = false
                 ∧ k = createElementDiv env)).
Proof.
  cbv zeta. destruct (play_evolves history s) as [_ _ K _ _ _ _].
  split_and!.
  - destruct K as [[_ ->]|(_ & _ & ->)]; lia.
  - intros k E. destruct K as [[-> ->]|(T & _ & _)]; [done|].
    rewrite E in T. done.
  - intros C. destruct K as [[_ C']|(T & T' & _)]; [congruence|].
    split; [exact T|]. destruct (keepAliveContainer (this (play s history).1)); try done.
    by eexists.
  - intros env. rewrite hiddenKeepAliveApp_run. cbv zeta.
    destruct (keepAliveContainer (this s)) as [| |k]; eexists; (split; [reflexivity|]);
      (split; [reflexivity|]); auto.
Qed.

Lemma keepAliveContainer_created_once_witness :
  let history := [EvHidden plain_env; EvShow 8%nat; EvHidden plain_env] in
  creations (play (app1_mounted plain_env) history).2 = 1%nat
  ∧ Js.truthy (keepAliveContainer (this (app1_mounted plain_env))) = false
  ∧ ∃ k, keepAliveContainer (this (play (app1_mounted plain_env) history).1) = Js.Node k.
Proof.
  cbv zeta.
  destruct (keepAliveContainer_created_once (app1_mounted plain_env)
              [EvHidden plain_env; EvShow 8%nat; EvHidden plain_env]) as (_ & _ & H & _).
  assert (C : creations (play (app1_mounted plain_env)
                           [EvHidden plain_env; EvShow 8%nat; EvHidden plain_env]).2
              = 1%nat) by (vm_compute; reflexivity).
  split; [exact C|]. exact (H C).
Defined.

(** ** UMD mode *)

(** X4.  UMD mode is never left: once an instance is in UMD mode, whatever
    happens to it, it stays in UMD mode with the same two hooks and the
    same library name, its scripts are never executed again, the hooks are
    never looked up again and no snapshot is recorded again. *)
Theorem umd_mode_is_permanent s history :
  umdMode (this s) = true ->
  let s' := (play s history).1 in
  let t := (play s history).2 in
  umdMode (this s') = true
  ∧ umdHookMount (this s') = umdHookMount (this s)
  ∧ umdHookUnmount (this s') = umdHookUnmount (this s)
  ∧ libraryName (this s') = libraryName (this s)
  ∧ Forall (λ e, is_execScripts e = false) t
  ∧ calls m_getUmdLibraryHooks t = 0%nat
  ∧ RecordUmdSnapshot ∉ t.
Proof.
  intros U. cbv zeta. destruct (play_evolves history s) as [_ _ _ K _ _ S].
  destruct (K U) as [K1 K2 K3 K4]. specialize (S U).
  split_and!; [congruence|done|done|done|..].
  - eapply Forall_impl; [exact S|]. intros [] H; done.
  - clear -S. induction S as [|e t He _ IH]; [done|].
    unfold calls in *. rewrite filter_cons. case_decide as D; [|exact IH].
    subst e. done.
  - intros I. rewrite Forall_forall in S. exact (S _ I).
Qed.

Lemma umd_mode_is_permanent_witness :
  let history := [EvUnmount plain_env false; EvMount plain_env (Some 8%nat) None None;
                  EvCallback plain_env (batch true no_exports) fresh_closure] in
  umdMode (this (play (app1_mounted throwing_env) history).1) = true
  ∧ Forall (λ e, is_execScripts e = false) (play (app1_mounted throwing_env) history).2.
Proof.
  cbv zeta.
  destruct (umd_mode_is_permanent (app1_mounted throwing_env)
              [EvUnmount plain_env false; EvMount plain_env (Some 8%nat) None None;
               EvCallback plain_env (batch true no_exports) fresh_closure])
    as (H1 & _ & _ & _ & H2 & _); [vm_compute; reflexivity|].
  split; [exact H1|exact H2].
Defined.

(** ** Cleaning the window *)

Lemma library_named_new p : library_named (new_CreateApp p).1.
Proof.
  unfold library_named, new_CreateApp, constructor, loadSourceCode. unfold_m.
  cbn. destruct (p_useSandbox p); cbn; done.
Qed.

(** X5.  Over the whole life of an instance built by the constructor, a
    property of the window is deleted only on an instance built without
    sandbox that is in UMD mode, and the key is the library name the
    instance recorded when it looked for its hooks, never [null]; an
    instance built with a sandbox never deletes anything from the window.
    [actionsForCompletelyDestory] is where it happens: it deletes the
    library, under those conditions, and then the registry entry. *)
Theorem window_cleanup p m history :
  let o := play {| this := (new_CreateApp p).1; appInstanceMap := m |} history in
  (∀ key, DeleteWindowProp key ∈ o.2 ->
     p_useSandbox p = false
     ∧ umdMode (this o.1) = true
     ∧ key = libraryName (this o.1)
     ∧ is_Some key)
  ∧ (∀ s, actionsForCompletelyDestory s =
            (Js.Normal tt,
             {| this := this s;
                appInstanceMap := Js.map_delete (name (this s)) (appInstanceMap s) |},
             destroy_effects (this s))).
Proof.
  cbv zeta. split.
  - intros key I.
    destruct (play_evolves history {| this := (new_CreateApp p).1; appInstanceMap := m |})
      as [[_ _ _ _ Hu _ _ _] _ _ _ L D _].
    rewrite Forall_forall in D. specialize (D _ I). cbn in D.
    destruct D as (D1 & D2 & D3).
    destruct (new_CreateApp_fields p) as (_ & _ & _ & Cu & _).
    split_and!; [rewrite <- Cu; exact (eq_trans (eq_sym Hu) D1)|done|done|].
    rewrite D3. apply L; [apply library_named_new|done].
  - intros [a m0]. unfold actionsForCompletelyDestory, destroy_effects. unfold_m. cbn.
    destruct (negb (useSandbox a) && umdMode a); reflexivity.
Qed.

Lemma window_cleanup_witness :
  let history := [EvOnLoad raw_umd_env 5%nat; EvOnLoad raw_umd_env 6%nat;
                  EvUnmount plain_env true] in
  let o := play {| this := (new_CreateApp app3_param).1;
                   appInstanceMap := [("app3", 2%nat)] |} history in
  DeleteWindowProp (Some "micro-app-app3") ∈ o.2
  ∧ umdMode (this o.1) = true
  ∧ Some "micro-app-app3" = libraryName (this o.1).
Proof.
  cbv zeta.
  destruct (window_cleanup app3_param [("app3", 2%nat)]
              [EvOnLoad raw_umd_env 5%nat; EvOnLoad raw_umd_env 6%nat;
               EvUnmount plain_env true]) as [H _].
  assert (I : DeleteWindowProp (Some "micro-app-app3")
              ∈ (play {| this := (new_CreateApp app3_param).1;
                         appInstanceMap := [("app3", 2%nat)] |}
                   [EvOnLoad raw_umd_env 5%nat; EvOnLoad raw_umd_env 6%nat;
                    EvUnmount plain_env true]).2).
  { refine (bool_decide_unpack _ _). vm_compute. exact I. }
  destruct (H _ I) as (_ & U & K & _).
  split; [exact I|]. split; [exact U|exact K].
Defined.

(** * Loading *)

Lemma onLoad_counts env h s :
  loadSourceLevel (this (Js.final (onLoad env h s))) = loadSourceLevel (this s) + 1
  ∧ isPrefetch (this (Js.final (onLoad env h s))) = isPrefetch (this s)
  ∧ (loadSourceLevel (this s) + 1 ≠ 2 ->
       Js.trace (onLoad env h s) = [Call m_onLoad]
       ∧ state (this (Js.final (onLoad env h s))) = state (this s))
  ∧ calls m_mount (Js.trace (onLoad env h s))
    = (if bool_decide (loadSourceLevel (this s) + 1 = 2)
          && negb (isPrefetch (this s)) && bool_decide (state (this s) ≠ appStates.UNMOUNT)
       then 1%nat else 0%nat).
Proof.
  pose proof (onLoad_evolves env h s) as [[_ _ _ _ _ _ Ip _] _ _ _ _ _ _].
  split_and!; [|exact Ip|..]; rewrite onLoad_run; cbv zeta.
  - destruct (decide (loadSourceLevel (this s) + 1 = 2)) as [L|L].
    + rewrite (bool_decide_true _ L).
      destruct (isPrefetch (this s) || _); [done|].
      match goal with |- context [mount ?e ?c ?i ?b ?s] =>
        destruct (mount_loaded e c i b s) as (_ & _ & Hl & _); [done|] end.
      unfold Js.final at 1. cbn [fst snd]. lia.
    + rewrite (bool_decide_false _ L). done.
  - intros L. rewrite (bool_decide_false _ L). done.
  - destruct (decide (loadSourceLevel (this s) + 1 = 2)) as [L|L].
    + rewrite (bool_decide_true _ L).
      destruct (isPrefetch (this s)); cbn [orb negb andb]; [done|].
      destruct (decide (state (this s) = appStates.UNMOUNT)) as [U|U].
      * rewrite bool_decide_true, bool_decide_false by (by rewrite ?U; auto). done.
      * rewrite bool_decide_false, bool_decide_true by (by auto). 
        match goal with |- context [mount ?e ?c ?i ?b ?s] =>
          destruct (mount_loaded e c i b s) as (Hc & _); [done|];
          destruct (mount e c i b s) as [[r sf] tf] end.
        unfold Js.trace in *. cbn [fst snd] in *.
        change (Call m_onLoad :: tf) with ([Call m_onLoad] ++ tf).
        rewrite calls_app, Hc. done.
    + rewrite (bool_decide_false _ L). done.
Qed.

Lemma reaches_mount_step a a' (n : nat) :
  loadSourceLevel a' = loadSourceLevel a + 1 -> isPrefetch a' = isPrefetch a ->
  (loadSourceLevel a + 1 ≠ 2 -> state a' = state a) ->
  Nat.add
    (if bool_decide (loadSourceLevel a + 1 = 2)
        && negb (isPrefetch a) && bool_decide (state a ≠ appStates.UNMOUNT)
     then 1%nat else 0%nat)
    (if bool_decide (loadSourceLevel a + 1 = 2) then 0%nat
     else if reaches_mount a' n then 1%nat else 0%nat)
  = (if reaches_mount a (S n) then 1%nat else 0%nat).
Proof.
  intros L P S. unfold reaches_mount. rewrite L, P.
  destruct (decide (loadSourceLevel a + 1 = 2)) as [E|E].
  - rewrite (bool_decide_true _ E), (bool_decide_true (_ < 2 <= _)) by lia.
    cbn [andb]. by destruct (_ && _).
  - rewrite (bool_decide_false _ E), (S E). cbn [andb Nat.add].
    destruct (decide (loadSourceLevel a < 2 <= loadSourceLevel a + Z.of_nat (Datatypes.S n)))
      as [R|R].
    + rewrite (bool_decide_true _ R), bool_decide_true by lia. done.
    + rewrite (bool_decide_false _ R), bool_decide_false by lia. done.
Qed.

(** X6.  Resource channels completing successfully, in any number, call
    [mount] at most once: exactly once when the counter passes through 2
    during the run on an instance that is neither a prefetch nor unmounted,
    and never otherwise; each completion counts one. *)
Theorem loading_mounts_at_most_once history : ∀ s,
  Forall is_onLoad history ->
  calls m_mount (play s history).2
  = (if reaches_mount (this s) (length history) then 1 else 0)%nat
  ∧ loadSourceLevel (this (play s history).1)
    = loadSourceLevel (this s) + Z.of_nat (length history)
  ∧ (calls m_mount (play s history).2 <= 1)%nat.
Proof.
  assert (G : ∀ history s, Forall is_onLoad history ->
    calls m_mount (play s history).2
    = (if reaches_mount (this s) (length history) then 1 else 0)%nat
    ∧ loadSourceLevel (this (play s history).1)
      = loadSourceLevel (this s) + Z.of_nat (length history)).
  { clear history. induction history as [|ev history IH]; intros s F.
    { cbn. unfold reaches_mount. rewrite bool_decide_false by lia.
      split; [done|lia]. }
    apply Forall_cons in F as [O F]. destruct ev as [env h| | | | | | |]; try done.
    cbn [play occur].
    destruct (onLoad_counts env h s) as (L & P & N & C).
    destruct (IH (Js.final (onLoad env h s)) F) as [IH1 IH2].
    destruct (play (Js.final (onLoad env h s)) history) as [s2 t2].
    cbn [fst snd length] in *. rewrite calls_app, C, IH1, IH2, L.
    split; [|lia].
    rewrite <- (reaches_mount_step (this s) (this (Js.final (onLoad env h s)))
                  (length history) L P (λ E, proj2 (N E))).
    f_equal. destruct (decide (loadSourceLevel (this s) + 1 = 2)) as [E|E].
    - rewrite (bool_decide_true _ E). unfold reaches_mount.
      rewrite L, bool_decide_false by lia. done.
    - rewrite (bool_decide_false _ E). done. }
  intros s F. destruct (G history s F) as [G1 G2].
  split; [exact G1|]. split; [exact G2|]. rewrite G1. destruct (reaches_mount _ _); lia.
Qed.

(** app1 with three channels reporting: the second mounts it, the third
    does not mount it again. *)
Lemma loading_mounts_at_most_once_witness :
  let history := [EvOnLoad plain_env 5%nat; EvOnLoad plain_env 6%nat;
                  EvOnLoad plain_env 7%nat] in
  calls m_mount (play app1 history).2 = 1%nat
  ∧ loadSourceLevel (this (play app1 history).1) = 3.
Proof.
  cbv zeta.
  destruct (loading_mounts_at_most_once
              [EvOnLoad plain_env 5%nat; EvOnLoad plain_env 6%nat; EvOnLoad plain_env 7%nat]
              app1) as (C & L & _); [repeat constructor|].
  split; [rewrite C; reflexivity|rewrite L; reflexivity].
Defined.

Lemma onLoadError_run e s :
  onLoadError e s =
    if bool_decide (appStates.UNMOUNT ≠ state (this s)) then
      (Js.Normal tt,
       with_this (set_state appStates.LOAD_SOURCE_ERROR
                    (set_loadSourceLevel (-1) (this s))) s,
       [Call m_onLoadError; Call m_onerror;
        DispatchLifecyclesEvent (container (this s)) (name (this s))
          lifeCycles.ERROR (Some e)])
    else (Js.Normal tt, with_this (set_loadSourceLevel (-1) (this s)) s,
          [Call m_onLoadError]).
Proof.
  destruct s as [a m]. unfold onLoadError, onerror. unfold_m. cbn.
  case_bool_decide; reflexivity.
Qed.

(** X7.  A load error sets the counter to -1 and, unless the instance is
    unmounted, reports the error once on the container and sets
    [LOAD_SOURCE_ERROR]; on an unmounted instance it only sets the counter.
    The other channel completing afterwards, and one more completion after
    that, do nothing but count: no [mount], no event, the state is kept.
    Only a third completion brings the counter back to 2. *)
Theorem load_error_blocks_mount e env1 env2 h1 h2 s :
  let o0 := onLoadError e s in
  let o1 := onLoad env1 h1 (Js.final o0) in
  let o2 := onLoad env2 h2 (Js.final o1) in
  Js.result o0 = Js.Normal tt
  ∧ loadSourceLevel (this (Js.final o0)) = -1
  ∧ (if bool_decide (state (this s) = appStates.UNMOUNT) then
       state (this (Js.final o0)) = appStates.UNMOUNT
       ∧ Js.trace o0 = [Call m_onLoadError]
     else
       state (this (Js.final o0)) = appStates.LOAD_SOURCE_ERROR
       ∧ Js.trace o0 =
           [Call m_onLoadError; Call m_onerror;
            DispatchLifecyclesEvent (container (this s)) (name (this s))
              lifeCycles.ERROR (Some e)])
  ∧ Js.trace o1 = [Call m_onLoad]
  ∧ Js.trace o2 = [Call m_onLoad]
  ∧ state (this (Js.final o2)) = state (this (Js.final o0))
  ∧ loadSourceLevel (this (Js.final o2)) = 1
  ∧ (∀ env3 h3,
       calls m_mount (Js.trace (onLoad env3 h3 (Js.final o2)))
       = if negb (isPrefetch (this s)) && bool_decide (state (this s) ≠ appStates.UNMOUNT)
         then 1%nat else 0%nat).
Proof.
  cbv zeta.
  assert (E0 : Js.result (onLoadError e s) = Js.Normal tt
               ∧ loadSourceLevel (this (Js.final (onLoadError e s))) = -1
               ∧ isPrefetch (this (Js.final (onLoadError e s))) = isPrefetch (this s)
               ∧ (state (this (Js.final (onLoadError e s))) = appStates.UNMOUNT
                  <-> state (this s) = appStates.UNMOUNT)).
  { rewrite onLoadError_run. case_bool_decide as U; cbn; split_and!; try done;
      try (split; [done|intros U'; by destruct U]). }
  destruct E0 as (R0 & L0 & P0 & U0).
  split; [exact R0|]. split; [exact L0|]. split.
  { rewrite onLoadError_run.
    destruct (decide (state (this s) = appStates.UNMOUNT)) as [U|U].
    - rewrite (bool_decide_true _ U), bool_decide_false by (by rewrite U; auto). done.
    - rewrite (bool_decide_false _ U), bool_decide_true by (by auto). done. }
  set (s0 := Js.final (onLoadError e s)) in *. clearbody s0.
  destruct (onLoad_counts env1 h1 s0) as (L1 & P1 & N1 & _).
  destruct N1 as [T1 S1]; [lia|].
  set (s1 := Js.final (onLoad env1 h1 s0)) in *. clearbody s1.
  destruct (onLoad_counts env2 h2 s1) as (L2 & P2 & N2 & _).
  destruct N2 as [T2 S2]; [lia|].
  set (s2 := Js.final (onLoad env2 h2 s1)) in *. clearbody s2.
  split_and!; [done|done|congruence|lia|].
  intros env3 h3. destruct (onLoad_counts env3 h3 s2) as (_ & _ & _ & C3).
  rewrite C3, bool_decide_true by lia. cbn [andb].
  rewrite P2, P1, P0.
  assert (B : bool_decide (state (this s2) ≠ appStates.UNMOUNT)
              = bool_decide (state (this s) ≠ appStates.UNMOUNT)).
  { apply bool_decide_ext. rewrite S2, S1. split; intros H U; apply H; by apply U0. }
  by rewrite B.
Qed.

(** * Unmounting without destroying *)

Lemma unmount_registry env d s :
  let o := unmount env d s in
  (forced d (this s) = false -> appInstanceMap (Js.final o) = appInstanceMap s)
  ∧ (∀ env' out,
       forced d (this s) = false ->
       appInstanceMap
         (Js.final (settle env' out (ThenActionsForUnmount (forced d (this s)))
                      (CatchActionsForUnmount (forced d (this s))) (Js.final o)))
       = appInstanceMap s).
Proof.
  cbv zeta.
  assert (A : ∀ env0 s0, appInstanceMap (Js.final (actionsForUnmount env0 false s0))
                         = appInstanceMap s0).
  { intros env0 s0.
    by destruct (actionsForUnmount_run env0 false s0) as (_ & _ & _ & _ & _ & _ & _ & _ & _ & H & _);
      apply H. }
  assert (B : forced d (this s) = false ->
              appInstanceMap (Js.final (unmount env d s)) = appInstanceMap s).
  { intros F. rewrite unmount_run. cbv zeta. rewrite handleUnmounted_run, F.
    match goal with |- context [match ?v with Js.VPromise _ => _ | _ => _ end] =>
      destruct v end; cbv zeta; run_simpl; first [reflexivity|rewrite A; reflexivity]. }
  split; [exact B|]. intros env' out F. rewrite F, <- (B F).
  set (s1 := Js.final (unmount env d s)). clearbody s1.
  destruct out as [|reason]; cbn [settle runThen runCatch]; [|apply A].
  unfold try_catch. pose proof (A env' s1) as A1.
  destruct (actionsForUnmount env' false s1) as [[[[]|e0] s2] t2]; [exact A1|].
  unfold Js.final in A1. cbn [fst snd] in A1. cbn [runCatch].
  pose proof (A env' s2) as A2.
  destruct (actionsForUnmount env' false s2) as [[r3 s3] t3].
  unfold Js.final in *. cbn [fst snd] in *. congruence.
Qed.

(** X8.  [unmount(false)] on an instance that is not in state
    [LOAD_SOURCE_ERROR] leaves [appInstanceMap] as it is, whether the
    teardown runs in the call or is registered on the promise the unmount
    hook returned, and however that promise settles; the state is then
    [UNMOUNT] and [actionsForCompletelyDestory] is not called, neither in
    the call nor when the promise settles. *)
Theorem kept_app_stays_registered env s :
  state (this s) ≠ appStates.LOAD_SOURCE_ERROR ->
  let o := unmount env false s in
  appInstanceMap (Js.final o) = appInstanceMap s
  ∧ state (this (Js.final o)) = appStates.UNMOUNT
  ∧ calls m_actionsForCompletelyDestory (Js.trace o) = 0%nat
  ∧ (∀ env' out,
       let o' := settle env' out (ThenActionsForUnmount false)
                   (CatchActionsForUnmount false) (Js.final o) in
       appInstanceMap (Js.final o') = appInstanceMap s
       ∧ calls m_actionsForCompletelyDestory (Js.trace o') = 0%nat).
Proof.
  intros E. cbv zeta.
  assert (F : forced false (this s) = false).
  { unfold forced. by rewrite bool_decide_false. }
  destruct (unmount_registry env false s) as [R1 R2]. rewrite F in R2.
  destruct (unmount_state env false s) as (U & _).
  assert (A : ∀ env0 s0,
            calls m_actionsForCompletelyDestory (Js.trace (actionsForUnmount env0 false s0))
            = 0%nat).
  { intros env0 s0. destruct s0 as [a m]. destruct a.
    unfold actionsForUnmount. unfold_m. cbn.
    destruct umdMode0, sandBox0, container0; cbn; repeat case_bool_decide; cbn; done. }
  split; [exact (R1 F)|]. split; [exact U|]. split.
  - rewrite unmount_run. cbv zeta. rewrite handleUnmounted_run, F.
    pose proof (A env (with_this (unmounting (this s)) s)) as A1.
    unfold try_call.
    destruct (umdHookUnmount (this s)) as [f|]; [destruct (callFunc env f) as [[]|]|];
      cbn [fst snd]; unfold Js.trace in *; cbn [fst snd];
      rewrite ?calls_app; cbn [calls]; try done;
      match goal with |- context [Call m_handleUnmounted :: ?t] =>
        change (Call m_handleUnmounted :: t) with ([Call m_handleUnmounted] ++ t) end;
      rewrite ?calls_app, A1; done.
  - intros env' out. split; [exact (R2 env' out eq_refl)|].
    set (s1 := Js.final (unmount env false s)). clearbody s1.
    destruct out as [|reason]; cbn [settle runThen runCatch]; [|apply A].
    unfold try_catch. pose proof (A env' s1) as A1.
    destruct (actionsForUnmount env' false s1) as [[[[]|e0] s2] t2]; [exact A1|].
    cbn [runCatch]. pose proof (A env' s2) as A2.
    destruct (actionsForUnmount env' false s2) as [[r3 s3] t3].
    unfold Js.trace in *. cbn [fst snd] in *. rewrite calls_app, A1, A2. done.
Qed.

Lemma kept_app_stays_registered_witness :
  let o := unmount plain_env false (app1_mounted plain_env) in
  appInstanceMap (Js.final o) = [("app1", 0%nat)]
  ∧ state (this (Js.final o)) = appStates.UNMOUNT.
Proof.
  cbv zeta.
  destruct (kept_app_stays_registered plain_env (app1_mounted plain_env))
    as (R & U & _); [vm_compute; discriminate|].
  split; [rewrite R; reflexivity|exact U].
Defined.

(** X9.  [mount] on an instance whose load has failed does not mount it:
    past the adoption of its arguments it only sets [LOADING_SOURCE_CODE],
    since the counter is -1.  The instance is then no longer in state
    [LOAD_SOURCE_ERROR], and an [unmount(false)] does not destroy it. *)
Theorem mount_after_load_error e env c i b s :
  state (this s) ≠ appStates.UNMOUNT ->
  let s1 := Js.final (onLoadError e s) in
  let o := mount env c i b s1 in
  state (this s1) = appStates.LOAD_SOURCE_ERROR
  ∧ Js.trace o = [Call m_mount]
  ∧ state (this (Js.final o)) = appStates.LOADING_SOURCE_CODE
  ∧ loadSourceLevel (this (Js.final o)) = -1
  ∧ (∀ d, forced d (this (Js.final o)) = d)
  ∧ (∀ env',
       appInstanceMap (Js.final (unmount env' false (Js.final o))) = appInstanceMap s).
Proof.
  intros U. cbv zeta.
  assert (E1 : Js.final (onLoadError e s)
               = with_this (set_state appStates.LOAD_SOURCE_ERROR
                              (set_loadSourceLevel (-1) (this s))) s).
  { rewrite onLoadError_run, bool_decide_true by auto. reflexivity. }
  rewrite E1. set (s1 := with_this _ s).
  assert (L : loadSourceLevel (this s1) ≠ 2) by (cbn; lia).
  rewrite (mount_not_loaded env c i b s1 L). run_simpl.
  assert (S : state (this (with_this (set_state appStates.LOADING_SOURCE_CODE
                                        (adopt c i b (this s1))) s1))
              = appStates.LOADING_SOURCE_CODE) by done.
  assert (Lv : loadSourceLevel (this (with_this (set_state appStates.LOADING_SOURCE_CODE
                                        (adopt c i b (this s1))) s1)) = -1).
  { unfold adopt. destruct i as [x|]; [destruct (bool_decide _)|]; reflexivity. }
  set (s2 := with_this (set_state appStates.LOADING_SOURCE_CODE (adopt c i b (this s1))) s1)
    in *.
  assert (F : ∀ d, forced d (this s2) = d).
  { intros d. unfold forced. rewrite S. by rewrite bool_decide_false. }
  split_and!; [done|done|done|done|exact F|].
  intros env'. destruct (unmount_registry env' false s2) as [R _].
  rewrite (R (F false)). reflexivity.
Qed.

Lemma mount_after_load_error_witness :
  let o := mount plain_env None None None app1_failed in
  state (this app1_failed) = appStates.LOAD_SOURCE_ERROR
  ∧ state (this (Js.final o)) = appStates.LOADING_SOURCE_CODE
  ∧ appInstanceMap (Js.final (unmount plain_env false (Js.final o))) = [("app1", 0%nat)].
Proof.
  cbv zeta.
  destruct (mount_after_load_error (Js.Raised 1) plain_env None None None app1)
    as (S1 & _ & S2 & _ & _ & R); [vm_compute; discriminate|].
  split; [exact S1|]. split; [exact S2|]. exact (R plain_env).
Defined.

(** * Mounting *)

Lemma mount_prelude_dispatches a l :
  l ≠ lifeCycles.BEFOREMOUNT -> dispatches l (mount_prelude a) = 0%nat.
Proof. intros N. unfold mount_prelude. destruct l; case_bool_decide; done. Qed.

Lemma try_call_dispatches env msg n f l : dispatches l (try_call env msg n f).2 = 0%nat.
Proof. unfold try_call. destruct (callFunc env f); done. Qed.

Lemma handleMounted_state v s :
  state (this s) ≠ appStates.UNMOUNT ->
  let o := handleMounted v s in
  Js.result o = Js.Normal tt
  ∧ dispatches lifeCycles.ERROR (Js.trace o) = 0%nat
  ∧ if Js.isPromise v
    then Js.final o = s ∧ dispatches lifeCycles.MOUNTED (Js.trace o) = 0%nat
    else state (this (Js.final o)) = appStates.MOUNTED
         ∧ dispatches lifeCycles.MOUNTED (Js.trace o) = 1%nat.
Proof.
  intros U. cbv zeta. rewrite handleMounted_run.
  destruct v; try (rewrite bool_decide_true by auto); cbn [Js.isPromise];
    split_and!; reflexivity.
Qed.

(** One invocation of the completion callback on an instance that is not
    unmounted: either the state is kept and no mounted event is
    dispatched, or the one-shot fires, the state becomes [MOUNTED] and the
    mounted event is dispatched once. *)
Lemma execScriptsCallback_state env cb c s :
  state (this s) ≠ appStates.UNMOUNT ->
  let o := execScriptsCallback env cb c s in
  (state (this (Js.final o)) = state (this s)
   ∧ dispatches lifeCycles.MOUNTED (Js.trace o) = 0%nat
   ∧ (∀ c', Js.result o = Js.Normal c' ->
        hasDispatchMountedEvent c = true -> hasDispatchMountedEvent c' = true))
  ∨ (hasDispatchMountedEvent c = false
     ∧ (∃ c', Js.result o = Js.Normal c' ∧ hasDispatchMountedEvent c' = true)
     ∧ state (this (Js.final o)) = appStates.MOUNTED
     ∧ dispatches lifeCycles.MOUNTED (Js.trace o) = 1%nat).
Proof.
  intros U. cbv zeta.
  destruct (detectUmd_run env cb c s)
    as (r1 & s1 & t1 & E1 & Hr & _ & Hst & _ & _ & _ & Hd).
  unfold execScriptsCallback.
  destruct r1 as [c1|e].
  2: { rewrite (bind_raise _ _ _ _ _ _ E1). left. split_and!; done. }
  assert (Hf : hasDispatchMountedEvent c1 = hasDispatchMountedEvent c).
  { destruct (probe_raises cb (this s)); [done|]. destruct Hr as (c' & Hc & Hf).
    by simplify_eq. }
  rewrite (bind_run _ _ _ _ _ _ E1).
  unfold_m. cbn [fst snd Js.result Js.final Js.trace]. rewrite Hf.
  destruct (hasDispatchMountedEvent c) eqn:Fl; cbn [negb andb].
  { left. run_simpl. rewrite app_nil_r. split_and!; [exact Hst|exact Hd|].
    intros c' E _. by simplify_eq. }
  destruct (isFinished cb || umdMode (this s1)).
  - rewrite handleMounted_run.
    destruct (umdHookMountResult c1) eqn:V;
      try (rewrite bool_decide_true by (by rewrite Hst; auto));
      run_simpl; rewrite ?app_nil_r, dispatches_app, Hd; cbn;
      first [right; split_and!; try done; by eexists | left; split_and!; done].
  - left. run_simpl. rewrite app_nil_r. split_and!; [exact Hst|exact Hd|done].
Qed.

Lemma execScripts_state env runs : ∀ c s,
  (state (this s) = appStates.MOUNTING
   ∨ state (this s) = appStates.MOUNTED ∧ hasDispatchMountedEvent c = true) ->
  let o := execScripts env runs c s in
  (state (this (Js.final o)) = state (this s)
   ∧ dispatches lifeCycles.MOUNTED (Js.trace o) = 0%nat)
  ∨ (state (this s) = appStates.MOUNTING
     ∧ state (this (Js.final o)) = appStates.MOUNTED
     ∧ dispatches lifeCycles.MOUNTED (Js.trace o) = 1%nat).
Proof.
  induction runs as [|cb runs IH]; intros c s J; cbv zeta; cbn [execScripts].
  { by left. }
  destruct (execScriptsCallback_state env cb c s) as [H1|H1].
  { destruct J as [->|[-> _]]; done. }
  - destruct H1 as (S1 & D1 & F1).
    destruct (execScriptsCallback env cb c s) as [[[c1|e] s1] t1] eqn:E1.
    2: { rewrite (bind_raise _ _ _ _ _ _ E1). by left. }
    rewrite (bind_run _ _ _ _ _ _ E1).
    unfold Js.final, Js.trace, Js.result in *. cbn [fst snd] in *.
    assert (J1 : state (this s1) = appStates.MOUNTING
                 ∨ state (this s1) = appStates.MOUNTED ∧ hasDispatchMountedEvent c1 = true).
    { rewrite S1. destruct J as [?|[? ?]]; [by left|right]. split; [done|]. by apply F1. }
    specialize (IH c1 s1 J1). cbv zeta in IH.
    destruct (execScripts env runs c1 s1) as [[r2 s2] t2]. cbn [fst snd] in *.
    rewrite dispatches_app, D1.
    destruct IH as [[S2 D2]|(S2 & S2' & D2)]; rewrite D2.
    + left. split; [congruence|done].
    + right. split_and!; [congruence|done|done].
  - destruct H1 as (F0 & (c1 & R1 & F1) & S1 & D1).
    destruct (execScriptsCallback env cb c s) as [[r1 s1] t1] eqn:E1.
    unfold Js.final, Js.trace, Js.result in *. cbn [fst snd] in *. subst r1.
    rewrite (bind_run _ _ _ _ _ _ E1).
    assert (J1 : state (this s1) = appStates.MOUNTING
                 ∨ state (this s1) = appStates.MOUNTED ∧ hasDispatchMountedEvent c1 = true)
      by (by right).
    specialize (IH c1 s1 J1). cbv zeta in IH.
    destruct (execScripts env runs c1 s1) as [[r2 s2] t2].
    unfold Js.final, Js.trace in *. cbn [fst snd] in *.
    rewrite dispatches_app, D1.
    destruct IH as [[S2 D2]|(S2 & S2' & D2)]; [|congruence]. rewrite D2.
    right. destruct J as [?|[_ ?]]; [|congruence]. split_and!; [done|congruence|done].
Qed.

(** X10.  A [mount] that gets past the load gate dispatches the
    before-mount event once and leaves the instance in one of two
    situations: the mounted event has been dispatched, once, and the state
    is [MOUNTED]; or it has not been dispatched and the state is
    [MOUNTING].  In UMD mode it returns normally. *)
Theorem mount_state_matches_event env c i b s :
  loadSourceLevel (this s) = 2 ->
  let o := mount env c i b s in
  dispatches lifeCycles.BEFOREMOUNT (Js.trace o) = 1%nat
  ∧ (umdMode (this s) = true -> Js.result o = Js.Normal None)
  ∧ (state (this (Js.final o)) = appStates.MOUNTED
     ∧ dispatches lifeCycles.MOUNTED (Js.trace o) = 1%nat
     ∨ state (this (Js.final o)) = appStates.MOUNTING
       ∧ dispatches lifeCycles.MOUNTED (Js.trace o) = 0%nat).
Proof.
  intros L. cbv zeta.
  destruct (mount_loaded env c i b s L) as (_ & B & _). split_and!; [exact B| |].
  - intros U. by rewrite (mount_umd env c i b s L U).
  - set (a := mounting c i b (this s)).
    assert (Sa : state a = appStates.MOUNTING) by done.
    assert (Pd : dispatches lifeCycles.MOUNTED (mount_prelude a) = 0%nat)
      by (by apply mount_prelude_dispatches).
    destruct (umdMode (this s)) eqn:U.
    + rewrite (mount_umd env c i b s L U). cbv zeta. fold a. run_simpl.
      rewrite !dispatches_app, Pd.
      assert (R : dispatches lifeCycles.MOUNTED
                    (match umdHookMount a with
                     | Some f => try_call env mount_msg (name a) f
                     | None => (Js.VUndefined, [LogError mount_msg (name a) Js.TypeError])
                     end).2 = 0%nat).
      { destruct (umdHookMount a); [apply try_call_dispatches|done]. }
      rewrite R.
      assert (Rb : ∀ x : bool, dispatches lifeCycles.MOUNTED
                     (if x then [RebuildUmdSnapshot] else []) = 0%nat) by (by intros []).
      rewrite Rb.
      match goal with |- context [handleMounted ?v ?s0] =>
        destruct (handleMounted_state v s0) as (_ & _ & H);
          [cbn [this with_this]; by rewrite Sa|];
        destruct (Js.isPromise v) end.
      * destruct H as [-> ->]. right. done.
      * destruct H as [-> ->]. left. done.
    + rewrite (mount_scripts env c i b s L U). cbv zeta. fold a. fold fresh_closure.
      destruct (execScripts_state env (execScriptsSync env) fresh_closure (with_this a s))
        as [H|H]; [by left|..];
        destruct (execScripts env (execScriptsSync env) fresh_closure (with_this a s))
          as [[r' s'] t'];
        unfold Js.final, Js.trace in *; cbn [fst snd] in *;
        change (ExecScripts (scripts (source a)) :: t')
          with ([ExecScripts (scripts (source a))] ++ t');
        rewrite !dispatches_app, Pd.
      * destruct H as [-> ->]. right. done.
      * destruct H as (_ & -> & ->). left. done.
Qed.

Lemma mount_state_matches_event_witness :
  let o := mount plain_env None None None app1_loaded in
  state (this (Js.final o)) = appStates.MOUNTED
  ∧ dispatches lifeCycles.MOUNTED (Js.trace o) = 1%nat.
Proof.
  cbv zeta.
  destruct (mount_state_matches_event plain_env None None None app1_loaded)
    as (_ & _ & [H|[H _]]); [reflexivity|exact H|].
  exfalso. vm_compute in H. discriminate H.
Defined.

Lemma mount_cached_hook env c i b s f :
  loadSourceLevel (this s) = 2 -> umdMode (this s) = true ->
  umdHookMount (this s) = Some f ->
  let a := mounting c i b (this s) in
  let r := try_call env mount_msg (name (this s)) f in
  let o := handleMounted r.1 (with_this a s) in
  mount env c i b s =
    (Js.Normal None, Js.final o,
     mount_prelude a
       ++ (if bool_decide (is_Some (sandBox a)) then [RebuildUmdSnapshot] else [])
       ++ r.2 ++ Js.trace o).
Proof.
  intros L U F. cbv zeta. rewrite (mount_umd env c i b s L U). cbv zeta.
  destruct (adopt_identity c i b (this s) appStates.MOUNTING) as ([N _ _ _ _ _ _ _] & [_ M _ _] & _).
  fold (mounting c i b (this s)) in N, M. rewrite M, F, N. reflexivity.
Qed.

(** X11.  In UMD mode, when the cached mount hook returns a promise,
    [mount] registers [dispatchMountedEvent] and [onerror] on it and
    returns with the state [MOUNTING] and no mounted event.  When the
    promise is fulfilled the state becomes [MOUNTED] and the mounted event
    is dispatched; when it is rejected, the error event is dispatched with
    the reason and the instance is left as it was, in state [MOUNTING]. *)
Theorem deferred_mount_hook env c i b s f p :
  loadSourceLevel (this s) = 2 -> umdMode (this s) = true ->
  umdHookMount (this s) = Some f -> callFunc env f = Js.Returns (Js.VPromise p) ->
  let o := mount env c i b s in
  let s' := Js.final o in
  state (this s') = appStates.MOUNTING
  ∧ dispatches lifeCycles.MOUNTED (Js.trace o) = 0%nat
  ∧ last (Js.trace o) = Some (ThenCatch p ThenDispatchMountedEvent CatchOnerror)
  ∧ (∀ env',
       settle env' Fulfilled ThenDispatchMountedEvent CatchOnerror s' =
         (Js.Normal tt, with_this (set_state appStates.MOUNTED (this s')) s',
          [Call m_dispatchMountedEvent;
           DispatchLifecyclesEvent (container (this s')) (name (this s'))
             lifeCycles.MOUNTED None]))
  ∧ (∀ env' e,
       settle env' (Rejected e) ThenDispatchMountedEvent CatchOnerror s' =
         (Js.Normal tt, s',
          [Call m_onerror;
           DispatchLifecyclesEvent (container (this s')) (name (this s'))
             lifeCycles.ERROR (Some e)])).
Proof.
  intros L U F C. cbv zeta. rewrite (mount_cached_hook env c i b s f L U F). cbv zeta.
  unfold try_call. rewrite C. cbn [fst snd]. rewrite handleMounted_run. run_simpl.
  set (a := mounting c i b (this s)).
  assert (Sa : state (this (with_this a s)) = appStates.MOUNTING) by done.
  split; [exact Sa|]. split.
  { rewrite !dispatches_app, (mount_prelude_dispatches a lifeCycles.MOUNTED) by done.
    by destruct (bool_decide (is_Some (sandBox a))). }
  split.
  { match goal with |- context [[Call m_handleMounted; ?y]] =>
      change [Call m_handleMounted; y] with ([Call m_handleMounted] ++ [y]) end.
    rewrite !app_assoc. apply last_snoc. }
  split.
  - intros env'. cbn [settle runThen]. unfold try_catch.
    rewrite dispatchMountedEvent_run, bool_decide_true by (by rewrite Sa). reflexivity.
  - intros env' e. cbn [settle runCatch]. destruct s as [a0 m0]. reflexivity.
Qed.

(** X12.  In UMD mode, when the cached mount hook raises, [mount] logs the
    exception and goes on as if the hook had returned nothing: it returns
    normally, the state is [MOUNTED], the mounted event is dispatched once
    and no error event is dispatched. *)
Theorem throwing_mount_hook_still_mounts env c i b s f e :
  loadSourceLevel (this s) = 2 -> umdMode (this s) = true ->
  umdHookMount (this s) = Some f -> callFunc env f = Js.Throws e ->
  let o := mount env c i b s in
  Js.result o = Js.Normal None
  ∧ state (this (Js.final o)) = appStates.MOUNTED
  ∧ LogError mount_msg (name (this s)) e ∈ Js.trace o
  ∧ dispatches lifeCycles.MOUNTED (Js.trace o) = 1%nat
  ∧ dispatches lifeCycles.ERROR (Js.trace o) = 0%nat.
Proof.
  intros L U F C. cbv zeta. rewrite (mount_cached_hook env c i b s f L U F). cbv zeta.
  unfold try_call. rewrite C. cbn [fst snd]. run_simpl.
  set (a := mounting c i b (this s)).
  destruct (handleMounted_state Js.VUndefined (with_this a s)) as (_ & He & Hs & Hd); [done|].
  split; [done|]. split; [exact Hs|]. split; [set_solver|].
  rewrite !dispatches_app, Hd, He, !mount_prelude_dispatches by done.
  by destruct (bool_decide (is_Some (sandBox a))).
Qed.

Lemma deferred_mount_hook_witness :
  let o := mount mount_deferring_env (Some 8%nat) None None app1_umd_unmounted in
  state (this (Js.final o)) = appStates.MOUNTING
  ∧ state (this (Js.final (settle plain_env Fulfilled ThenDispatchMountedEvent
                             CatchOnerror (Js.final o)))) = appStates.MOUNTED
  ∧ state (this (Js.final (settle plain_env (Rejected (Js.Raised 3))
                             ThenDispatchMountedEvent CatchOnerror (Js.final o))))
    = appStates.MOUNTING.
Proof.
  cbv zeta.
  pose proof (deferred_mount_hook mount_deferring_env (Some 8%nat) None None
                app1_umd_unmounted 1%nat 4%nat
                ltac:(vm_compute; reflexivity) ltac:(vm_compute; reflexivity)
                ltac:(vm_compute; reflexivity) ltac:(vm_compute; reflexivity)) as H.
  cbv zeta in H. destruct H as (S & _ & _ & Fu & Re).
  split; [exact S|]. split.
  - etransitivity;
      [exact (f_equal (λ o, state (this (Js.final o))) (Fu plain_env))
      |vm_compute; reflexivity].
  - etransitivity;
      [exact (f_equal (λ o, state (this (Js.final o))) (Re plain_env (Js.Raised 3)))
      |vm_compute; reflexivity].
Defined.

Lemma throwing_mount_hook_still_mounts_witness :
  let o := mount mount_throwing_env (Some 8%nat) None None app1_umd_unmounted in
  Js.result o = Js.Normal None
  ∧ state (this (Js.final o)) = appStates.MOUNTED
  ∧ dispatches lifeCycles.MOUNTED (Js.trace o) = 1%nat
  ∧ dispatches lifeCycles.ERROR (Js.trace o) = 0%nat.
Proof.
  cbv zeta.
  destruct (throwing_mount_hook_still_mounts mount_throwing_env (Some 8%nat) None None
              app1_umd_unmounted 1%nat (Js.Raised 2))
    as (R & S & _ & M & E); [vm_compute; reflexivity..|].
  split_and!; [exact R|exact S|exact M|exact E].
Defined.

(** * Unmounting *)

(** [actionsForUnmount], case by case. *)
Lemma actionsForUnmount_eq env d s :
  let a := this s in
  actionsForUnmount env d s =
    if d then
      let s1 := {| this := a; appInstanceMap := Js.map_delete (name a) (appInstanceMap s) |} in
      match container a with
      | Js.Node e =>
          (Js.Normal tt, with_this (set_container Js.Null a) s1,
           teardown_prelude a ++ destroy_effects a ++ [ClearInnerHTML e])
      | _ => (Js.Abrupt Js.TypeError, s1, teardown_prelude a ++ destroy_effects a)
      end
    else
      match container a with
      | Js.Node e =>
          (Js.Normal tt, with_this (set_container Js.Null a) s,
           teardown_prelude a
             ++ (if umdMode a && bool_decide (childElementCount env e ≠ 0%nat)
                 then [CloneContainer (Js.Node e) (html (source a)) false] else [])
             ++ [ClearInnerHTML e])
      | _ => (Js.Abrupt Js.TypeError, s, teardown_prelude a)
      end.
Proof.
  destruct s as [a m]. destruct a. cbv zeta. cbn [this].
  unfold actionsForUnmount, actionsForCompletelyDestory, teardown_prelude, destroy_effects.
  unfold_m. cbn.
  destruct d, umdMode0, useSandbox0, sandBox0, container0; cbn;
    repeat case_bool_decide; cbn; try reflexivity; exfalso; eauto using is_Some_None.
Qed.

Lemma teardown_prelude_counts a :
  calls m_actionsForUnmount (teardown_prelude a) = 1%nat
  ∧ dispatches lifeCycles.UNMOUNT (teardown_prelude a) = 1%nat
  ∧ Forall (λ e, is_clearInnerHTML e = false ∧ is_cloneContainer e = false)
      (teardown_prelude a).
Proof. unfold teardown_prelude. case_bool_decide; cbn; split_and!; try done; repeat constructor. Qed.

Lemma destroy_effects_counts a :
  calls m_actionsForUnmount (destroy_effects a) = 0%nat
  ∧ dispatches lifeCycles.UNMOUNT (destroy_effects a) = 0%nat
  ∧ Forall (λ e, is_clearInnerHTML e = false ∧ is_cloneContainer e = false)
      (destroy_effects a).
Proof.
  unfold destroy_effects. destruct (negb _ && _); cbn; split_and!; try done;
    repeat constructor.
Qed.

Lemma defers_spec env a :
  let r := match umdHookUnmount a with
           | Some f => try_call env unmount_msg (name a) f
           | None => (Js.VUndefined, [])
           end in
  Js.isPromise r.1 = defers env a
  ∧ calls m_actionsForUnmount r.2 = 0%nat
  ∧ dispatches lifeCycles.UNMOUNT r.2 = 0%nat
  ∧ Forall (λ e, is_clearInnerHTML e = false ∧ is_cloneContainer e = false) r.2.
Proof.
  unfold defers, try_call.
  destruct (umdHookUnmount a) as [f|]; [destruct (callFunc env f) as [[]|]|]; cbn;
    split_and!; try done; repeat constructor.
Qed.

(** [unmount] when its hook does not return a promise: the final teardown
    runs in the call. *)
Lemma unmount_now env d s :
  defers env (this s) = false ->
  let a := this s in
  let r := match umdHookUnmount a with
           | Some f => try_call env unmount_msg (name a) f
           | None => (Js.VUndefined, [])
           end in
  let o := actionsForUnmount env (forced d a) (with_this (unmounting a) s) in
  unmount env d s =
    (Js.result o, Js.final o,
     [Call m_unmount] ++ r.2
       ++ [DispatchCustomEventToMicroApp "unmount" (name a) None]
       ++ [Call m_handleUnmounted] ++ Js.trace o).
Proof.
  intros D. cbv zeta. rewrite unmount_run. cbv zeta. rewrite handleUnmounted_run.
  destruct (defers_spec env (this s)) as (P & _). cbv zeta in P. rewrite D in P.
  match goal with |- context [match ?v with Js.VPromise _ => _ | _ => _ end] =>
    destruct v end; try done.
Qed.

Lemma truthy_not_node (r : Js.Ref) :
  Js.truthy r = false -> ∀ e, r ≠ Js.Node e.
Proof. by destruct r. Qed.

(** What the final teardown does on an instance without container. *)
Lemma actionsForUnmount_raises env d s :
  Js.truthy (container (this s)) = false ->
  let o := actionsForUnmount env d s in
  Js.result o = Js.Abrupt Js.TypeError
  ∧ this (Js.final o) = this s
  ∧ appInstanceMap (Js.final o)
    = (if d then Js.map_delete (name (this s)) (appInstanceMap s) else appInstanceMap s)
  ∧ calls m_actionsForUnmount (Js.trace o) = 1%nat
  ∧ dispatches lifeCycles.UNMOUNT (Js.trace o) = 1%nat
  ∧ Forall (λ e, is_clearInnerHTML e = false ∧ is_cloneContainer e = false) (Js.trace o).
Proof.
  intros C. cbv zeta. rewrite actionsForUnmount_eq. cbv zeta.
  destruct (teardown_prelude_counts (this s)) as (P1 & P2 & P3).
  destruct (destroy_effects_counts (this s)) as (Q1 & Q2 & Q3).
  destruct d, (container (this s)); try done; run_simpl;
    rewrite ?calls_app, ?dispatches_app, ?P1, ?P2, ?Q1, ?Q2, ?Forall_app;
    split_and!; done.
Qed.

(** What the final teardown does on an instance that holds a container. *)
Lemma actionsForUnmount_completes env d s e :
  container (this s) = Js.Node e ->
  let o := actionsForUnmount env d s in
  Js.result o = Js.Normal tt
  ∧ this (Js.final o) = set_container Js.Null (this s)
  ∧ appInstanceMap (Js.final o)
    = (if d then Js.map_delete (name (this s)) (appInstanceMap s) else appInstanceMap s)
  ∧ calls m_actionsForUnmount (Js.trace o) = 1%nat
  ∧ dispatches lifeCycles.UNMOUNT (Js.trace o) = 1%nat
  ∧ last (Js.trace o) = Some (ClearInnerHTML e).
Proof.
  intros C. cbv zeta. rewrite actionsForUnmount_eq. cbv zeta.
  destruct (teardown_prelude_counts (this s)) as (P1 & P2 & P3).
  destruct (destroy_effects_counts (this s)) as (Q1 & Q2 & Q3).
  rewrite C. destruct d; run_simpl;
    rewrite ?calls_app, ?dispatches_app, ?P1, ?P2, ?Q1, ?Q2;
    (split_and!; [done|done|done| |
                  |rewrite !app_assoc; apply last_snoc]);
    try done; destruct (_ && _); done.
Qed.

(** [unmount] on an instance without container, with a hook that does not
    return a promise. *)
Lemma unmount_raises env d s :
  Js.truthy (container (this s)) = false -> defers env (this s) = false ->
  let o := unmount env d s in
  Js.result o = Js.Abrupt Js.TypeError
  ∧ this (Js.final o) = unmounting (this s)
  ∧ appInstanceMap (Js.final o)
    = (if forced d (this s) then Js.map_delete (name (this s)) (appInstanceMap s)
       else appInstanceMap s)
  ∧ dispatches lifeCycles.UNMOUNT (Js.trace o) = 1%nat
  ∧ Forall (λ e, is_clearInnerHTML e = false) (Js.trace o).
Proof.
  intros C D. cbv zeta. rewrite (unmount_now env d s D). cbv zeta.
  destruct (defers_spec env (this s)) as (_ & _ & R2 & R3). cbv zeta in R2, R3.
  destruct (actionsForUnmount_raises env (forced d (this s)) (with_this (unmounting (this s)) s))
    as (A1 & A2 & A3 & _ & A5 & A6); [exact C|].
  run_simpl. rewrite !dispatches_app, R2, A5, A2, A3.
  split_and!; try done.
  rewrite !Forall_app. split_and!; try (repeat constructor; done).
  - eapply Forall_impl; [exact R3|]. by intros ? [? _].
  - eapply Forall_impl; [exact A6|]. by intros ? [? _].
Qed.

(** X13.  [unmount] on an instance that holds no container, with an unmount
    hook that does not return a promise, raises a [TypeError] from the
    final teardown.  By then the state is [UNMOUNT], the keep-alive state
    is reset, the unmount event has been dispatched once and, when the
    teardown is a destroying one, the registry entry is deleted; nothing is
    cleared and the container field is as it was. *)
Theorem unmount_without_container env d s :
  Js.truthy (container (this s)) = false -> defers env (this s) = false ->
  let o := unmount env d s in
  Js.result o = Js.Abrupt Js.TypeError
  ∧ this (Js.final o) = unmounting (this s)
  ∧ appInstanceMap (Js.final o)
    = (if forced d (this s) then Js.map_delete (name (this s)) (appInstanceMap s)
       else appInstanceMap s)
  ∧ dispatches lifeCycles.UNMOUNT (Js.trace o) = 1%nat
  ∧ Forall (λ e, is_clearInnerHTML e = false) (Js.trace o).
Proof.
  intros C D. cbv zeta. rewrite (unmount_now env d s D). cbv zeta.
  destruct (defers_spec env (this s)) as (_ & _ & R2 & R3). cbv zeta in R2, R3.
  destruct (actionsForUnmount_raises env (forced d (this s)) (with_this (unmounting (this s)) s))
    as (A1 & A2 & A3 & _ & A5 & A6); [exact C|].
  run_simpl. rewrite !dispatches_app, R2, A5, A2, A3.
  split_and!; try done.
  rewrite !Forall_app. split_and!; try (repeat constructor; done).
  - eapply Forall_impl; [exact R3|]. by intros ? [? _].
  - eapply Forall_impl; [exact A6|]. by intros ? [? _].
Qed.

Lemma unmount_without_container_witness :
  let o := unmount plain_env false app1_umd_unmounted in
  container (this app1_umd_unmounted) = Js.Null
  ∧ Js.result o = Js.Abrupt Js.TypeError
  ∧ dispatches lifeCycles.UNMOUNT (Js.trace o) = 1%nat.
Proof.
  cbv zeta.
  destruct (unmount_without_container plain_env false app1_umd_unmounted)
    as (R & _ & _ & U & _); [vm_compute; reflexivity..|].
  split; [vm_compute; reflexivity|]. split; [exact R|exact U].
Defined.

(** X14.  [unmount] on an instance that holds a container, with an unmount
    hook that does not return a promise, completes: the state is
    [UNMOUNT], the keep-alive state is reset, the unmount event has been
    dispatched once, the last thing done is to empty the container, and
    the container field is [null]; every other field is as it was.  A
    second [unmount], with a hook that again does not return a promise,
    then raises a [TypeError]. *)
Theorem unmount_completes_once env d s e :
  container (this s) = Js.Node e -> defers env (this s) = false ->
  let o := unmount env d s in
  Js.result o = Js.Normal tt
  ∧ this (Js.final o) = set_container Js.Null (unmounting (this s))
  ∧ dispatches lifeCycles.UNMOUNT (Js.trace o) = 1%nat
  ∧ last (Js.trace o) = Some (ClearInnerHTML e)
  ∧ (∀ env' d', defers env' (this s) = false ->
       Js.result (unmount env' d' (Js.final o)) = Js.Abrupt Js.TypeError).
Proof.
  intros C D. cbv zeta.
  assert (T : Js.result (unmount env d s) = Js.Normal tt
              ∧ this (Js.final (unmount env d s)) = set_container Js.Null (unmounting (this s))
              ∧ dispatches lifeCycles.UNMOUNT (Js.trace (unmount env d s)) = 1%nat
              ∧ last (Js.trace (unmount env d s)) = Some (ClearInnerHTML e)).
  { rewrite (unmount_now env d s D). cbv zeta.
    destruct (defers_spec env (this s)) as (_ & _ & R2 & _). cbv zeta in R2.
    destruct (actionsForUnmount_completes env (forced d (this s))
                (with_this (unmounting (this s)) s) e) as (A1 & A2 & _ & _ & A5 & A6);
      [exact C|].
    run_simpl. rewrite !dispatches_app, R2, A5, A2.
    split_and!; try done.
    destruct (Js.trace (actionsForUnmount env (forced d (this s))
                          (with_this (unmounting (this s)) s))) as [|x t] eqn:Et;
      [done|].
    rewrite !app_assoc, last_app, A6. done. }
  destruct T as (T1 & T2 & T3 & T4). split_and!; try done.
  intros env' d' D'.
  destruct (unmount_raises env' d' (Js.final (unmount env d s))) as (R & _).
  - by rewrite T2.
  - rewrite T2. exact D'.
  - exact R.
Qed.

Lemma unmount_completes_once_witness :
  let o := unmount plain_env false (app1_mounted plain_env) in
  Js.result o = Js.Normal tt
  ∧ container (this (Js.final o)) = Js.Null
  ∧ Js.result (unmount plain_env true (Js.final o)) = Js.Abrupt Js.TypeError.
Proof.
  cbv zeta.
  destruct (unmount_completes_once plain_env false (app1_mounted plain_env) 7%nat)
    as (R & F & _ & _ & T); [vm_compute; reflexivity..|].
  split; [exact R|]. split; [rewrite F; reflexivity|].
  apply T. vm_compute. reflexivity.
Defined.

(** * A completion callback that arrives after unmount *)

(** X15.  A completion callback of [execScripts] that arrives when the
    instance is in state [UNMOUNT] leaves the instance and the registry
    exactly as they are.  It reads no attribute and no window property,
    calls no hook and dispatches nothing: outside UMD mode it asks
    [getUmdLibraryHooks], which answers with the empty object, and when
    the one-shot is still unused and the scripts have finished or the
    instance is in UMD mode, it uses it up on a [handleMounted] that does
    not change the state. *)
Theorem late_callback_is_inert env cb c s :
  state (this s) = appStates.UNMOUNT ->
  let fires := negb (hasDispatchMountedEvent c) && (isFinished cb || umdMode (this s)) in
  execScriptsCallback env cb c s =
    (Js.Normal {| hasDispatchMountedEvent := hasDispatchMountedEvent c || fires;
                  umdHookMountResult := umdHookMountResult c |},
     s,
     (if umdMode (this s) then [] else [Call m_getUmdLibraryHooks])
       ++ (if fires then
             Call m_handleMounted
             :: match umdHookMountResult c with
                | Js.VPromise p => [ThenCatch p ThenDispatchMountedEvent CatchOnerror]
                | _ => [Call m_dispatchMountedEvent]
                end
           else [])).
Proof.
  intros U. destruct s as [a m]. destruct a. cbn [this state] in U. subst.
  destruct c as [fl v]. cbv zeta. cbn [this umdMode hasDispatchMountedEvent umdHookMountResult].
  unfold execScriptsCallback, detectUmd, getUmdLibraryHooks, handleMounted,
    dispatchMountedEvent. unfold_m. cbn.
  destruct umdMode0, fl, (isFinished cb), v; cbn; reflexivity.
Qed.

Lemma late_callback_is_inert_witness :
  Js.final (execScriptsCallback plain_env (batch true umd_exports) fresh_closure
              app1_overcounted) = app1_overcounted.
Proof.
  etransitivity;
    [exact (f_equal Js.final
              (late_callback_is_inert plain_env (batch true umd_exports) fresh_closure
                 app1_overcounted ltac:(vm_compute; reflexivity)))
    |vm_compute; reflexivity].
Defined.

(** * Keep-alive: hiding and showing again *)

(** X16.  Hiding a keep-alive app and showing it again in a container
    moves its content twice, from the container it had to the off-screen
    element and from there to the new container, and leaves the instance
    as it was but for three fields: the container is the new one, the
    off-screen element is held, and the keep-alive state is
    [KEEP_ALIVE_SHOW] (it was [KEEP_ALIVE_HIDDEN] in between, with the
    off-screen element as container).  The registry is untouched and
    neither call raises. *)
Theorem hide_then_show env c s :
  let k := match keepAliveContainer (this s) with
           | Js.Node k => k
           | _ => createElementDiv env
           end in
  let o1 := hiddenKeepAliveApp env s in
  let o2 := showKeepAliveApp c (Js.final o1) in
  Js.result o1 = Js.Normal tt ∧ Js.result o2 = Js.Normal tt
  ∧ getKeepAliveState (this (Js.final o1)) = Some keepAliveStates.KEEP_ALIVE_HIDDEN
  ∧ container (this (Js.final o1)) = Js.Node k
  ∧ this (Js.final o2)
    = set_container (Js.Node c)
        (set_keepAliveContainer (Js.Node k)
           (set_keepAliveState (Some keepAliveStates.KEEP_ALIVE_SHOW) (this s)))
  ∧ appInstanceMap (Js.final o2) = appInstanceMap s
  ∧ filter (λ e, is_cloneContainer e = true) (Js.trace o1 ++ Js.trace o2)
    = [CloneContainer (container (this s)) (Js.Node k) false;
       CloneContainer (Js.Node k) (Js.Node c) false].
Proof.
  cbv zeta. rewrite hiddenKeepAliveApp_run. cbv zeta. run_simpl.
  rewrite showKeepAliveApp_run. cbv zeta. run_simpl.
  destruct s as [a m]. destruct a. cbn.
  destruct keepAliveContainer0; cbn; split_and!; reflexivity.
Qed.

(** * The teardown *)

(** X17.  What the final teardown keeps of a UMD app.  On [unmount] of an
    instance that holds a container, with a hook that does not return a
    promise, the content of the container is copied back onto the stored
    html fragment exactly when the teardown is not a destroying one, the
    instance is in UMD mode and the container has child elements; it is
    the only copy made, and it is made before the container is emptied.
    [actionsForCompletelyDestory] runs exactly when the teardown is a
    destroying one, that is when [destroy] was passed or the load had
    failed. *)
Theorem teardown_saves_umd_content env d s e :
  container (this s) = Js.Node e -> defers env (this s) = false ->
  let a := this s in
  let o := unmount env d s in
  let saved := CloneContainer (Js.Node e) (html (source a)) false in
  filter (λ x, is_cloneContainer x = true ∨ is_clearInnerHTML x = true) (Js.trace o)
  = (if negb (forced d a) && umdMode a && bool_decide (childElementCount env e ≠ 0%nat)
     then [saved] else []) ++ [ClearInnerHTML e]
  ∧ calls m_actionsForCompletelyDestory (Js.trace o)
    = (if forced d a then 1%nat else 0%nat).
Proof.
  intros C D. cbv zeta. rewrite (unmount_now env d s D). cbv zeta.
  destruct (defers_spec env (this s)) as (_ & _ & _ & R3). cbv zeta in R3.
  set (r := match umdHookUnmount (this s) with
            | Some f => try_call env unmount_msg (name (this s)) f
            | None => (Js.VUndefined, [])
            end) in *.
  assert (R4 : filter (λ x, is_cloneContainer x = true ∨ is_clearInnerHTML x = true) r.2 = []).
  { clear -R3. induction R3 as [|x t [H1 H2] _ IH]; [done|].
    rewrite filter_cons_False; [exact IH|]. intros [?|?]; congruence. }
  assert (R5 : calls m_actionsForCompletelyDestory r.2 = 0%nat).
  { subst r. unfold try_call.
    destruct (umdHookUnmount (this s)) as [f|]; [destruct (callFunc env f)|]; done. }
  run_simpl. rewrite !filter_app, !calls_app, R4, R5. clear R3 R4 R5 r.
  rewrite actionsForUnmount_eq. cbv zeta.
  assert (U : umdMode (this (with_this (unmounting (this s)) s)) = umdMode (this s)) by done.
  assert (H : html (source (this (with_this (unmounting (this s)) s)))
              = html (source (this s))) by done.
  assert (Cn : container (this (with_this (unmounting (this s)) s)) = Js.Node e) by done.
  assert (F : ∀ a0, filter (λ x, is_cloneContainer x = true ∨ is_clearInnerHTML x = true)
                      (teardown_prelude a0) = []
                    ∧ filter (λ x, is_cloneContainer x = true ∨ is_clearInnerHTML x = true)
                        (destroy_effects a0) = []
                    ∧ calls m_actionsForCompletelyDestory (teardown_prelude a0) = 0%nat
                    ∧ calls m_actionsForCompletelyDestory (destroy_effects a0) = 1%nat).
  { intros a0. unfold teardown_prelude, destroy_effects.
    case_bool_decide; destruct (negb _ && _); done. }
  destruct (F (this (with_this (unmounting (this s)) s))) as (F1 & F2 & F3 & F4).
  rewrite Cn, U, H.
  destruct (forced d (this s)); run_simpl; cbn [negb andb];
    rewrite ?filter_app, ?calls_app, ?F1, ?F2, ?F3, ?F4.
  - done.
  - destruct (umdMode (this s) && _); done.
Qed.

Lemma teardown_saves_umd_content_witness :
  let o := unmount throwing_env false (app1_mounted throwing_env) in
  filter (λ x, is_cloneContainer x = true ∨ is_clearInnerHTML x = true) (Js.trace o)
  = [CloneContainer (Js.Node 7%nat) (Js.Node 6%nat) false; ClearInnerHTML 7%nat].
Proof.
  cbv zeta.
  etransitivity;
    [exact (proj1 (teardown_saves_umd_content throwing_env false
                     (app1_mounted throwing_env) 7%nat
                     ltac:(vm_compute; reflexivity) ltac:(vm_compute; reflexivity)))
    |vm_compute; reflexivity].
Defined.

(** X18.  The teardown registered on the promise an unmount hook returned,
    once the promise settles.  On an instance that holds a container it
    runs once, however the promise settles, completes, dispatches the
    unmount event once and leaves the container field [null].  On an
    instance that holds no container by then, it raises before anything is
    emptied and leaves the instance as it is; when the promise was
    fulfilled, the rejection handler, which is the same teardown, then
    runs as well, so that the teardown runs twice and the unmount event is
    dispatched twice; when the promise was rejected it runs once. *)
Theorem deferred_teardown_runs env out d s :
  let o := settle env out (ThenActionsForUnmount d) (CatchActionsForUnmount d) s in
  let n := match out with Fulfilled => 2%nat | Rejected _ => 1%nat end in
  (∀ e, container (this s) = Js.Node e ->
     Js.result o = Js.Normal tt
     ∧ calls m_actionsForUnmount (Js.trace o) = 1%nat
     ∧ dispatches lifeCycles.UNMOUNT (Js.trace o) = 1%nat
     ∧ this (Js.final o) = set_container Js.Null (this s))
  ∧ (Js.truthy (container (this s)) = false ->
     calls m_actionsForUnmount (Js.trace o) = n
     ∧ dispatches lifeCycles.UNMOUNT (Js.trace o) = n
     ∧ this (Js.final o) = this s
     ∧ Forall (λ x, is_clearInnerHTML x = false) (Js.trace o)).
Proof.
  cbv zeta. split.
  - intros e C.
    destruct (actionsForUnmount_completes env d s e C) as (A1 & A2 & _ & A4 & A5 & _).
    destruct out as [|reason]; cbn [settle runThen runCatch]; [unfold try_catch|];
      destruct (actionsForUnmount env d s) as [[r1 s1] t1];
      unfold Js.result, Js.final, Js.trace in *; cbn [fst snd] in *; subst r1; done.
  - intros C.
    destruct (actionsForUnmount_raises env d s C) as (A1 & A2 & _ & A4 & A5 & A6).
    destruct out as [|reason]; cbn [settle runThen runCatch]; [unfold try_catch|].
    + destruct (actionsForUnmount env d s) as [[r1 s1] t1].
      unfold Js.result, Js.final, Js.trace in *. cbn [fst snd] in *. subst r1.
      cbn [runCatch].
      destruct (actionsForUnmount_raises env d s1) as (B1 & B2 & _ & B4 & B5 & B6);
        [by rewrite A2|].
      destruct (actionsForUnmount env d s1) as [[r2 s2] t2].
      unfold Js.result, Js.final, Js.trace in *. cbn [fst snd] in *.
      rewrite calls_app, dispatches_app, A4, A5, B4, B5, B2, A2, Forall_app.
      split_and!; try done.
      * eapply Forall_impl; [exact A6|]. by intros ? [? _].
      * eapply Forall_impl; [exact B6|]. by intros ? [? _].
    + split_and!; try done. eapply Forall_impl; [exact A6|]. by intros ? [? _].
Qed.

Lemma deferred_teardown_runs_witness :
  let s := Js.final (unmount deferring_env false (app1_mounted deferring_env)) in
  let once := settle plain_env Fulfilled (ThenActionsForUnmount false)
                (CatchActionsForUnmount false) s in
  let again := settle plain_env Fulfilled (ThenActionsForUnmount false)
                 (CatchActionsForUnmount false) (Js.final once) in
  calls m_actionsForUnmount (Js.trace once) = 1%nat
  ∧ calls m_actionsForUnmount (Js.trace again) = 2%nat.
Proof.
  cbv zeta. split.
  - exact (proj1 (proj2 (proj1 (deferred_teardown_runs plain_env Fulfilled false
             (Js.final (unmount deferring_env false (app1_mounted deferring_env))))
             7%nat ltac:(vm_compute; reflexivity)))).
  - exact (proj1 (proj2 (deferred_teardown_runs plain_env Fulfilled false
             (Js.final (settle plain_env Fulfilled (ThenActionsForUnmount false)
                          (CatchActionsForUnmount false)
                          (Js.final (unmount deferring_env false
                                       (app1_mounted deferring_env))))))
             ltac:(vm_compute; reflexivity))).
Defined.

(** * The registry and the active apps *)

(** X19.  Every active app is a registered app: [getActiveApps] is a
    sublist of [getAllApps], in the same order.  And [unmount(false)],
    called on a registered instance whose load has not failed, keeps it
    in [getAllApps], which is unchanged, and takes it out of
    [getActiveApps]. *)
Theorem active_apps_are_registered w :
  getActiveApps w `sublist_of` getAllApps w
  ∧ (∀ env r n app,
       objects w !! r = Some app -> state app ≠ appStates.LOAD_SOURCE_ERROR ->
       (∀ r', (n, r') ∈ instances w -> r' = r) ->
       ∃ res w' t,
         invoke r (unmount env false) w = Some (res, w', t)
         ∧ getAllApps w' = getAllApps w
         ∧ n ∉ getActiveApps w').
Proof.
  split.
  { rewrite getActiveApps_filter. unfold getAllApps, Js.map_keys.
    apply fmap_sublist, sublist_filter. }
  intros env r n app O E Uq. unfold invoke. rewrite O. cbn [mbind option_bind].
  set (s := {| this := app; appInstanceMap := instances w |}).
  assert (F : forced false (this s) = false).
  { unfold forced. cbn [this s]. by rewrite bool_decide_false. }
  destruct (unmount_registry env false s) as [R _]. specialize (R F).
  destruct (unmount_state env false s) as (U & _).
  destruct (unmount env false s) as [[res s'] t'].
  unfold Js.result, Js.final, Js.trace in *. cbn [fst snd] in *.
  exists res, {| objects := <[r := this s']> (objects w);
                 instances := appInstanceMap s' |}, t'.
  split; [reflexivity|].
  unfold getAllApps. cbn [instances]. rewrite R. split; [reflexivity|].
  rewrite elem_of_getActiveApps. cbn [instances objects].
  intros (r' & app' & I & O' & S' & _). cbn [appInstanceMap s] in I.
  rewrite (Uq r' I), lookup_insert_eq in O'. by simplify_eq.
Qed.

Lemma active_apps_are_registered_witness :
  ∃ res w' t,
    invoke 0%nat (unmount plain_env false)
      {| objects := {[ 0%nat := this (app1_mounted plain_env) ]};
         instances := [("app1", 0%nat)] |} = Some (res, w', t)
    ∧ getAllApps w' = ["app1"]
    ∧ "app1" ∉ getActiveApps w'.
Proof.
  refine (proj2 (active_apps_are_registered
                   {| objects := {[ 0%nat := this (app1_mounted plain_env) ]};
                      instances := [("app1", 0%nat)] |})
            plain_env 0%nat "app1" (this (app1_mounted plain_env)) _ _ _).
  - apply lookup_singleton_eq.
  - vm_compute. discriminate.
  - intros r' I. apply list_elem_of_singleton in I. congruence.
Defined.
